(** * The SLVSS loop of n8n-sovereign: a shallow embedding and its properties

    The development follows the TypeScript sources of the self-loop:
    VERI3FY (the three-stage verification gate), ScalingEngine,
    AutoGenerator, LearningCore and SLVSSRunner (the orchestrator).  The
    first part embeds the code, one module per source file; the second part
    proves the properties C1 to C10, and the further properties X1 to X30
    of the same code.

    Conventions of the embedding:
    - a JavaScript [number] is an exact rational ([Q]); where a coercion can
      yield [NaN] or an infinity the type [JS.number] adds them.  Rounding
      done by the code ([toFixed] followed by [parseFloat]) is written out;
      the rounding error of IEEE-754 arithmetic itself is not modelled, and
      a property that would turn on it is stated up to a rounding unit, or
      away from the tie.
      Iteration numbers and counters are integers ([Z]), sizes are [nat];
    - a JavaScript string is a [string] of 8-bit code units (ASCII text);
    - [Date.now()] is an explicit argument of every function that reads it,
      and a time stamp printed by [toISOString] is kept as that number;
    - an object mutated in place becomes explicit state passing: a method
      takes the state of its object and returns the new one;
    - an exception is an outcome [None];
    - [Math.log2] and the bodies of the generated artifacts are parameters. *)

From Stdlib Require Import ZArith QArith Qround Qminmax Qabs Lqa Lia.
From Stdlib Require Import List String Ascii Bool Permutation Sorted.
From Stdlib Require Import DecimalString HexadecimalString.
Import ListNotations.

Set Warnings "-register-all".

Local Open Scope Z_scope.
Local Open Scope string_scope.

(* ================================================================== *)
(** * ECMAScript primitives used by the sources                        *)
(* ================================================================== *)

Module JS.

(** ** Comparisons on finite numbers *)

Definition Qltb (x y : Q) : bool := negb (Qle_bool y x).
Definition Qleb (x y : Q) : bool := Qle_bool x y.

(** ** [Number.prototype.toFixed] *)

(** [pow10 e] is 10^e for any integer exponent. *)
Definition pow10 (e : Z) : Q :=
  if (0 <=? e)%Z then inject_Z (10 ^ e) else (1 / inject_Z (10 ^ (- e)))%Q.

(** The integer [n] for which [n / 10^d - x] is closest to zero, the larger
    one on a tie ([x] non-negative). *)
Definition fixed_units (d : nat) (x : Q) : Z :=
  Qfloor (x * inject_Z (10 ^ Z.of_nat d) + (1 # 2))%Q.

(** [parseFloat (x.toFixed d)]: the value of the decimal numeral that
    [toFixed] prints, the sign handled apart as the standard does. *)
Definition toFixed (d : nat) (x : Q) : Q :=
  if Qltb x 0
  then (- (inject_Z (fixed_units d (- x)) / inject_Z (10 ^ Z.of_nat d)))%Q
  else (inject_Z (fixed_units d x) / inject_Z (10 ^ Z.of_nat d))%Q.

(** ** Printing numbers *)

Definition string_of_Z (z : Z) : string :=
  DecimalString.NilZero.string_of_int (Z.to_int z).

Definition string_of_nat (n : nat) : string := string_of_Z (Z.of_nat n).

Fixpoint repeat_char (c : ascii) (n : nat) : string :=
  match n with
  | O => EmptyString
  | S k => String c (repeat_char c k)
  end.

Definition take (n : nat) (s : string) : string := substring 0 n s.
Definition drop (n : nat) (s : string) : string :=
  substring n (String.length s - n) s.

(** Position of the decimal point of a positive rational: the [n] with
    10^(n-1) <= q < 10^n.  The start is a lower estimate from the binary
    logarithms, the loop walks up to the exact value. *)
Fixpoint magnitude_from (fuel : nat) (n : Z) (q : Q) : Z :=
  match fuel with
  | O => n
  | S k => if Qleb (pow10 n) q then magnitude_from k (n + 1) q else n
  end.

Definition magnitude (q : Q) : Z :=
  let e2 := Z.log2 (Qnum q) - Z.log2 (Zpos (Qden q)) in
  magnitude_from 8 ((e2 - 1) * 30103 / 100000 - 2) q.

Fixpoint strip_zeros (fuel : nat) (s : Z) : Z :=
  match fuel with
  | O => s
  | S k => if (s mod 10 =? 0)%Z then strip_zeros k (s / 10) else s
  end.

(** [Number::toString] in radix 10 for a positive number.  A double prints
    with the fewest digits that identify it, at most 17; a rational prints
    here with its own digits, rounded at the 17th. *)
Definition positive_to_string (q : Q) : string :=
  let n0 := magnitude q in
  let s0 := Qfloor (q * pow10 (17 - n0) + (1 # 2))%Q in
  let '(s1, n) := if (s0 =? 10 ^ 17)%Z then (10 ^ 16, n0 + 1) else (s0, n0) in
  let s := strip_zeros 17 s1 in
  let ds := string_of_Z s in
  let k := Z.of_nat (String.length ds) in
  if ((k <=? n) && (n <=? 21))%bool%Z
  then ds ++ repeat_char "0" (Z.to_nat (n - k))
  else if ((0 <? n) && (n <=? 21))%bool%Z
  then take (Z.to_nat n) ds ++ "." ++ drop (Z.to_nat n) ds
  else if ((-6 <? n) && (n <=? 0))%bool%Z
  then "0." ++ repeat_char "0" (Z.to_nat (- n)) ++ ds
  else
    let e := n - 1 in
    let es := (if (e <? 0)%Z then "-" else "+") ++ string_of_Z (Z.abs e) in
    if (k =? 1)%Z then ds ++ "e" ++ es
    else take 1 ds ++ "." ++ drop 1 ds ++ "e" ++ es.

Definition Q_to_string (q : Q) : string :=
  if Qeq_bool q 0 then "0"
  else if Qltb q 0 then "-" ++ positive_to_string (- q)
  else positive_to_string q.

(** The string printed by [x.toFixed(d)]. *)
Definition toFixed_string (d : nat) (x : Q) : string :=
  if Qleb (pow10 21) (Qabs x) then Q_to_string x
  else
    let n := fixed_units d (Qabs x) in
    let m0 := string_of_Z n in
    let m := repeat_char "0" (S d - String.length m0) ++ m0 in
    let k := String.length m in
    (if Qltb x 0 then "-" else EmptyString) ++ take (k - d) m ++
    (match d with O => EmptyString | _ => "." ++ drop (k - d) m end).

(** ** Values and coercions *)

(** A number as a coercion can produce it: [NaN] and the infinities beside
    the finite values. *)
Inductive number := NaN | NegInf | Fin (q : Q) | PosInf.

(** What a property of a payload can hold.  An object is its list of own
    properties, each key once. *)
Inductive value :=
| VUndefined
| VNull
| VBool (b : bool)
| VNumber (n : number)
| VString (s : string)
| VArray (elements : list value)
| VObject (properties : list (string * value)).

(** [a < b] and [a <= b] on numbers; false as soon as one side is [NaN]. *)
Definition num_ltb (a b : number) : bool :=
  match a, b with
  | NaN, _ | _, NaN => false
  | NegInf, NegInf => false
  | NegInf, _ => true
  | _, NegInf => false
  | PosInf, _ => false
  | Fin _, PosInf => true
  | Fin x, Fin y => Qltb x y
  end.

Definition num_leb (a b : number) : bool :=
  match a, b with
  | NaN, _ | _, NaN => false
  | _, _ => negb (num_ltb b a)
  end.

(** [a - b]. *)
Definition num_sub (a b : number) : number :=
  match a, b with
  | NaN, _ | _, NaN => NaN
  | PosInf, PosInf | NegInf, NegInf => NaN
  | PosInf, _ | _, NegInf => PosInf
  | NegInf, _ | _, PosInf => NegInf
  | Fin x, Fin y => Fin (x - y)
  end.

(** [a / b] for a positive finite divisor. *)
Definition num_div (a : number) (b : Q) : number :=
  match a with
  | Fin x => Fin (x / b)
  | other => other
  end.

Definition number_to_string (n : number) : string :=
  match n with
  | NaN => "NaN"
  | NegInf => "-Infinity"
  | PosInf => "Infinity"
  | Fin q => Q_to_string q
  end.

Definition number_toFixed_string (d : nat) (n : number) : string :=
  match n with
  | Fin q => toFixed_string d q
  | _ => number_to_string n
  end.

(** *** Strings *)

Definition is_digit (c : ascii) : bool :=
  let n := nat_of_ascii c in ((48 <=? n) && (n <=? 57))%nat.

(** [hay.includes(needle)]. *)
Fixpoint includes (needle hay : string) : bool :=
  String.prefix needle hay ||
  match hay with
  | EmptyString => false
  | String _ rest => includes needle rest
  end.

(** [s.split(sep)[0]] for a one-character separator. *)
Fixpoint before_first (sep : ascii) (s : string) : string :=
  match s with
  | EmptyString => EmptyString
  | String c rest =>
      if Ascii.eqb c sep then EmptyString else String c (before_first sep rest)
  end.

(** [parts.join(sep)]. *)
Fixpoint join (sep : string) (parts : list string) : string :=
  match parts with
  | [] => EmptyString
  | p :: rest =>
      match rest with
      | [] => p
      | _ => p ++ sep ++ join sep rest
      end
  end.

(** [s.match(/\d+\.\d+/)] finds a match exactly when a digit, a dot and a
    digit stand next to each other somewhere in [s]. *)
Fixpoint matches_version (s : string) : bool :=
  match s with
  | EmptyString => false
  | String a rest =>
      (is_digit a &&
       match rest with
       | String b (String c _) => Ascii.eqb b "." && is_digit c
       | _ => false
       end)
      || matches_version rest
  end.

(** *** [StringToNumber] *)

Definition is_space (c : ascii) : bool :=
  let n := nat_of_ascii c in
  (((9 <=? n) && (n <=? 13)) || (n =? 32) || (n =? 160))%nat.

Fixpoint drop_spaces (cs : list ascii) : list ascii :=
  match cs with
  | c :: rest => if is_space c then drop_spaces rest else cs
  | [] => []
  end.

Definition trim (cs : list ascii) : list ascii :=
  rev (drop_spaces (rev (drop_spaces cs))).

(** Value of a digit in a radix up to 16, if it is one. *)
Definition digit_value (radix : Z) (c : ascii) : option Z :=
  let n := Z.of_nat (nat_of_ascii c) in
  let v :=
    if ((48 <=? n) && (n <=? 57))%Z then n - 48
    else if ((97 <=? n) && (n <=? 102))%Z then n - 87
    else if ((65 <=? n) && (n <=? 70))%Z then n - 55
    else 99 in
  if (v <? radix)%Z then Some v else None.

(** Reads the longest run of digits: its value, its length, what follows. *)
Fixpoint read_digits (radix : Z) (cs : list ascii) (acc : Z) (len : nat)
  : Z * nat * list ascii :=
  match cs with
  | c :: rest =>
      match digit_value radix c with
      | Some v => read_digits radix rest (acc * radix + v) (S len)
      | None => (acc, len, cs)
      end
  | [] => (acc, len, [])
  end.

Definition integer_literal (radix : Z) (cs : list ascii) : number :=
  match read_digits radix cs 0 0 with
  | (v, S _, []) => Fin (inject_Z v)
  | _ => NaN
  end.

Definition char_is (c : ascii) (s : string) : bool :=
  match s with
  | String a _ => Ascii.eqb c a
  | EmptyString => false
  end.

(** The exponent part, when there is one: [e], a sign, digits. *)
Definition read_exponent (cs : list ascii) : option Z :=
  match cs with
  | [] => Some 0
  | c :: rest =>
      if char_is c "e" || char_is c "E" then
        let '(neg, ds) :=
          match rest with
          | s :: r =>
              if char_is s "-" then (true, r)
              else if char_is s "+" then (false, r) else (false, rest)
          | [] => (false, rest)
          end in
        match read_digits 10 ds 0 0 with
        | (v, S _, []) => Some (if neg then - v else v)
        | _ => None
        end
      else None
  end.

Definition decimal_literal (cs : list ascii) : option Q :=
  let '(ip, ilen, r1) := read_digits 10 cs 0 0 in
  let '(fp, flen, r2) :=
    match r1 with
    | c :: r => if char_is c "." then read_digits 10 r 0 0 else (0, O, r1)
    | [] => (0, O, r1)
    end in
  match (ilen + flen)%nat with
  | O => None
  | _ =>
      match read_exponent r2 with
      | Some e =>
          Some (inject_Z (ip * 10 ^ Z.of_nat flen + fp)
                * pow10 (e - Z.of_nat flen))%Q
      | None => None
      end
  end.

Definition StringToNumber (s : string) : number :=
  let cs := trim (list_ascii_of_string s) in
  match cs with
  | [] => Fin 0
  | c0 :: c1 :: rest =>
      if char_is c0 "0" && (char_is c1 "x" || char_is c1 "X")
      then integer_literal 16 rest
      else if char_is c0 "0" && (char_is c1 "o" || char_is c1 "O")
      then integer_literal 8 rest
      else if char_is c0 "0" && (char_is c1 "b" || char_is c1 "B")
      then integer_literal 2 rest
      else
        let '(neg, body) :=
          if char_is c0 "-" then (true, c1 :: rest)
          else if char_is c0 "+" then (false, c1 :: rest) else (false, cs) in
        if String.eqb (string_of_list_ascii body) "Infinity"
        then (if neg then NegInf else PosInf)
        else match decimal_literal body with
             | Some q => Fin (if neg then - q else q)
             | None => NaN
             end
  | [c] =>
      match decimal_literal [c] with
      | Some q => Fin q
      | None => NaN
      end
  end.

(** *** [ToString], [ToNumber], [ToBoolean] *)

(** An array prints its elements joined by commas, [null] and [undefined]
    as nothing; any other object prints as [[object Object]]. *)
Fixpoint ToString (v : value) : string :=
  match v with
  | VUndefined => "undefined"
  | VNull => "null"
  | VBool b => if b then "true" else "false"
  | VNumber n => number_to_string n
  | VString s => s
  | VArray elements =>
      join ","
        (map (fun e => match e with
                       | VUndefined | VNull => EmptyString
                       | _ => ToString e
                       end) elements)
  | VObject _ => "[object Object]"
  end.

Definition ToNumber (v : value) : number :=
  match v with
  | VUndefined => NaN
  | VNull => Fin 0
  | VBool b => Fin (if b then 1 else 0)
  | VNumber n => n
  | VString s => StringToNumber s
  | VArray _ | VObject _ => StringToNumber (ToString v)
  end.

Definition ToBoolean (v : value) : bool :=
  match v with
  | VUndefined | VNull => false
  | VBool b => b
  | VNumber NaN => false
  | VNumber (Fin q) => negb (Qeq_bool q 0)
  | VNumber _ => true
  | VString s => negb (String.eqb s EmptyString)
  | VArray _ | VObject _ => true
  end.

(** [typeof v === 'number'], [typeof v === 'string']. *)
Definition is_number (v : value) : bool :=
  match v with VNumber _ => true | _ => false end.

Definition is_string (v : value) : bool :=
  match v with VString _ => true | _ => false end.

(** [v < q] and [v > q] against a numeric literal. *)
Definition lt_lit (v : value) (q : Q) : bool := num_ltb (ToNumber v) (Fin q).
Definition gt_lit (v : value) (q : Q) : bool := num_ltb (Fin q) (ToNumber v).

(** [obj[key]]: [undefined] when the property is absent. *)
Fixpoint get (obj : list (string * value)) (key : string) : value :=
  match obj with
  | [] => VUndefined
  | (k, v) :: rest => if String.eqb k key then v else get rest key
  end.

(** *** Sorting *)

(** Insertion of [x] before the first element that does not come strictly
    before it: the sort built on it keeps equal elements in their order, as
    [Array.prototype.sort] does. *)
Fixpoint insert_by {A} (le : A -> A -> bool) (x : A) (l : list A) : list A :=
  match l with
  | [] => [x]
  | y :: rest => if le x y then x :: l else y :: insert_by le x rest
  end.

Definition sort_by {A} (le : A -> A -> bool) (l : list A) : list A :=
  fold_right (insert_by le) [] l.

(** [strings.sort()]: by code units. *)
Definition sort_strings (l : list string) : list string :=
  sort_by String.leb l.

(** *** 32-bit integers *)

(** [x | 0]. *)
Definition to_int32 (z : Z) : Z := (z + 2 ^ 31) mod 2 ^ 32 - 2 ^ 31.

(** [x << k]. *)
Definition shl32 (z : Z) (k : Z) : Z := to_int32 (Z.shiftl (to_int32 z) k).

(** [n.toString(16)] for a non-negative integer. *)
Definition to_hex (z : Z) : string :=
  HexadecimalString.NilZero.string_of_uint (N.to_hex_uint (Z.to_N z)).

(** *** [Math.floor(Math.log2(x))], printed *)

Definition floor_log2 (q : Q) : Z :=
  let a := Qnum q in
  let b := Zpos (Qden q) in
  if (b <=? a)%Z then Z.log2 (a / b)
  else - Z.log2_up ((b + a - 1) / a).

Definition floor_log2_string (n : number) : string :=
  match n with
  | NaN | NegInf => "NaN"
  | PosInf => "Infinity"
  | Fin q =>
      if Qltb q 0 then "NaN"
      else if Qeq_bool q 0 then "-Infinity"
      else string_of_Z (floor_log2 q)
  end.

(** [x + q]. *)
Definition num_add_lit (n : number) (q : Q) : number :=
  match n with
  | Fin x => Fin (x + q)
  | other => other
  end.

End JS.

(* ================================================================== *)
(** * Types shared by the engines (SLVSSRunner.ts)                     *)
(* ================================================================== *)

(** Timestamps ([Date.now()], and the ISO strings printed from it) are
    milliseconds since the epoch. *)

Module Types.

Inductive Status := Running | Passed | Failed | Scaled.

Record VERI3FYResult := {
  stage1_syntax : bool;
  stage2_logic : bool;
  stage3_sovereignty : bool;
  passed : bool;
  score : Q;
  errors : list string
}.

Record ScalingResult := {
  scaled : bool;
  previousScale : Q;
  newScale : Q;
  reason : string
}.

Record GenerationResult := {
  generated : bool;
  artifacts : list string;
  type : string
}.

Record LearningResult := {
  learned : bool;
  patterns : nat;
  improvementDelta : Q;
  modelVersion : string
}.

Record LoopIteration := {
  id : Z;
  startedAt : Z;
  completedAt : option Z;
  durationMs : Z;
  veri3fyResult : VERI3FYResult;
  scalingResult : ScalingResult;
  generationResult : GenerationResult;
  learningResult : LearningResult;
  status : Status;
  confidence : Q;
  roi : Q
}.

End Types.
Import Types.

(** [history.slice(-n)]: the last [n] entries. *)
Definition slice_last {A} (n : nat) (l : list A) : list A :=
  skipn (List.length l - n) l.

(** [a.push(x); if (a.length > bound) a.shift()]. *)
Definition push_bounded {A} (bound : nat) (l : list A) (x : A) : list A :=
  let l' := (l ++ [x])%list in
  if (bound <? List.length l')%nat then tl l' else l'.

(* ================================================================== *)
(** * ScalingEngine.ts                                                 *)
(* ================================================================== *)

Module ScalingEngine.

Record ScaleInput := {
  in_score : Q;
  in_iteration : Z;
  in_history : list LoopIteration
}.

Record ScalePolicy := {
  growthFactor : Q;
  maxScale : Q;
  minPassStreak : Q;
  decayOnFailure : bool;
  decayFactor : Q
}.

(** [Partial<ScalePolicy>]: every field may be left out. *)
Record PartialScalePolicy := {
  opt_growthFactor : option Q;
  opt_maxScale : option Q;
  opt_minPassStreak : option Q;
  opt_decayOnFailure : option bool;
  opt_decayFactor : option Q
}.

Definition noPolicy : PartialScalePolicy :=
  {| opt_growthFactor := None; opt_maxScale := None;
     opt_minPassStreak := None; opt_decayOnFailure := None;
     opt_decayFactor := None |}.

Record ScaleEvent := {
  ev_iteration : Z;
  ev_scale : Q;
  ev_reason : string
}.

Record t := {
  policy : ScalePolicy;
  _currentScale : Q;
  passStreak : nat;
  failStreak : nat;
  scaleHistory : list ScaleEvent
}.

Definition or_default {A} (o : option A) (d : A) : A :=
  match o with Some x => x | None => d end.

Definition constructor (p : PartialScalePolicy) : t :=
  {| policy :=
       {| growthFactor := or_default (opt_growthFactor p) (5 # 4);
          maxScale := or_default (opt_maxScale p) (1024 # 1);
          minPassStreak := or_default (opt_minPassStreak p) (3 # 1);
          decayOnFailure := or_default (opt_decayOnFailure p) true;
          decayFactor := or_default (opt_decayFactor p) (9 # 10) |};
     _currentScale := 1;
     passStreak := 0;
     failStreak := 0;
     scaleHistory := [] |}.

(** The loop of [updateStreaks], newest entry first; a [break] returns
    the counters as they stand. *)
Fixpoint countStreaks (newestFirst : list LoopIteration) (pass fail : nat)
  : nat * nat :=
  match newestFirst with
  | [] => (pass, fail)
  | iter :: older =>
      match status iter with
      | Passed | Scaled =>
          if (fail =? 0)%nat then countStreaks older (S pass) fail
          else (pass, fail)
      | Failed =>
          if (pass =? 0)%nat then countStreaks older pass (S fail)
          else (pass, fail)
      | Running => (pass, fail)
      end
  end.

Definition updateStreaks (history : list LoopIteration) (s : t) : t :=
  match history with
  | [] => s
  | _ =>
      let window := slice_last 10 history in
      let '(p, f) := countStreaks (rev window) 0 0 in
      {| policy := policy s; _currentScale := _currentScale s;
         passStreak := p; failStreak := f;
         scaleHistory := scaleHistory s |}
  end.

Definition count (n : nat) : Q := inject_Z (Z.of_nat n).

Definition scale (s0 : t) (input : ScaleInput) : t * ScalingResult :=
  let prev := _currentScale s0 in
  let s := updateStreaks (in_history input) s0 in
  let pol := policy s in
  let '(s1, scaled, reason) :=
    if (JS.Qleb (minPassStreak pol) (count (passStreak s))
        && JS.Qleb (17 # 20) (in_score input)
        && JS.Qltb (_currentScale s) (maxScale pol))%bool
    then
      let next :=
        JS.toFixed 4 (Qmin (_currentScale s * growthFactor pol) (maxScale pol)) in
      let reason :=
        "Pass streak " ++ JS.string_of_nat (passStreak s) ++ " + score " ++
        JS.toFixed_string 3 (in_score input) ++ " → scale up" in
      ({| policy := pol; _currentScale := next; passStreak := 0;
          failStreak := failStreak s; scaleHistory := scaleHistory s |},
       true, reason)
    else if (decayOnFailure pol
             && JS.Qleb 3 (count (failStreak s))
             && JS.Qltb 1 (_currentScale s))%bool
    then
      let next :=
        JS.toFixed 4 (Qmax (_currentScale s * decayFactor pol) 1) in
      let reason :=
        "Fail streak " ++ JS.string_of_nat (failStreak s) ++ " → scale decay" in
      ({| policy := pol; _currentScale := next; passStreak := passStreak s;
          failStreak := 0; scaleHistory := scaleHistory s |},
       true, reason)
    else if ((0 <? in_iteration input)%Z
             && (Z.rem (in_iteration input) 10 =? 0)%Z
             && JS.Qleb (19 # 20) (in_score input))%bool
    then
      let quantumBoost := (_currentScale s * (3 # 2))%Q in
      let next := JS.toFixed 4 (Qmin quantumBoost (maxScale pol)) in
      let reason :=
        "Quantum boost at iteration " ++ JS.string_of_Z (in_iteration input) ++
        " (score=" ++ JS.toFixed_string 3 (in_score input) ++ ")" in
      ({| policy := pol; _currentScale := next; passStreak := passStreak s;
          failStreak := failStreak s; scaleHistory := scaleHistory s |},
       true, reason)
    else (s, false, "No scaling event") in
  let s2 :=
    if scaled
    then {| policy := policy s1; _currentScale := _currentScale s1;
            passStreak := passStreak s1; failStreak := failStreak s1;
            scaleHistory :=
              push_bounded 50 (scaleHistory s1)
                {| ev_iteration := in_iteration input;
                   ev_scale := _currentScale s1;
                   ev_reason := reason |} |}
    else s1 in
  (s2, {| scaled := scaled; previousScale := prev;
          newScale := _currentScale s2; reason := reason |}).

Definition currentScale (s : t) : Q := _currentScale s.

(** A sequence of calls, the results dropped. *)
Definition scale_all (s : t) (inputs : list ScaleInput) : t :=
  fold_left (fun st i => fst (scale st i)) inputs s.

End ScalingEngine.

(* ================================================================== *)
(** * VERI3FY.ts                                                       *)
(* ================================================================== *)

Module VERI3FY.
Import JS.

Record VERI3FYConfig := {
  stages : Z;
  threshold : Q;
  strictMode : bool
}.

(** [Partial<VERI3FYConfig>]. *)
Record PartialConfig := {
  opt_stages : option Z;
  opt_threshold : option Q;
  opt_strictMode : option bool
}.

Record t := {
  config : VERI3FYConfig;
  verifyCount : nat;
  passCount : nat
}.

Definition or_default {A} (o : option A) (d : A) : A :=
  match o with Some x => x | None => d end.

Definition constructor (c : PartialConfig) : t :=
  {| config :=
       {| stages := or_default (opt_stages c) 3;
          threshold := or_default (opt_threshold c) (17 # 20);
          strictMode := or_default (opt_strictMode c) true |};
     verifyCount := 0;
     passCount := 0 |}.

(** The payload: [Record<string, unknown>]. *)
Definition Payload := list (string * value).

(** A stage carries its [ok] flag and the shared [errors] array.
    [reject]: [errors.push(msg); ok = false].  [warn]: the push alone. *)
Definition reject (msg : string) (st : bool * list string)
  : bool * list string :=
  (false, (snd st ++ [msg])%list).

Definition warn (msg : string) (st : bool * list string)
  : bool * list string :=
  (fst st, (snd st ++ [msg])%list).

Definition is_nullish (v : value) : bool :=
  match v with VUndefined | VNull => true | _ => false end.

Definition required : list string :=
  ["iteration"; "scale"; "learnerVersion"; "timestamp"; "ark95xNode"].

Definition stage1_syntax (payload : Payload) (errors : list string)
  : bool * list string :=
  let st :=
    fold_left
      (fun st field =>
         if is_nullish (get payload field)
         then reject ("STAGE1: Missing required field: " ++ field) st
         else st)
      required (true, errors) in
  let st :=
    if negb (is_number (get payload "iteration"))
       || lt_lit (get payload "iteration") 0
    then reject "STAGE1: iteration must be a non-negative number" st
    else st in
  let st :=
    if negb (is_number (get payload "scale"))
       || lt_lit (get payload "scale") 1
    then reject "STAGE1: scale must be >= 1" st
    else st in
  let st :=
    if negb (is_string (get payload "ark95xNode"))
       || negb (includes "ARK95X" (ToString (get payload "ark95xNode")))
    then reject "STAGE1: ark95xNode must contain 'ARK95X' identifier" st
    else st in
  let st :=
    if negb (is_number (get payload "timestamp"))
       || num_leb (ToNumber (get payload "timestamp")) (Fin 0)
    then reject "STAGE1: timestamp must be a positive epoch ms value" st
    else st in
  st.

(** [now] is the reading of [Date.now()] inside the stage. *)
Definition stage2_logic (payload : Payload) (now : Z) (errors : list string)
  : bool * list string :=
  let st := (true, errors) in
  let successRate := get payload "successRate" in
  let st :=
    if lt_lit successRate 0 || gt_lit successRate 1
    then reject ("STAGE2: successRate out of range: " ++ ToString successRate) st
    else st in
  let avgConfidence := get payload "avgConfidence" in
  let st :=
    if lt_lit avgConfidence 0 || gt_lit avgConfidence 1
    then reject ("STAGE2: avgConfidence out of range: "
                 ++ ToString avgConfidence) st
    else st in
  let avgROI := get payload "avgROI" in
  let st :=
    if lt_lit avgROI 0
    then warn ("STAGE2: avgROI is negative (" ++ ToString avgROI
               ++ ") — underperforming") st
    else st in
  let ageMs :=
    num_sub (Fin (inject_Z now)) (ToNumber (get payload "timestamp")) in
  let st :=
    if num_ltb (Fin (60000 # 1)) ageMs
    then reject ("STAGE2: Payload timestamp is stale ("
                 ++ number_toFixed_string 1 (num_div ageMs (1000 # 1))
                 ++ "s old)") st
    else st in
  let st :=
    if is_number (get payload "iteration")
       && lt_lit (get payload "iteration") 0
    then reject "STAGE2: iteration cannot be negative" st
    else st in
  st.

Definition validNodes : list string :=
  ["SLVSS-ARK95X-v2"; "PAXRuntime"; "SovereignExtraction"; "AutomationAPI"].

Definition stage3_sovereignty (payload : Payload) (errors : list string)
  : bool * list string :=
  let st := (true, errors) in
  let node := get payload "ark95xNode" in
  let nodeValid :=
    existsb (fun n => includes (before_first "-" n) (ToString node))
            validNodes in
  let st :=
    if negb nodeValid
    then reject ("STAGE3: Non-sovereign node detected: " ++ ToString node) st
    else st in
  let st :=
    if gt_lit (get payload "iteration") (5 # 1)
       && lt_lit (get payload "avgConfidence") (7 # 10)
    then reject ("STAGE3: Sovereignty confidence too low after warmup: "
                 ++ ToString (get payload "avgConfidence")) st
    else st in
  let st :=
    if gt_lit (get payload "iteration") (10 # 1)
       && lt_lit (get payload "scale") 1
    then reject "STAGE3: Scale regression detected — sovereignty at risk" st
    else st in
  let learnerVersion := get payload "learnerVersion" in
  let st :=
    if negb (ToBoolean learnerVersion)
       || negb (matches_version (ToString learnerVersion))
    then reject ("STAGE3: Invalid learner version: "
                 ++ ToString learnerVersion) st
    else st in
  st.

Definition counted (s : t) (pass : bool) : t :=
  {| config := config s;
     verifyCount := S (verifyCount s);
     passCount := if pass then S (passCount s) else passCount s |}.

Definition verify (s : t) (payload : Payload) (now : Z)
  : t * VERI3FYResult :=
  let cfg := config s in
  let '(s1, errors) := stage1_syntax payload [] in
  let stage1Score : Q := if s1 then 35 # 100 else 0%Q in
  if (stages cfg <? 2)%Z then
    let passed :=
      s1 && Qleb (threshold cfg * (35 # 100)) stage1Score in
    (counted s passed,
     {| Types.stage1_syntax := s1; Types.stage2_logic := false;
        Types.stage3_sovereignty := false; passed := passed;
        score := stage1Score; errors := errors |})
  else
    let '(s2, errors) := stage2_logic payload now errors in
    let stage2Score : Q := if s2 then 30 # 100 else 0%Q in
    if (stages cfg <? 3)%Z then
      let score := (stage1Score + stage2Score)%Q in
      let passed := s1 && s2 && Qleb (threshold cfg * (65 # 100)) score in
      (counted s passed,
       {| Types.stage1_syntax := s1; Types.stage2_logic := s2;
          Types.stage3_sovereignty := false; passed := passed;
          score := score; errors := errors |})
    else
      let '(s3, errors) := stage3_sovereignty payload errors in
      let stage3Score : Q := if s3 then 35 # 100 else 0%Q in
      let score := toFixed 4 (stage1Score + stage2Score + stage3Score) in
      let passed :=
        if strictMode cfg
        then s1 && s2 && s3 && Qleb (threshold cfg) score
        else Qleb (threshold cfg) score in
      (counted s passed,
       {| Types.stage1_syntax := s1; Types.stage2_logic := s2;
          Types.stage3_sovereignty := s3; passed := passed;
          score := score; errors := errors |}).

(** ** Statistics *)

(** [get passRate]. *)
Definition passRate (s : t) : Q :=
  if (0 <? verifyCount s)%nat
  then (inject_Z (Z.of_nat (passCount s))
        / inject_Z (Z.of_nat (verifyCount s)))%Q
  else 0%Q.

(** A sequence of calls, each with its payload and the clock it reads;
    the results dropped. *)
Definition verify_all (s : t) (calls : list (Payload * Z)) : t :=
  fold_left (fun st call => fst (verify st (fst call) (snd call))) calls s.

End VERI3FY.

(* ================================================================== *)
(** * AutoGenerator.ts                                                 *)
(* ================================================================== *)

Module AutoGenerator.
Import JS.

Record GenerateInput := {
  iteration : Z;
  scale : Q;
  confidence : Q;
  history : list LoopIteration
}.

Record ArtifactTemplate := {
  type : string;
  name : string;
  minConfidence : Q;
  minScale : Q;
  generator : GenerateInput -> string
}.

(** The bodies of the artifacts.  Each prints its input, most of them with
    the wall-clock time of the call; they are taken as given, one set per
    call of [generate]. *)
Record Bodies := {
  genWorkflow : GenerateInput -> string;
  genApiRoute : GenerateInput -> string;
  genValueReport : GenerateInput -> string;
  genAgentTask : GenerateInput -> string;
  genTsModule : GenerateInput -> string;
  genQuantumWorkflow : GenerateInput -> string;
  genSovereigntySummary : GenerateInput -> string
}.

Record LogEntry := {
  log_iteration : Z;
  log_artifacts : list string;
  log_type : string
}.

Record t := {
  generationCount : nat;
  artifactLog : list LogEntry
}.

Definition constructor : t := {| generationCount := 0; artifactLog := [] |}.

Definition templates (b : Bodies) : list ArtifactTemplate :=
  [ {| type := "workflow"; name := "n8n Workflow";
       minConfidence := 85 # 100; minScale := 1;
       generator := genWorkflow b |};
    {| type := "api_route"; name := "API Route";
       minConfidence := 87 # 100; minScale := 125 # 100;
       generator := genApiRoute b |};
    {| type := "value_scan"; name := "Value Scan Report";
       minConfidence := 88 # 100; minScale := 1;
       generator := genValueReport b |};
    {| type := "agent_task"; name := "Agent Task Spec";
       minConfidence := 90 # 100; minScale := 15 # 10;
       generator := genAgentTask b |};
    {| type := "typescript_module"; name := "TypeScript Module";
       minConfidence := 92 # 100; minScale := 2 # 1;
       generator := genTsModule b |};
    {| type := "quantum_workflow"; name := "Quantum Workflow";
       minConfidence := 95 # 100; minScale := 4 # 1;
       generator := genQuantumWorkflow b |} ].

(** The loop over the templates: the artifacts pushed and the last type. *)
Definition fire (input : GenerateInput)
  (acc : list string * string) (template : ArtifactTemplate)
  : list string * string :=
  if Qleb (minConfidence template) (confidence input)
     && Qleb (minScale template) (scale input)
  then ((fst acc ++ [generator template input])%list, type template)
  else acc.

Definition generate (b : Bodies) (s : t) (input : GenerateInput)
  : t * GenerationResult :=
  let '(artifacts, highestType) :=
    fold_left (fire input) (templates b) ([], "none") in
  let '(artifacts, highestType) :=
    if ((0 <? iteration input)%Z && (Z.rem (iteration input) 5 =? 0)%Z)%bool
    then ((artifacts ++ [genSovereigntySummary b input])%list,
          "sovereignty_summary")
    else (artifacts, highestType) in
  let result :=
    {| generated := (0 <? List.length artifacts)%nat;
       artifacts := artifacts;
       Types.type := highestType |} in
  let log :=
    if (0 <? List.length artifacts)%nat
    then push_bounded 100 (artifactLog s)
           {| log_iteration := iteration input;
              log_artifacts := artifacts;
              log_type := highestType |}
    else artifactLog s in
  ({| generationCount := S (generationCount s); artifactLog := log |},
   result).

(** A sequence of calls, each with the bodies that it prints; the results
    dropped. *)
Definition generate_all (s : t) (calls : list (Bodies * GenerateInput)) : t :=
  fold_left (fun st call => fst (generate (fst call) st (snd call))) calls s.

End AutoGenerator.

(* ================================================================== *)
(** * LearningCore.ts                                                  *)
(* ================================================================== *)

Module LearningCore.
Import JS.

Inductive OutcomeType := success | failure.

Definition type_name (ty : OutcomeType) : string :=
  match ty with success => "success" | failure => "failure" end.

Record IngestInput := {
  in_type : OutcomeType;
  in_data : list (string * value);
  in_iteration : Z
}.

Record LearnedPattern := {
  id : string;
  type : OutcomeType;
  features : list string;
  weight : Q;
  seenCount : nat;
  lastSeen : Z
}.

Record LearningConfig := {
  memorySize : Q;
  decayRate : Q;
  successBoost : Q;
  failurePenalty : Q;
  versionPrefix : string
}.

(** [Partial<LearningConfig>]. *)
Record PartialConfig := {
  opt_memorySize : option Q;
  opt_decayRate : option Q;
  opt_successBoost : option Q;
  opt_failurePenalty : option Q;
  opt_versionPrefix : option string
}.

Definition noConfig : PartialConfig :=
  {| opt_memorySize := None; opt_decayRate := None; opt_successBoost := None;
     opt_failurePenalty := None; opt_versionPrefix := None |}.

(** [patterns] is the [Map], its entries in insertion order. *)
Record t := {
  config : LearningConfig;
  patterns : list (string * LearnedPattern);
  ingestCount : nat;
  successCount : nat;
  failureCount : nat;
  _modelVersion : string;
  totalImprovementDelta : Q
}.

Definition or_default {A} (o : option A) (d : A) : A :=
  match o with Some x => x | None => d end.

Definition constructor (c : PartialConfig) : t :=
  {| config :=
       {| memorySize := or_default (opt_memorySize c) (500 # 1);
          decayRate := or_default (opt_decayRate c) (99 # 100);
          successBoost := or_default (opt_successBoost c) (1 # 10);
          failurePenalty := or_default (opt_failurePenalty c) (15 # 100);
          versionPrefix := or_default (opt_versionPrefix c) "LC" |};
     patterns := [];
     ingestCount := 0;
     successCount := 0;
     failureCount := 0;
     _modelVersion := "1.0";
     totalImprovementDelta := 0 |}.

(** ** Feature extraction *)

(** [errors.map(e => e.split(':')[0])]; an element without a [split]
    method makes the call throw ([None]). *)
Fixpoint error_types (errs : list value) : option (list string) :=
  match errs with
  | [] => Some []
  | VString e :: rest =>
      match error_types rest with
      | Some ts => Some (before_first ":" e :: ts)
      | None => None
      end
  | _ :: _ => None
  end.

(** The descriptors of the value-based features, each pushed when its
    field is there. *)
Definition score_features (data : list (string * value)) : list string :=
  match get data "score" with
  | VNumber n =>
      let band :=
        if num_leb (Fin (9 # 10)) n then "high"
        else if num_leb (Fin (7 # 10)) n then "mid" else "low" in
      ["score_band:" ++ band]
  | _ => []
  end.

Definition phase_features (data : list (string * value)) : list string :=
  match get data "iteration" with
  | VNumber n =>
      let phase :=
        if num_ltb n (Fin (10 # 1)) then "warmup"
        else if num_ltb n (Fin (50 # 1)) then "ramp" else "cruise" in
      ["phase:" ++ phase]
  | _ => []
  end.

Definition error_features (data : list (string * value))
  : option (list string) :=
  match get data "errors" with
  | VArray errs =>
      let count := "errors:" ++ string_of_nat (List.length errs) in
      if (0 <? List.length errs)%nat
      then match error_types errs with
           | Some ts => Some [count; "error_types:" ++ join "," ts]
           | None => None
           end
      else Some [count]
  | _ => Some []
  end.

Definition scale_features (data : list (string * value)) : list string :=
  match get data "scale" with
  | VNumber n => ["scale_log2:" ++ floor_log2_string (num_add_lit n 1)]
  | _ => []
  end.

(** The features in the order of the pushes; [None] when the map over the
    errors throws. *)
Definition extractFeatures (data : list (string * value))
  : option (list string) :=
  let keys := map fst data in
  let structural :=
    ["keys:" ++ string_of_nat (List.length keys);
     "type_sig:" ++ join "|" (sort_strings keys)] in
  match error_features data with
  | Some errors =>
      Some (structural ++ score_features data ++ phase_features data
            ++ errors ++ scale_features data)%list
  | None => None
  end.

(** One round of the rolling hash: [hash = ((hash << 5) - hash) + code;
    hash |= 0]. *)
Definition hash_step (hash : Z) (c : ascii) : Z :=
  to_int32 (shl32 hash 5 - hash + Z.of_nat (nat_of_ascii c)).

Definition hashFeatures (features : list string) (ty : OutcomeType) : string :=
  let raw := type_name ty ++ ":" ++ join "||" (sort_strings features) in
  let hash := fold_left hash_step (list_ascii_of_string raw) 0 in
  type_name ty ++ "_" ++ to_hex (Z.abs hash).

(** ** The pattern map *)

Fixpoint lookup (key : string) (m : list (string * LearnedPattern))
  : option LearnedPattern :=
  match m with
  | [] => None
  | (k, p) :: rest => if String.eqb k key then Some p else lookup key rest
  end.

(** Writes through the reference that [Map.get] returned. *)
Fixpoint replace (key : string) (p' : LearnedPattern)
  (m : list (string * LearnedPattern)) : list (string * LearnedPattern) :=
  match m with
  | [] => []
  | (k, p) :: rest =>
      if String.eqb k key then (k, p') :: rest
      else (k, p) :: replace key p' rest
  end.

Definition delete (key : string) (m : list (string * LearnedPattern))
  : list (string * LearnedPattern) :=
  filter (fun e => negb (String.eqb (fst e) key)) m.

Definition with_weight (p : LearnedPattern) (w : Q) : LearnedPattern :=
  {| id := id p; type := type p; features := features p; weight := w;
     seenCount := seenCount p; lastSeen := lastSeen p |}.

Definition decayPatterns (cfg : LearningConfig)
  (m : list (string * LearnedPattern)) : list (string * LearnedPattern) :=
  map (fun e =>
         (fst e, with_weight (snd e)
                   (toFixed 6 (weight (snd e) * decayRate cfg))))
      m.

(** [l.slice(0, e)]. *)
Definition slice_to {A} (e : Z) (l : list A) : list A :=
  if (e <? 0)%Z then firstn (Z.to_nat (Z.of_nat (List.length l) + e)) l
  else firstn (Z.to_nat e) l.

Definition pruneWeakPatterns (cfg : LearningConfig)
  (m : list (string * LearnedPattern)) : list (string * LearnedPattern) :=
  let sorted :=
    sort_by (fun a b => Qleb (weight (snd a)) (weight (snd b))) m in
  let toRemove := slice_to (Qfloor (memorySize cfg * (1 # 10))) sorted in
  fold_left (fun acc e => delete (fst e) acc) toRemove m.

Definition modelVersionOf (ingestCount : nat) : string :=
  let major := (ingestCount / 100 + 1)%nat in
  let minor := ((ingestCount mod 100) / 10)%nat in
  string_of_nat major ++ "." ++ string_of_nat minor.

(** ** Ingestion *)

(** [now] is the time printed into [lastSeen].  The result is [None] when
    feature extraction throws; the ingest counter is incremented by then. *)
Definition ingest (s : t) (input : IngestInput) (now : Z)
  : t * option LearningResult :=
  let cfg := config s in
  let count := S (ingestCount s) in
  match extractFeatures (in_data input) with
  | None =>
      ({| config := cfg; patterns := patterns s; ingestCount := count;
          successCount := successCount s; failureCount := failureCount s;
          _modelVersion := _modelVersion s;
          totalImprovementDelta := totalImprovementDelta s |},
       None)
  | Some features =>
      let patternId := hashFeatures features (in_type input) in
      let features := sort_strings features in
      let decayed := decayPatterns cfg (patterns s) in
      let '(stored, improvementDelta) :=
        match lookup patternId decayed with
        | Some p =>
            let boost :=
              match in_type input with
              | success => successBoost cfg
              | failure => failurePenalty cfg
              end in
            let prevWeight := weight p in
            let w := toFixed 6 (Qmin (weight p + boost) 1) in
            (replace patternId
               {| id := id p; type := type p; features := LearningCore.features p;
                  weight := w; seenCount := S (seenCount p); lastSeen := now |}
               decayed,
             (w - prevWeight)%Q)
        | None =>
            let newPattern :=
              {| id := patternId; type := in_type input; features := features;
                 weight := match in_type input with
                           | success => 6 # 10
                           | failure => 4 # 10
                           end;
                 seenCount := 1; lastSeen := now |} in
            let added := (decayed ++ [(patternId, newPattern)])%list in
            (if Qltb (memorySize cfg) (inject_Z (Z.of_nat (List.length added)))
             then pruneWeakPatterns cfg added
             else added,
             weight newPattern)
        end in
      let version := modelVersionOf count in
      ({| config := cfg; patterns := stored; ingestCount := count;
          successCount :=
            match in_type input with
            | success => S (successCount s)
            | failure => successCount s
            end;
          failureCount :=
            match in_type input with
            | success => failureCount s
            | failure => S (failureCount s)
            end;
          _modelVersion := version;
          totalImprovementDelta :=
            (totalImprovementDelta s + improvementDelta)%Q |},
       Some {| learned := true;
               Types.patterns := List.length stored;
               improvementDelta := toFixed 6 improvementDelta;
               modelVersion := version |})
  end.

Definition modelVersion (s : t) : string := _modelVersion s.

(** A sequence of ingests, the results dropped. *)
Definition ingest_all (s : t) (inputs : list (IngestInput * Z)) : t :=
  fold_left (fun st i => fst (ingest st (fst i) (snd i))) inputs s.

(** ** Prediction *)

(** [p.features.filter(f => featureSet.has(f)).length]. *)
Definition overlap (query : list string) (p : LearnedPattern) : nat :=
  List.length
    (filter (fun f => existsb (String.eqb f) query) (features p)).

(** [overlap / Math.max(p.features.length, features.length)]; when both
    lists are empty this is 0 / 0. *)
Definition similarity (query : list string) (p : LearnedPattern) : number :=
  match Nat.max (List.length (features p)) (List.length query) with
  | O => NaN
  | longest =>
      Fin (inject_Z (Z.of_nat (overlap query p))
           / inject_Z (Z.of_nat longest))
  end.

(** One round of the loop over the patterns: [totalWeight] and
    [matchWeight]. *)
Definition weigh (query : list string) (acc : Q * number)
  (p : LearnedPattern) : Q * number :=
  let '(totalWeight, matchWeight) := acc in
  let matchWeight :=
    match matchWeight, similarity query p with
    | Fin m, Fin sim =>
        match type p with
        | success => Fin (m + weight p * sim)
        | failure => Fin (m - weight p * sim * (1 # 2))
        end
    | _, _ => NaN
    end in
  ((totalWeight + weight p)%Q, matchWeight).

(** [Math.max(0, Math.min(1, x))]. *)
Definition clamp (x : number) : number :=
  match x with
  | NaN => NaN
  | NegInf => Fin 0
  | PosInf => Fin 1
  | Fin q => Fin (Qmax 0 (Qmin 1 q))
  end.

Definition predict (s : t) (query : list string) : number :=
  match patterns s with
  | [] => Fin (1 # 2)
  | _ =>
      let '(totalWeight, matchWeight) :=
        fold_left (weigh query) (map snd (patterns s)) (0%Q, Fin 0) in
      let base :=
        if Qltb 0 totalWeight then num_div matchWeight totalWeight
        else Fin (1 # 2) in
      match clamp (num_add_lit base (1 # 2)) with
      | Fin x => Fin (toFixed 4 x)
      | other => other
      end
  end.


End LearningCore.

(* ================================================================== *)
(** * SLVSSRunner.ts                                                   *)
(* ================================================================== *)

Module SLVSSRunner.
Import JS.

(** [maxIterations] is any number: the guard of [tick] compares it as it
    is. *)
Record LoopConfig := {
  maxIterations : number;
  intervalMs : Z;
  confidenceThreshold : Q;
  autoScale : bool;
  autoGenerate : bool;
  learnFromFailures : bool;
  debugMode : bool;
  veri3fyStages : Z
}.

(** [Partial<LoopConfig>]. *)
Record PartialLoopConfig := {
  opt_maxIterations : option number;
  opt_intervalMs : option Z;
  opt_confidenceThreshold : option Q;
  opt_autoScale : option bool;
  opt_autoGenerate : option bool;
  opt_learnFromFailures : option bool;
  opt_debugMode : option bool;
  opt_veri3fyStages : option Z
}.

Definition noConfig : PartialLoopConfig :=
  {| opt_maxIterations := None; opt_intervalMs := None;
     opt_confidenceThreshold := None; opt_autoScale := None;
     opt_autoGenerate := None; opt_learnFromFailures := None;
     opt_debugMode := None; opt_veri3fyStages := None |}.

(** [loopTimer] tells whether a timer set by [tick] is pending. *)
Record t := {
  config : LoopConfig;
  veri3fy : VERI3FY.t;
  scaling : ScalingEngine.t;
  generator : AutoGenerator.t;
  learner : LearningCore.t;
  iteration : Z;
  totalPassed : Z;
  totalFailed : Z;
  totalGenerated : Z;
  confidenceSum : Q;
  roiSum : Q;
  history : list LoopIteration;
  running : bool;
  startTime : Z;
  loopTimer : bool
}.

Definition or_default {A} (o : option A) (d : A) : A :=
  match o with Some x => x | None => d end.

(** [now] is the reading of the clock that initialises [startTime]. *)
Definition constructor (c : PartialLoopConfig) (now : Z) : t :=
  let cfg :=
    {| maxIterations := or_default (opt_maxIterations c) (Fin 0);
       intervalMs := or_default (opt_intervalMs c) 5000;
       confidenceThreshold := or_default (opt_confidenceThreshold c) (85 # 100);
       autoScale := or_default (opt_autoScale c) true;
       autoGenerate := or_default (opt_autoGenerate c) true;
       learnFromFailures := or_default (opt_learnFromFailures c) true;
       debugMode := or_default (opt_debugMode c) false;
       veri3fyStages := or_default (opt_veri3fyStages c) 3 |} in
  {| config := cfg;
     veri3fy :=
       VERI3FY.constructor
         {| VERI3FY.opt_stages := Some (veri3fyStages cfg);
            VERI3FY.opt_threshold := Some (confidenceThreshold cfg);
            VERI3FY.opt_strictMode := None |};
     scaling := ScalingEngine.constructor ScalingEngine.noPolicy;
     generator := AutoGenerator.constructor;
     learner := LearningCore.constructor LearningCore.noConfig;
     iteration := 0; totalPassed := 0; totalFailed := 0; totalGenerated := 0;
     confidenceSum := 0; roiSum := 0; history := [];
     running := false; startTime := now; loopTimer := false |}.

(** ** Field updates *)

Definition set_veri3fy (v : VERI3FY.t) (s : t) : t :=
  {| config := config s; veri3fy := v; scaling := scaling s;
     generator := generator s; learner := learner s;
     iteration := iteration s; totalPassed := totalPassed s;
     totalFailed := totalFailed s; totalGenerated := totalGenerated s;
     confidenceSum := confidenceSum s; roiSum := roiSum s;
     history := history s; running := running s; startTime := startTime s;
     loopTimer := loopTimer s |}.

Definition set_scaling (v : ScalingEngine.t) (s : t) : t :=
  {| config := config s; veri3fy := veri3fy s; scaling := v;
     generator := generator s; learner := learner s;
     iteration := iteration s; totalPassed := totalPassed s;
     totalFailed := totalFailed s; totalGenerated := totalGenerated s;
     confidenceSum := confidenceSum s; roiSum := roiSum s;
     history := history s; running := running s; startTime := startTime s;
     loopTimer := loopTimer s |}.

Definition set_generator (v : AutoGenerator.t) (s : t) : t :=
  {| config := config s; veri3fy := veri3fy s; scaling := scaling s;
     generator := v; learner := learner s;
     iteration := iteration s; totalPassed := totalPassed s;
     totalFailed := totalFailed s; totalGenerated := totalGenerated s;
     confidenceSum := confidenceSum s; roiSum := roiSum s;
     history := history s; running := running s; startTime := startTime s;
     loopTimer := loopTimer s |}.

Definition set_learner (v : LearningCore.t) (s : t) : t :=
  {| config := config s; veri3fy := veri3fy s; scaling := scaling s;
     generator := generator s; learner := v;
     iteration := iteration s; totalPassed := totalPassed s;
     totalFailed := totalFailed s; totalGenerated := totalGenerated s;
     confidenceSum := confidenceSum s; roiSum := roiSum s;
     history := history s; running := running s; startTime := startTime s;
     loopTimer := loopTimer s |}.

(** The counters: [iteration], [totalPassed], [totalFailed],
    [totalGenerated], [confidenceSum], [roiSum]. *)
Definition set_counters (i p f g : Z) (c r : Q) (s : t) : t :=
  {| config := config s; veri3fy := veri3fy s; scaling := scaling s;
     generator := generator s; learner := learner s;
     iteration := i; totalPassed := p; totalFailed := f; totalGenerated := g;
     confidenceSum := c; roiSum := r;
     history := history s; running := running s; startTime := startTime s;
     loopTimer := loopTimer s |}.

(** The loop itself: [history], [running], [startTime], [loopTimer]. *)
Definition set_loop (h : list LoopIteration) (r : bool) (st : Z) (timer : bool)
  (s : t) : t :=
  {| config := config s; veri3fy := veri3fy s; scaling := scaling s;
     generator := generator s; learner := learner s;
     iteration := iteration s; totalPassed := totalPassed s;
     totalFailed := totalFailed s; totalGenerated := totalGenerated s;
     confidenceSum := confidenceSum s; roiSum := roiSum s;
     history := h; running := r; startTime := st; loopTimer := timer |}.

Definition add_failed (s : t) : t :=
  set_counters (iteration s) (totalPassed s) (totalFailed s + 1)
    (totalGenerated s) (confidenceSum s) (roiSum s) s.

Definition add_passed (s : t) : t :=
  set_counters (iteration s) (totalPassed s + 1) (totalFailed s)
    (totalGenerated s) (confidenceSum s) (roiSum s) s.

Definition add_confidence (c : Q) (s : t) : t :=
  set_counters (iteration s) (totalPassed s) (totalFailed s)
    (totalGenerated s) (confidenceSum s + c) (roiSum s) s.

Definition add_generated (n : Z) (r : Q) (s : t) : t :=
  set_counters (iteration s) (totalPassed s) (totalFailed s)
    (totalGenerated s + n) (confidenceSum s) (roiSum s + r) s.

(** Updates of the record of the iteration. *)
Definition with_verification (v : VERI3FYResult) (i : LoopIteration)
  : LoopIteration :=
  {| Types.id := Types.id i; startedAt := startedAt i;
     completedAt := completedAt i; durationMs := durationMs i;
     veri3fyResult := v; scalingResult := scalingResult i;
     generationResult := generationResult i;
     learningResult := learningResult i; status := status i;
     confidence := score v; roi := roi i |}.

Definition with_scaling (r : ScalingResult) (i : LoopIteration)
  : LoopIteration :=
  {| Types.id := Types.id i; startedAt := startedAt i;
     completedAt := completedAt i; durationMs := durationMs i;
     veri3fyResult := veri3fyResult i; scalingResult := r;
     generationResult := generationResult i;
     learningResult := learningResult i; status := status i;
     confidence := confidence i; roi := roi i |}.

Definition with_generation (g : GenerationResult) (r : Q) (i : LoopIteration)
  : LoopIteration :=
  {| Types.id := Types.id i; startedAt := startedAt i;
     completedAt := completedAt i; durationMs := durationMs i;
     veri3fyResult := veri3fyResult i; scalingResult := scalingResult i;
     generationResult := g;
     learningResult := learningResult i; status := status i;
     confidence := confidence i; roi := r |}.

Definition with_learning (l : LearningResult) (i : LoopIteration)
  : LoopIteration :=
  {| Types.id := Types.id i; startedAt := startedAt i;
     completedAt := completedAt i; durationMs := durationMs i;
     veri3fyResult := veri3fyResult i; scalingResult := scalingResult i;
     generationResult := generationResult i;
     learningResult := l; status := status i;
     confidence := confidence i; roi := roi i |}.

Definition with_status (st : Status) (i : LoopIteration) : LoopIteration :=
  {| Types.id := Types.id i; startedAt := startedAt i;
     completedAt := completedAt i; durationMs := durationMs i;
     veri3fyResult := veri3fyResult i; scalingResult := scalingResult i;
     generationResult := generationResult i;
     learningResult := learningResult i; status := st;
     confidence := confidence i; roi := roi i |}.

Definition completed (finish : Z) (duration : Z) (i : LoopIteration)
  : LoopIteration :=
  {| Types.id := Types.id i; startedAt := startedAt i;
     completedAt := Some finish; durationMs := duration;
     veri3fyResult := veri3fyResult i; scalingResult := scalingResult i;
     generationResult := generationResult i;
     learningResult := learningResult i; status := status i;
     confidence := confidence i; roi := roi i |}.

(** ** The environment of one tick *)

(** The calls inside the [try] block that run listeners ([log] emits
    [slvss:log], [emit] the lifecycle events), in program order. *)
Inductive Listener :=
| LogVerify | LogFailed | LogLearnedFailure | EmitFailed
| LogPassed | LogScaling | LogScaled | LogGenerate | LogGenerated
| LogLearned | EmitPassed.

Definition Listener_eqb (a b : Listener) : bool :=
  match a, b with
  | LogVerify, LogVerify | LogFailed, LogFailed
  | LogLearnedFailure, LogLearnedFailure | EmitFailed, EmitFailed
  | LogPassed, LogPassed | LogScaling, LogScaling | LogScaled, LogScaled
  | LogGenerate, LogGenerate | LogGenerated, LogGenerated
  | LogLearned, LogLearned | EmitPassed, EmitPassed => true
  | _, _ => false
  end.

(** The readings of [Date.now()] during the tick, the bodies of the
    artifacts, the listener call that throws, if one does, and whether
    reading the [message] of the value that the [catch] clause receives
    throws, as it does on [null] and [undefined]. *)
Record TickEnv := {
  now_start : Z;
  now_payload : Z;
  now_verify : Z;
  now_learn : Z;
  now_end : Z;
  bodies : AutoGenerator.Bodies;
  fault : option Listener;
  unreadable : bool
}.

(** ** The [try] block as a computation that may throw *)

Record Frame := {
  self : t;
  iterObj : LoopIteration
}.

(** [None] stands for a thrown exception; the frame is the state reached
    when it was thrown. *)
Definition Try (A : Type) : Type := Frame -> Frame * option A.

Definition ret {A} (x : A) : Try A := fun f => (f, Some x).

Definition bind {A B} (c : Try A) (k : A -> Try B) : Try B :=
  fun f =>
    match c f with
    | (f', Some x) => k x f'
    | (f', None) => (f', None)
    end.

Notation "x <- c ;; k" := (bind c (fun x => k))
  (at level 61, c at next level, right associativity).
Notation "c ;; k" := (bind c (fun _ => k))
  (at level 61, right associativity).

Definition throw {A} : Try A := fun f => (f, None).

Definition this : Try t := fun f => (f, Some (self f)).

Definition record : Try LoopIteration := fun f => (f, Some (iterObj f)).

Definition update (g : t -> t) : Try unit :=
  fun f => ({| self := g (self f); iterObj := iterObj f |}, Some tt).

Definition update_record (g : LoopIteration -> LoopIteration) : Try unit :=
  fun f => ({| self := self f; iterObj := g (iterObj f) |}, Some tt).

Definition listeners (env : TickEnv) (l : Listener) : Try unit :=
  match fault env with
  | Some l' => if Listener_eqb l l' then throw else ret tt
  | None => ret tt
  end.

Definition when (b : bool) (c : Try unit) : Try unit :=
  if b then c else ret tt.

(** ** Payload, ROI *)

Definition ratio (n : Q) (iteration : Z) : Q :=
  if (0 <? iteration)%Z then (n / inject_Z iteration)%Q else 0%Q.

Definition buildPayload (s : t) (now : Z) : VERI3FY.Payload :=
  [ ("iteration", VNumber (Fin (inject_Z (iteration s))));
    ("scale", VNumber (Fin (ScalingEngine.currentScale (scaling s))));
    ("learnerVersion", VString (LearningCore.modelVersion (learner s)));
    ("successRate",
     VNumber (Fin (ratio (inject_Z (totalPassed s)) (iteration s))));
    ("avgConfidence", VNumber (Fin (ratio (confidenceSum s) (iteration s))));
    ("avgROI", VNumber (Fin (ratio (roiSum s) (iteration s))));
    ("timestamp", VNumber (Fin (inject_Z now)));
    ("ark95xNode", VString "SLVSS-ARK95X-v2") ].

(** The verification result as the object handed to the learner. *)
Definition result_object (r : VERI3FYResult) : list (string * value) :=
  [ ("stage1_syntax", VBool (stage1_syntax r));
    ("stage2_logic", VBool (stage2_logic r));
    ("stage3_sovereignty", VBool (stage3_sovereignty r));
    ("passed", VBool (passed r));
    ("score", VNumber (Fin (score r)));
    ("errors", VArray (map VString (errors r))) ].

Section WithMath.

(** [Math.log2], taken as given. *)
Variable log2 : Q -> Q.

Definition computeROI (confidence scale : Q) : Q :=
  let base := (confidence * (100 # 1))%Q in
  let multiplier := (log2 (scale + 1) + 1)%Q in
  toFixed 2 (base * multiplier).

(** ** The tick *)

Definition learn (env : TickEnv) (ty : LearningCore.OutcomeType)
  (data : list (string * value)) : Try LearningResult :=
  s <- this ;;
  let '(l, r) :=
    LearningCore.ingest (learner s)
      {| LearningCore.in_type := ty; LearningCore.in_data := data;
         LearningCore.in_iteration := iteration s |}
      (now_learn env) in
  update (set_learner l) ;;
  match r with
  | Some lResult => ret lResult
  | None => throw
  end.

Definition on_failure (env : TickEnv) (vResult : VERI3FYResult) : Try unit :=
  update_record (with_status Failed) ;;
  update add_failed ;;
  listeners env LogFailed ;;
  s <- this ;;
  when (learnFromFailures (config s))
    (lResult <- learn env LearningCore.failure (result_object vResult) ;;
     update_record (with_learning lResult) ;;
     listeners env LogLearnedFailure) ;;
  listeners env EmitFailed.

Definition on_pass (env : TickEnv) (vResult : VERI3FYResult) : Try unit :=
  update add_passed ;;
  listeners env LogPassed ;;
  s <- this ;;
  when (autoScale (config s))
    (listeners env LogScaling ;;
     s <- this ;;
     let '(e, sResult) :=
       ScalingEngine.scale (scaling s)
         {| ScalingEngine.in_score := score vResult;
            ScalingEngine.in_iteration := iteration s;
            ScalingEngine.in_history := history s |} in
     update (set_scaling e) ;;
     update_record (with_scaling sResult) ;;
     when (scaled sResult)
       (update_record (with_status Scaled) ;;
        listeners env LogScaled)) ;;
  when (autoGenerate (config s))
    (listeners env LogGenerate ;;
     s <- this ;;
     let '(g, gResult) :=
       AutoGenerator.generate (bodies env) (generator s)
         {| AutoGenerator.iteration := iteration s;
            AutoGenerator.scale := ScalingEngine.currentScale (scaling s);
            AutoGenerator.confidence := score vResult;
            AutoGenerator.history := history s |} in
     update (set_generator g) ;;
     let roi :=
       computeROI (score vResult) (ScalingEngine.currentScale (scaling s)) in
     update_record (with_generation gResult roi) ;;
     update (add_generated (Z.of_nat (List.length (artifacts gResult))) roi) ;;
     listeners env LogGenerated) ;;
  s <- this ;;
  lResult <-
    learn env LearningCore.success
      [ ("vResult", VObject (result_object vResult));
        ("scale", VNumber (Fin (ScalingEngine.currentScale (scaling s)))) ] ;;
  update_record (with_learning lResult) ;;
  listeners env LogLearned ;;
  i <- record ;;
  when (match status i with Running => true | _ => false end)
    (update_record (with_status Passed)) ;;
  listeners env EmitPassed.

Definition try_block (env : TickEnv) : Try unit :=
  listeners env LogVerify ;;
  s <- this ;;
  let payload := buildPayload s (now_payload env) in
  let '(v, vResult) := VERI3FY.verify (veri3fy s) payload (now_verify env) in
  update (set_veri3fy v) ;;
  update_record (with_verification vResult) ;;
  update (add_confidence (score vResult)) ;;
  if negb (passed vResult)
  then on_failure env vResult
  else on_pass env vResult.

Definition stop (s : t) : t :=
  set_loop (history s) false (startTime s) false s.

Definition fresh_record (s : t) (now : Z) : LoopIteration :=
  {| Types.id := iteration s;
     startedAt := now;
     completedAt := None;
     durationMs := 0;
     veri3fyResult :=
       {| stage1_syntax := false; stage2_logic := false;
          stage3_sovereignty := false; passed := false; score := 0;
          errors := [] |};
     scalingResult :=
       {| scaled := false;
          previousScale := ScalingEngine.currentScale (scaling s);
          newScale := ScalingEngine.currentScale (scaling s);
          reason := EmptyString |};
     generationResult :=
       {| generated := false; artifacts := []; type := EmptyString |};
     learningResult :=
       {| learned := false; patterns := 0; improvementDelta := 0;
          modelVersion := EmptyString |};
     status := Running;
     confidence := 0;
     roi := 0 |}.

(** [this.iteration++]. *)
Definition begun (s : t) : t :=
  set_counters (iteration s + 1) (totalPassed s) (totalFailed s)
    (totalGenerated s) (confidenceSum s) (roiSum s) s.

(** The guard of [tick] on the number of iterations. *)
Definition exhausted (s : t) : bool :=
  num_ltb (Fin 0) (maxIterations (config s))
  && num_leb (maxIterations (config s)) (Fin (inject_Z (iteration s))).

(** The end of [tick]: the record is finished and pushed on the history,
    and the next tick is scheduled if the loop is running. *)
Definition finalize (env : TickEnv) (f : Frame) : t * option LoopIteration :=
  let done :=
    completed (now_end env) (now_end env - now_start env) (iterObj f) in
  let s := self f in
  (set_loop (push_bounded 100 (history s) done) (running s) (startTime s)
     (running s) s,
   Some done).

(** One call of [tick]: the new state, and the record pushed on the
    history when the tick ran to its end.  The [catch] clause turns an
    exception of the [try] block into a failed iteration; it sets the status
    and counts the failure, then reads the [message] of what was thrown.
    On [null] and [undefined] that reading throws in its turn: the call
    ends there, the failure counted, no record pushed and no timer set
    (the events [slvss:error] and [slvss:iteration:complete] are not
    emitted).
    (A listener that throws outside the [try] block makes the call fail
    likewise before the record is pushed; such a call is no tick of the
    model.) *)
Definition tick (s : t) (env : TickEnv) : t * option LoopIteration :=
  if negb (running s) then (s, None)
  else if exhausted s then (stop s, None)
  else
    let s := begun s in
    let start := {| self := s; iterObj := fresh_record s (now_start env) |} in
    match try_block env start with
    | (f, Some _) => finalize env f
    | (f, None) =>
        let f :=
          {| self := add_failed (self f);
             iterObj := with_status Failed (iterObj f) |} in
        if unreadable env then (self f, None) else finalize env f
    end.

Definition start (s : t) (now : Z) (env : TickEnv) : t :=
  if running s then s
  else fst (tick (set_loop (history s) true now (loopTimer s) s) env).

(** What happens to a runner: a call of [start] or [stop], or the pending
    timer firing. *)
Inductive Event :=
| Start (now : Z) (env : TickEnv)
| Stop
| Timer (env : TickEnv).

Definition step (s : t) (e : Event) : t :=
  match e with
  | Start now env => start s now env
  | Stop => stop s
  | Timer env =>
      if loopTimer s
      then fst (tick (set_loop (history s) (running s) (startTime s) false s)
                     env)
      else s
  end.

Definition run (s : t) (events : list Event) : t := fold_left step events s.

End WithMath.

(** ** The state as [getState()] reports it *)

Record SLVSSState := {
  st_running : bool;
  st_iteration : Z;
  st_totalPassed : Z;
  st_totalFailed : Z;
  st_totalGenerated : Z;
  st_successRate : Q;
  st_avgConfidence : Q;
  st_avgROI : Q;
  st_currentScale : Q;
  st_learningVersion : string;
  st_uptime : Z;
  st_history : list LoopIteration
}.

(** [now] is the reading of the clock for the uptime. *)
Definition getState (s : t) (now : Z) : SLVSSState :=
  {| st_running := running s;
     st_iteration := iteration s;
     st_totalPassed := totalPassed s;
     st_totalFailed := totalFailed s;
     st_totalGenerated := totalGenerated s;
     st_successRate :=
       if (0 <? iteration s)%Z
       then toFixed 4 (inject_Z (totalPassed s) / inject_Z (iteration s))
       else 0%Q;
     st_avgConfidence :=
       if (0 <? iteration s)%Z
       then toFixed 4 (confidenceSum s / inject_Z (iteration s))
       else 0%Q;
     st_avgROI :=
       if (0 <? iteration s)%Z
       then toFixed 2 (roiSum s / inject_Z (iteration s))
       else 0%Q;
     st_currentScale := ScalingEngine.currentScale (scaling s);
     st_learningVersion := LearningCore.modelVersion (learner s);
     st_uptime := (now - startTime s) / 1000;
     st_history := slice_last 10 (history s) |}.

End SLVSSRunner.

(** ** Vocabulary for the properties of the scaling engine *)

Module ScalingSpec.
Import JS ScalingEngine.
Local Open Scope Q_scope.

(** The three guards of [scale], read on the state whose streaks have been
    recomputed. *)
Definition up_guard (s : t) (input : ScaleInput) : bool :=
  Qleb (minPassStreak (policy s)) (count (passStreak s))
  && Qleb (17 # 20) (in_score input)
  && Qltb (_currentScale s) (maxScale (policy s)).

Definition decay_guard (s : t) : bool :=
  decayOnFailure (policy s)
  && Qleb 3 (count (failStreak s))
  && Qltb 1 (_currentScale s).

Definition boost_guard (input : ScaleInput) : bool :=
  (0 <? in_iteration input)%Z
  && (Z.rem (in_iteration input) 10 =? 0)%Z
  && Qleb (19 # 20) (in_score input).

Definition with_scale (s : t) (next : Q) (pass fail : nat) (r : string)
  (input : ScaleInput) : t :=
  {| policy := policy s; _currentScale := next;
     passStreak := pass; failStreak := fail;
     scaleHistory :=
       push_bounded 50 (scaleHistory s)
         {| ev_iteration := in_iteration input; ev_scale := next;
            ev_reason := r |} |}.

Definition up_reason (s : t) (input : ScaleInput) : string :=
  "Pass streak " ++ string_of_nat (passStreak s) ++ " + score " ++
  toFixed_string 3 (in_score input) ++ " → scale up".

Definition decay_reason (s : t) : string :=
  "Fail streak " ++ string_of_nat (failStreak s) ++ " → scale decay".

Definition boost_reason (input : ScaleInput) : string :=
  "Quantum boost at iteration " ++ string_of_Z (in_iteration input) ++
  " (score=" ++ toFixed_string 3 (in_score input) ++ ")".

(** Policies under which the scale stays in its range. *)
Definition well_formed (pol : ScalePolicy) : Prop :=
  1 <= maxScale pol /\
  toFixed 4 (maxScale pol) <= maxScale pol /\
  1 <= growthFactor pol /\
  decayFactor pol <= 1.

Definition within_bounds (s : t) : Prop :=
  1 <= _currentScale s /\ _currentScale s <= maxScale (policy s).

(** The scale is a value as [toFixed(4)] prints it. *)
Definition printed (s : t) : Prop :=
  toFixed 4 (_currentScale s) == _currentScale s.

(** A finished iteration of which only the status matters. *)
Definition iteration_with (st : Status) : LoopIteration :=
  {| id := 0; startedAt := 0; completedAt := Some 0%Z; durationMs := 0;
     veri3fyResult :=
       {| stage1_syntax := false; stage2_logic := false;
          stage3_sovereignty := false; passed := false; score := 0;
          errors := [] |};
     scalingResult :=
       {| scaled := false; previousScale := 1; newScale := 1;
          reason := EmptyString |};
     generationResult :=
       {| generated := false; artifacts := []; type := EmptyString |};
     learningResult :=
       {| learned := false; patterns := 0; improvementDelta := 0;
          modelVersion := EmptyString |};
     status := st; confidence := 0; roi := 0 |}.

Definition three_passes : list LoopIteration :=
  [iteration_with Passed; iteration_with Passed; iteration_with Passed].

(** A call after three passes with score 0.9, at an iteration that is not a
    multiple of ten. *)
Definition streak_call : ScaleInput :=
  {| in_score := 9 # 10; in_iteration := 4; in_history := three_passes |}.

(** A call with a perfect score at iteration [n], before any history. *)
Definition perfect_call (n : Z) : ScaleInput :=
  {| in_score := 1; in_iteration := n; in_history := [] |}.

Definition policy_max (m : Q) : PartialScalePolicy :=
  {| opt_growthFactor := None; opt_maxScale := Some m;
     opt_minPassStreak := None; opt_decayOnFailure := None;
     opt_decayFactor := None |}.

End ScalingSpec.

(** ** Vocabulary for the properties of the loop *)

Module RunnerSpec.
Import JS SLVSSRunner.

(** [sat c f Q]: run from the frame [f], the computation [c] ends in a
    frame and an outcome (a value, or [None] for an exception) that
    satisfy [Q]. *)
Definition sat {A} (c : Try A) (f : Frame) (Q : Frame -> option A -> Prop)
  : Prop :=
  Q (fst (c f)) (snd (c f)).

(** The status of a finished record is terminal, and [Scaled] only after a
    verification that passed. *)
Definition terminal (v : VERI3FYResult) (i : LoopIteration) : Prop :=
  match status i with
  | Running => False
  | Scaled => veri3fyResult i = v /\ passed v = true
  | Passed | Failed => True
  end.

(** What the verification gate returns on the tick that [s] and [env]
    determine. *)
Definition gate (s : t) (env : TickEnv) : VERI3FYResult :=
  snd (VERI3FY.verify (veri3fy (begun s))
         (buildPayload (begun s) (now_payload env)) (now_verify env)).

(** The fields of the runner that the [try] block leaves alone. *)
Definition same_loop (s s' : t) : Prop :=
  history s' = history s /\ running s' = running s /\
  startTime s' = startTime s /\ config s' = config s /\
  iteration s' = iteration s.

(** The most recent [n] entries. *)
Definition most_recent {A} (n : nat) (l : list A) : list A :=
  skipn (List.length l - n) l.

(** Artifact bodies that print their name only. *)
Definition plain_bodies : AutoGenerator.Bodies :=
  {| AutoGenerator.genWorkflow := fun _ => "workflow";
     AutoGenerator.genApiRoute := fun _ => "api_route";
     AutoGenerator.genValueReport := fun _ => "value_scan";
     AutoGenerator.genAgentTask := fun _ => "agent_task";
     AutoGenerator.genTsModule := fun _ => "typescript_module";
     AutoGenerator.genQuantumWorkflow := fun _ => "quantum_workflow";
     AutoGenerator.genSovereigntySummary := fun _ => "sovereignty_summary" |}.

(** A tick whose clock readings are all [now] and in which no listener
    throws. *)
Definition quiet_tick (now : Z) : TickEnv :=
  {| now_start := now; now_payload := now; now_verify := now;
     now_learn := now; now_end := now; bodies := plain_bodies;
     fault := None; unreadable := false |}.

(** A tick in which the listener call [l] throws. *)
Definition faulty_tick (now : Z) (l : Listener) : TickEnv :=
  {| now_start := now; now_payload := now; now_verify := now;
     now_learn := now; now_end := now; bodies := plain_bodies;
     fault := Some l; unreadable := false |}.

(** A tick in which the listener call [l] throws [null]. *)
Definition null_tick (now : Z) (l : Listener) : TickEnv :=
  {| now_start := now; now_payload := now; now_verify := now;
     now_learn := now; now_end := now; bodies := plain_bodies;
     fault := Some l; unreadable := true |}.

(** A tick whose verification runs [delay] ms after the payload was
    built. *)
Definition slow_tick (now delay : Z) : TickEnv :=
  {| now_start := now; now_payload := now; now_verify := now + delay;
     now_learn := now + delay; now_end := now + delay;
     bodies := plain_bodies; fault := None; unreadable := false |}.

(** A start followed by [n] firings of the timer, 5 s apart. *)
Definition ticks (n : nat) : list Event :=
  Start 0 (quiet_tick 1000)
  :: map (fun k => Timer (quiet_tick (1000 + 5000 * Z.of_nat k))) (seq 1 n).

(** A stand-in for [Math.log2] in examples: the integer part. *)
Definition whole_log2 (q : Q) : Q :=
  if Qltb 0 q then inject_Z (floor_log2 q) else 0%Q.

End RunnerSpec.

(** ** Vocabulary for the properties of the generator *)

Module GeneratorSpec.
Import JS AutoGenerator.

(** The generator's test for the periodic summary. *)
Definition summary_due (iteration : Z) : bool :=
  ((0 <? iteration) && (Z.rem iteration 5 =? 0))%Z.

(** The artifacts that the templates contribute to a call. *)
Definition gated (b : Bodies) (input : GenerateInput) : list string :=
  fst (fold_left (fire input) (templates b) ([], "none")).

(** A call with confidence 0.80 at scale 1. *)
Definition low_confidence (iteration : Z) (history : list LoopIteration)
  : GenerateInput :=
  {| iteration := iteration; scale := 1; confidence := 80 # 100;
     history := history |}.

End GeneratorSpec.

(** ** Vocabulary for the properties of the gate *)

Module GateSpec.
Import JS VERI3FY.

(** A node identifier that passes the marker check of stage 1 and the
    allow-list of stage 3. *)
Definition valid_node (node : string) : bool :=
  includes "ARK95X" node
  && existsb (fun n => includes (before_first "-" n) node) validNodes.

(** The gate of the scenarios: threshold 0.85, three stages, strict. *)
Definition strict_gate : t :=
  constructor {| opt_stages := Some 3; opt_threshold := Some (85 # 100);
                 opt_strictMode := Some true |}.

(** The snapshot of the end-to-end scenario with the fields it lists ... *)
Definition listed_snapshot (now : Z) : Payload :=
  [ ("iteration", VNumber (Fin 1));
    ("scale", VNumber (Fin 1));
    ("ark95xNode", VString "SLVSS-ARK95X-v2");
    ("avgConfidence", VNumber (Fin (9 # 10)));
    ("successRate", VNumber (Fin 1));
    ("avgROI", VNumber (Fin (10 # 1)));
    ("timestamp", VNumber (Fin (inject_Z now))) ].

(** ... and with the learner version that the runner adds. *)
Definition full_snapshot (now : Z) : Payload :=
  ("learnerVersion", VString "1.0") :: listed_snapshot now.

(** A time of evaluation, in ms since the epoch. *)
Definition some_time : Z := 1700000000000.

End GateSpec.

(** ** Vocabulary for the properties of the learning core *)

Module LearningSpec.
Import JS LearningCore.

(** The number of stored patterns, [patterns.size]. *)
Definition size (s : t) : nat := List.length (patterns s).

(** A configuration that sets the capacity only. *)
Definition capacity (m : Q) : PartialConfig :=
  {| opt_memorySize := Some m; opt_decayRate := None;
     opt_successBoost := None; opt_failurePenalty := None;
     opt_versionPrefix := None |}.

(** A success observed at time 0 on an object with the single key [key]. *)
Definition observation (key : string) : IngestInput * Z :=
  ({| in_type := success; in_data := [(key, VBool true)];
      in_iteration := 1 |}, 0%Z).

Definition six_observations : list (IngestInput * Z) :=
  map observation ["a"; "b"; "c"; "d"; "e"; "f"].

(** The identifiers of the stored patterns are distinct. *)
Definition keys_distinct (s : t) : Prop := NoDup (map fst (patterns s)).

(** The capacity is respected. *)
Definition within_capacity (s : t) : Prop :=
  (inject_Z (Z.of_nat (size s)) <= memorySize (config s))%Q.

End LearningSpec.

(** ** Vocabulary for the stages of the gate *)

Module StageSpec.
Import JS VERI3FY.

(** The error of stage 1 for a required field that is missing. *)
Definition missing (field : string) : string :=
  "STAGE1: Missing required field: " ++ field.

(** A stage has failed and has left [msg] among the errors. *)
Definition rejected (msg : string) (st : bool * list string) : Prop :=
  fst st = false /\ In msg (snd st).



(** The weights of the stages. *)
Definition weight (s1 s2 s3 : bool) : Q :=
  ((if s1 then 35 # 100 else 0) + (if s2 then 30 # 100 else 0)
   + (if s3 then 35 # 100 else 0))%Q.

(** The weight that a verification of the given depth can reach. *)
Definition available (depth : Z) : Q :=
  if (depth <? 2)%Z then 35 # 100
  else if (depth <? 3)%Z then 65 # 100
  else 1%Q.

(** What stage 1 asks of a payload. *)
Definition well_typed (payload : Payload) : Prop :=
  exists iteration scale timestamp node,
    get payload "iteration" = VNumber iteration /\
    num_ltb iteration (Fin 0) = false /\
    get payload "scale" = VNumber scale /\
    num_ltb scale (Fin 1) = false /\
    get payload "ark95xNode" = VString node /\
    includes "ARK95X" node = true /\
    get payload "timestamp" = VNumber timestamp /\
    num_leb timestamp (Fin 0) = false /\
    is_nullish (get payload "learnerVersion") = false.

(** A payload whose iteration and timestamp are [NaN]. *)
Definition nan_snapshot : Payload :=
  [ ("iteration", VNumber NaN);
    ("scale", VNumber (Fin 1));
    ("learnerVersion", VString "1.0");
    ("timestamp", VNumber NaN);
    ("ark95xNode", VString "SLVSS-ARK95X-v2") ].

End StageSpec.

(** ** Vocabulary for the streaks and the events of the scaling engine *)

Module StreakSpec.
Import JS ScalingEngine ScalingSpec.
Local Open Scope Q_scope.

(** The statuses that the pass streak and the fail streak count. *)
Definition is_pass (iter : LoopIteration) : bool :=
  match status iter with Passed | Scaled => true | _ => false end.

Definition is_fail (iter : LoopIteration) : bool :=
  match status iter with Failed => true | _ => false end.

(** The number of entries at the front of a list that satisfy [p]. *)
Fixpoint run_length {A} (p : A -> bool) (l : list A) : nat :=
  match l with
  | x :: rest => if p x then S (run_length p rest) else 0
  | [] => 0
  end.

(** The number of entries at the end of a history that satisfy [p]. *)
Definition trailing (p : LoopIteration -> bool) (history : list LoopIteration)
  : nat :=
  run_length p (rev history).

(** The decay rule is the one that fires. *)
Definition decay_fires (s : t) (input : ScaleInput) : bool :=
  negb (up_guard s input) && decay_guard s.

(** The event that a call has recorded. *)
Definition recorded (input : ScaleInput) (r : ScalingResult) : ScaleEvent :=
  {| ev_iteration := in_iteration input; ev_scale := newScale r;
     ev_reason := reason r |}.

(** A history of three failed iterations. *)
Definition three_failures : list LoopIteration :=
  [iteration_with Failed; iteration_with Failed; iteration_with Failed].

(** A call after three failures with score 0.5. *)
Definition failing_call : ScaleInput :=
  {| in_score := 1 # 2; in_iteration := 4; in_history := three_failures |}.

End StreakSpec.

(** ** Vocabulary for the stored patterns *)

Module PatternSpec.
Import JS LearningCore LearningSpec.
Local Open Scope Q_scope.

(** An entry of the pattern map is filed under the identifier of its
    pattern, which is the hash of the pattern's own features and class;
    the two structural features are among the features. *)
Definition filed (e : string * LearnedPattern) : Prop :=
  id (snd e) = fst e /\
  fst e = hashFeatures (features (snd e)) (type (snd e)) /\
  (2 <= List.length (features (snd e)))%nat.

(** Configurations whose decay rate is a proportion and whose boosts are
    not negative. *)
Definition sane (cfg : LearningConfig) : Prop :=
  0 <= decayRate cfg /\ decayRate cfg <= 1 /\
  0 <= successBoost cfg /\ 0 <= failurePenalty cfg.

(** The weight of the pattern is a proportion. *)
Definition unit_weight (e : string * LearnedPattern) : Prop :=
  0 <= weight (snd e) /\ weight (snd e) <= 1.

(** A number between 0 and 1. *)
Definition proportion (n : number) : Prop :=
  exists q, n = Fin q /\ 0 <= q /\ q <= 1.

(** The call observes an outcome of class [ty] and its features can be
    extracted. *)
Definition learns (ty : OutcomeType) (call : IngestInput * Z) : bool :=
  match extractFeatures (in_data (fst call)), in_type (fst call), ty with
  | Some _, success, success | Some _, failure, failure => true
  | _, _, _ => false
  end.


(** A pattern of which only the weight matters. *)
Definition weighing (k : string) (w : Q) : string * LearnedPattern :=
  (k, {| id := k; type := success; features := []; weight := w;
         seenCount := 1; lastSeen := 0 |}).

(** Three patterns of weights 0.6, 0.2 and 0.4. *)
Definition three_weights : list (string * LearnedPattern) :=
  [weighing "a" (6 # 10); weighing "b" (2 # 10); weighing "c" (4 # 10)].

(** An observation of the given class on a result with the given score. *)
Definition scored (ty : OutcomeType) (score : Q) : IngestInput * Z :=
  ({| in_type := ty;
      in_data := [("score", VNumber (Fin score)); ("errors", VArray [])];
      in_iteration := 1 |}, 0%Z).

End PatternSpec.

(** ** Vocabulary for the artifacts *)

Module ArtifactSpec.
Import JS AutoGenerator GeneratorSpec.
Local Open Scope Q_scope.

(** The entry that a call leaves in the artifact log. *)
Definition logged (input : GenerateInput) (r : GenerationResult) : LogEntry :=
  {| log_iteration := iteration input; log_artifacts := artifacts r;
     log_type := Types.type r |}.

(** The same call at another confidence and scale. *)
Definition at_level (input : GenerateInput) (confidence scale : Q)
  : GenerateInput :=
  {| iteration := iteration input; scale := scale; confidence := confidence;
     history := history input |}.

End ArtifactSpec.

(** ** Vocabulary for the loop *)

Module LoopSpec.
Import JS SLVSSRunner RunnerSpec.
Local Open Scope Q_scope.

(** What one tick may do to the engines: each is called at most once. *)
Definition engines_step (s s' : t) : Prop :=
  (veri3fy s' = veri3fy s \/
   exists payload now,
     veri3fy s' = fst (VERI3FY.verify (veri3fy s) payload now)) /\
  (scaling s' = scaling s \/
   exists input, scaling s' = fst (ScalingEngine.scale (scaling s) input)) /\
  (generator s' = generator s \/
   exists b input,
     generator s' = fst (AutoGenerator.generate b (generator s) input)) /\
  (learner s' = learner s \/
   exists input now,
     learner s' = fst (LearningCore.ingest (learner s) input now)).

(** What the [try] block does to the counters: the verdict is counted
    once when the block ends, at most once when it throws, and it throws
    only when a listener does; at most one score is added. *)
Definition block_counts (env : TickEnv) (s s' : t) (thrown : bool) : Prop :=
  let dp := (totalPassed s' - totalPassed s)%Z in
  let df := (totalFailed s' - totalFailed s)%Z in
  let c := confidenceSum s' - confidenceSum s in
  0 <= c /\ c <= 1 /\ (0 <= dp)%Z /\ (0 <= df)%Z /\
  if thrown then fault env <> None /\ (dp + df <= 1)%Z
  else (dp + df = 1)%Z.

(** What a tick that runs does to the runner, [rec] being the record
    that it pushes. *)
Definition ticked (env : TickEnv) (s s' : t) (rec : LoopIteration) : Prop :=
  config s' = config s /\
  exhausted s = false /\
  iteration s' = (iteration s + 1)%Z /\
  running s' = true /\ loopTimer s' = true /\
  startTime s' = startTime s /\
  history s' = push_bounded 100 (history s) rec /\
  Types.id rec = (iteration s + 1)%Z /\
  engines_step s s' /\
  let dp := (totalPassed s' - totalPassed s)%Z in
  let df := (totalFailed s' - totalFailed s)%Z in
  let c := confidenceSum s' - confidenceSum s in
  0 <= c /\ c <= 1 /\ (0 <= dp <= 1)%Z /\ (0 <= df)%Z /\
  (1 <= dp + df <= 2)%Z /\
  (fault env = None -> (dp + df = 1)%Z).

(** What a tick does to the runner when its [catch] clause throws on the
    message of what a listener has thrown, a [null] or an [undefined]: the
    iteration and the failure are counted, no record is pushed and no
    timer is set. *)
Definition aborted (env : TickEnv) (s s' : t) : Prop :=
  config s' = config s /\
  exhausted s = false /\
  iteration s' = (iteration s + 1)%Z /\
  running s' = running s /\ loopTimer s' = loopTimer s /\
  startTime s' = startTime s /\
  history s' = history s /\
  fault env <> None /\ unreadable env = true /\
  engines_step s s' /\
  let dp := (totalPassed s' - totalPassed s)%Z in
  let df := (totalFailed s' - totalFailed s)%Z in
  let c := confidenceSum s' - confidenceSum s in
  0 <= c /\ c <= 1 /\ (0 <= dp <= 1)%Z /\ (1 <= df)%Z /\ (dp + df <= 2)%Z.

(** The environments of the ticks that a sequence of events starts. *)
Definition tick_envs (events : list Event) : list TickEnv :=
  flat_map (fun e => match e with
                     | Start _ env | Timer env => [env]
                     | Stop => []
                     end) events.

(** No listener throws. *)
Definition quiet (env : TickEnv) : Prop := fault env = None.

(** The [catch] clause can read the message of what a listener throws,
    if one does: it is not [null] or [undefined]. *)
Definition readable (env : TickEnv) : Prop := unreadable env = false.

(** The counters of the runner agree with the number of its ticks. *)
Definition counters_sound (s : t) : Prop :=
  (0 <= totalPassed s <= iteration s)%Z /\
  (0 <= totalFailed s)%Z /\
  (iteration s <= totalPassed s + totalFailed s <= 2 * iteration s)%Z /\
  0 <= confidenceSum s /\ confidenceSum s <= inject_Z (iteration s).

(** The loop respects its bound, when it has one: the counter stays
    below the bound plus one. *)
Definition bounded (s : t) : Prop :=
  (0 <= iteration s)%Z /\
  forall m, maxIterations (config s) = Fin m -> 0 < m ->
    inject_Z (iteration s) < m + 1.

(** The [len] whole numbers that end in [n]. *)
Definition ids_upto (n : Z) (len : nat) : list Z :=
  map (fun k => (n - Z.of_nat len + 1 + Z.of_nat k)%Z) (seq 0 len).

(** The records of the history are those of the latest iterations, up
    to 100 of them, in their order. *)
Definition numbered (s : t) : Prop :=
  (0 <= iteration s)%Z /\
  List.length (history s) = Nat.min 100 (Z.to_nat (iteration s)) /\
  map Types.id (history s) = ids_upto (iteration s) (List.length (history s)).

(** What [getState] reports of a runner: proportions, the scale in its
    range, and the records of the latest iterations, up to 10 of them. *)
Definition well_reported (st : SLVSSState) : Prop :=
  0 <= st_successRate st /\ st_successRate st <= 1 /\
  0 <= st_avgConfidence st /\ st_avgConfidence st <= 1 /\
  1 <= st_currentScale st /\ st_currentScale st <= 1024 # 1 /\
  map Types.id (st_history st)
  = ids_upto (st_iteration st) (Nat.min 10 (Z.to_nat (st_iteration st))).

(** The engines of the runner are within their bounds. *)
Definition engines_sound (s : t) : Prop :=
  ScalingEngine.policy (scaling s)
    = ScalingEngine.policy (ScalingEngine.constructor ScalingEngine.noPolicy) /\
  ScalingSpec.within_bounds (scaling s) /\
  ScalingSpec.printed (scaling s) /\
  (List.length (ScalingEngine.scaleHistory (scaling s)) <= 50)%nat /\
  LearningCore.config (learner s)
    = LearningCore.config (LearningCore.constructor LearningCore.noConfig) /\
  LearningSpec.keys_distinct (learner s) /\
  LearningSpec.within_capacity (learner s) /\
  matches_version (LearningCore.modelVersion (learner s)) = true /\
  (List.length (AutoGenerator.artifactLog (generator s)) <= 100)%nat.

(** The average confidence that the payload of the next tick carries. *)
Definition next_confidence (s : t) : Q :=
  ratio (confidenceSum (begun s)) (iteration (begun s)).

(** A sequence of events in which a listener throws in the second tick,
    after the verdict, and in the last one, before it. *)
Definition rough_run : list Event :=
  [ Start 0 (quiet_tick 1000);
    Timer (faulty_tick 6000 EmitPassed);
    Timer (quiet_tick 11000);
    Stop;
    Timer (quiet_tick 16000);
    Start 20000 (faulty_tick 21000 LogVerify) ].

End LoopSpec.

(* ================================================================== *)
(** * Properties                                                       *)
(* ================================================================== *)

Module JSFacts.
Import JS.

Lemma Qltb_lt (x y : Q) : Qltb x y = true <-> (x < y)%Q.
Proof.
  unfold Qltb. rewrite negb_true_iff.
  split; intro H.
  - apply Qnot_le_lt. intro L. apply Qle_bool_iff in L. congruence.
  - destruct (Qle_bool y x) eqn:E; [|reflexivity].
    apply Qle_bool_iff in E. exfalso. exact (Qlt_not_le _ _ H E).
Qed.

Lemma Qltb_ge (x y : Q) : Qltb x y = false <-> (y <= x)%Q.
Proof.
  unfold Qltb. rewrite negb_false_iff. apply Qle_bool_iff.
Qed.

Lemma Qleb_le (x y : Q) : Qleb x y = true <-> (x <= y)%Q.
Proof. apply Qle_bool_iff. Qed.

Lemma Qleb_gt (x y : Q) : Qleb x y = false <-> (y < x)%Q.
Proof.
  unfold Qleb. split; intro H.
  - apply Qnot_le_lt. intro L. apply Qle_bool_iff in L. congruence.
  - destruct (Qle_bool x y) eqn:E; [|reflexivity].
    apply Qle_bool_iff in E. exfalso. exact (Qlt_not_le _ _ H E).
Qed.

End JSFacts.

(** ** Rounding to a fixed number of decimals *)

Module ToFixedFacts.
Import JS JSFacts.
Local Open Scope Q_scope.

Lemma grid_pos (d : nat) : (0 < inject_Z (10 ^ Z.of_nat d))%Q.
Proof.
  change 0%Q with (inject_Z 0). rewrite <- Zlt_Qlt.
  apply Z.pow_pos_nonneg; lia.
Qed.

Lemma units_div_le (d : nat) (a b : Z) :
  (a <= b)%Z ->
  (inject_Z a / inject_Z (10 ^ Z.of_nat d) <=
   inject_Z b / inject_Z (10 ^ Z.of_nat d))%Q.
Proof.
  intro H. unfold Qdiv. apply Qmult_le_compat_r.
  - now rewrite <- Zle_Qle.
  - apply Qinv_le_0_compat, Qlt_le_weak, grid_pos.
Qed.

Lemma fixed_units_mono (d : nat) (x y : Q) :
  (x <= y)%Q -> (fixed_units d x <= fixed_units d y)%Z.
Proof.
  intro H. unfold fixed_units. apply Qfloor_resp_le.
  apply Qplus_le_compat; [|apply Qle_refl].
  apply Qmult_le_compat_r; [exact H|apply Qlt_le_weak, grid_pos].
Qed.

Lemma fixed_units_grid (d : nat) (n : Z) :
  fixed_units d (inject_Z n / inject_Z (10 ^ Z.of_nat d)) = n.
Proof.
  unfold fixed_units.
  assert (E : (inject_Z n / inject_Z (10 ^ Z.of_nat d)
               * inject_Z (10 ^ Z.of_nat d) + (1 # 2)
               == inject_Z n + (1 # 2))%Q).
  { field. intro K. pose proof (grid_pos d) as P. rewrite K in P.
    exact (Qlt_irrefl _ P). }
  rewrite (Qfloor_comp _ _ E).
  assert (L : (n <= Qfloor (inject_Z n + (1 # 2)))%Z).
  { rewrite <- (Qfloor_Z n) at 1. apply Qfloor_resp_le. lra. }
  assert (U : (Qfloor (inject_Z n + (1 # 2)) < n + 1)%Z).
  { rewrite Zlt_Qlt. eapply Qle_lt_trans; [apply Qfloor_le|].
    rewrite inject_Z_plus. change (inject_Z 1) with 1%Q. lra. }
  lia.
Qed.

Lemma fixed_units_zero (d : nat) : fixed_units d 0 = 0%Z.
Proof.
  assert (E : (0 == inject_Z 0 / inject_Z (10 ^ Z.of_nat d))%Q).
  { unfold Qdiv. change (inject_Z 0) with 0%Q. ring. }
  unfold fixed_units.
  rewrite (Qfloor_comp _ (inject_Z 0 / inject_Z (10 ^ Z.of_nat d)
                           * inject_Z (10 ^ Z.of_nat d) + (1 # 2))%Q).
  - apply (fixed_units_grid d 0).
  - rewrite <- E. reflexivity.
Qed.

Lemma fixed_units_nonneg (d : nat) (x : Q) :
  (0 <= x)%Q -> (0 <= fixed_units d x)%Z.
Proof.
  intro H. rewrite <- (fixed_units_zero d). now apply fixed_units_mono.
Qed.

Lemma toFixed_comp (d : nat) (x y : Q) :
  (x == y)%Q -> (toFixed d x == toFixed d y)%Q.
Proof.
  intro E. unfold toFixed, Qltb, fixed_units.
  rewrite (Qleb_comp 0 0 (Qeq_refl 0) x y E).
  destruct (negb (Qle_bool 0 y)).
  - rewrite (Qfloor_comp (- x * inject_Z (10 ^ Z.of_nat d) + (1 # 2))%Q
                         (- y * inject_Z (10 ^ Z.of_nat d) + (1 # 2))%Q);
      [reflexivity | now rewrite E].
  - rewrite (Qfloor_comp (x * inject_Z (10 ^ Z.of_nat d) + (1 # 2))%Q
                         (y * inject_Z (10 ^ Z.of_nat d) + (1 # 2))%Q);
      [reflexivity | now rewrite E].
Qed.

Lemma toFixed_nonneg (d : nat) (x : Q) :
  (0 <= x)%Q -> (0 <= toFixed d x)%Q.
Proof.
  intro H. unfold toFixed.
  destruct (Qltb x 0) eqn:E.
  - apply Qltb_lt in E. lra.
  - assert (G := units_div_le d 0 _ (fixed_units_nonneg d x H)).
    unfold Qdiv in G at 1. change (inject_Z 0) with 0%Q in G.
    rewrite Qmult_0_l in G. exact G.
Qed.

Lemma toFixed_mono (d : nat) (x y : Q) :
  (x <= y)%Q -> (toFixed d x <= toFixed d y)%Q.
Proof.
  intro H. unfold toFixed.
  destruct (Qltb x 0) eqn:Ex, (Qltb y 0) eqn:Ey.
  - apply Qopp_le_compat, units_div_le, fixed_units_mono. lra.
  - apply Qltb_lt in Ex. apply Qltb_ge in Ey.
    assert (A := units_div_le d 0 _ (fixed_units_nonneg d (- x) ltac:(lra))).
    assert (B := units_div_le d 0 _ (fixed_units_nonneg d y Ey)).
    unfold Qdiv in A at 1, B at 1. change (inject_Z 0) with 0%Q in A, B.
    rewrite Qmult_0_l in A, B. lra.
  - apply Qltb_ge in Ex. apply Qltb_lt in Ey. lra.
  - apply units_div_le, fixed_units_mono, H.
Qed.

Lemma fixed_units_comp (d : nat) (x y : Q) :
  x == y -> fixed_units d x = fixed_units d y.
Proof.
  intro E. unfold fixed_units. apply Qfloor_comp. now rewrite E.
Qed.

(** The result of [toFixed] is a whole number of units of 10^-d ... *)
Lemma toFixed_units (d : nat) (x : Q) :
  exists k : Z, toFixed d x == inject_Z k / inject_Z (10 ^ Z.of_nat d).
Proof.
  unfold toFixed. destruct (Qltb x 0).
  - exists (- fixed_units d (- x))%Z. rewrite inject_Z_opp.
    field. intro K. pose proof (grid_pos d) as P. rewrite K in P.
    exact (Qlt_irrefl _ P).
  - eexists. reflexivity.
Qed.

(** ... and such a number prints as itself. *)
Lemma toFixed_grid (d : nat) (k : Z) :
  toFixed d (inject_Z k / inject_Z (10 ^ Z.of_nat d))
  == inject_Z k / inject_Z (10 ^ Z.of_nat d).
Proof.
  assert (NZ : ~ inject_Z (10 ^ Z.of_nat d) == 0).
  { intro K. pose proof (grid_pos d) as P. rewrite K in P.
    exact (Qlt_irrefl _ P). }
  unfold toFixed.
  destruct (Qltb _ 0) eqn:E.
  - rewrite (fixed_units_comp d _ (inject_Z (- k) / inject_Z (10 ^ Z.of_nat d))).
    + rewrite fixed_units_grid, inject_Z_opp. now field.
    + rewrite inject_Z_opp. now field.
  - now rewrite fixed_units_grid.
Qed.

Lemma toFixed_idem (d : nat) (x : Q) :
  toFixed d (toFixed d x) == toFixed d x.
Proof.
  destruct (toFixed_units d x) as [k Hk].
  rewrite (toFixed_comp d _ _ Hk), toFixed_grid. now rewrite Hk.
Qed.

Lemma toFixed_whole (d : nat) (n : Z) : toFixed d (inject_Z n) == inject_Z n.
Proof.
  assert (E : inject_Z n ==
              inject_Z (n * 10 ^ Z.of_nat d) / inject_Z (10 ^ Z.of_nat d)).
  { rewrite inject_Z_mult. field. intro K. pose proof (grid_pos d) as P.
    rewrite K in P. exact (Qlt_irrefl _ P). }
  rewrite (toFixed_comp d _ _ E), toFixed_grid. now rewrite <- E.
Qed.



End ToFixedFacts.

(** ** The scaling engine *)

Module ScalingFacts.
Import JS JSFacts ToFixedFacts ScalingEngine ScalingSpec.
Local Open Scope Q_scope.

Lemma updateStreaks_policy h s : policy (updateStreaks h s) = policy s.
Proof.
  unfold updateStreaks. destruct h; [reflexivity|].
  now destruct (countStreaks _ 0 0).
Qed.

Lemma updateStreaks_scale h s :
  _currentScale (updateStreaks h s) = _currentScale s.
Proof.
  unfold updateStreaks. destruct h; [reflexivity|].
  now destruct (countStreaks _ 0 0).
Qed.

Lemma updateStreaks_log h s :
  scaleHistory (updateStreaks h s) = scaleHistory s.
Proof.
  unfold updateStreaks. destruct h; [reflexivity|].
  now destruct (countStreaks _ 0 0).
Qed.

Section OneCall.

(** [s] is the state [s0] with its streaks recomputed. *)
Variables (s0 s : t) (input : ScaleInput).
Hypothesis recomputed : s = updateStreaks (in_history input) s0.

Lemma scale_up_eq :
  up_guard s input = true ->
  scale s0 input =
  (let next := toFixed 4 (Qmin (_currentScale s * growthFactor (policy s))
                               (maxScale (policy s))) in
   (with_scale s next 0 (failStreak s) (up_reason s input) input,
    {| scaled := true; previousScale := _currentScale s0;
       newScale := next; reason := up_reason s input |})).
Proof.
  intro G. unfold scale. rewrite <- recomputed.
  unfold up_guard in G. rewrite G.
  reflexivity.
Qed.

Lemma scale_decay_eq :
  up_guard s input = false -> decay_guard s = true ->
  scale s0 input =
  (let next := toFixed 4 (Qmax (_currentScale s * decayFactor (policy s)) 1) in
   (with_scale s next (passStreak s) 0 (decay_reason s) input,
    {| scaled := true; previousScale := _currentScale s0;
       newScale := next; reason := decay_reason s |})).
Proof.
  intros G D. unfold scale. rewrite <- recomputed.
  unfold up_guard in G. rewrite G.
  unfold decay_guard in D. rewrite D. reflexivity.
Qed.

Lemma scale_boost_eq :
  up_guard s input = false -> decay_guard s = false ->
  boost_guard input = true ->
  scale s0 input =
  (let next := toFixed 4 (Qmin (_currentScale s * (3 # 2))
                               (maxScale (policy s))) in
   (with_scale s next (passStreak s) (failStreak s) (boost_reason input) input,
    {| scaled := true; previousScale := _currentScale s0;
       newScale := next; reason := boost_reason input |})).
Proof.
  intros G D B. unfold scale. rewrite <- recomputed.
  unfold up_guard in G. rewrite G.
  unfold decay_guard in D. rewrite D.
  unfold boost_guard in B. rewrite B. reflexivity.
Qed.

Lemma scale_none_eq :
  up_guard s input = false -> decay_guard s = false ->
  boost_guard input = false ->
  scale s0 input =
  (s, {| scaled := false; previousScale := _currentScale s0;
         newScale := _currentScale s; reason := "No scaling event" |}).
Proof.
  intros G D B. unfold scale. rewrite <- recomputed.
  unfold up_guard in G. rewrite G.
  unfold decay_guard in D. rewrite D.
  unfold boost_guard in B. rewrite B. reflexivity.
Qed.

End OneCall.

(** Case analysis on the rule that fires. *)
Ltac scale_cases s0 input :=
  let G := fresh "G" in
  let D := fresh "D" in
  let B := fresh "B" in
  destruct (up_guard (updateStreaks (in_history input) s0) input) eqn:G;
  [ rewrite (scale_up_eq s0 _ input eq_refl G)
  | destruct (decay_guard (updateStreaks (in_history input) s0)) eqn:D;
    [ rewrite (scale_decay_eq s0 _ input eq_refl G D)
    | destruct (boost_guard input) eqn:B;
      [ rewrite (scale_boost_eq s0 _ input eq_refl G D B)
      | rewrite (scale_none_eq s0 _ input eq_refl G D B) ] ] ].

Lemma scale_policy s0 input : policy (fst (scale s0 input)) = policy s0.
Proof.
  scale_cases s0 input; cbn; apply updateStreaks_policy.
Qed.

Lemma scale_all_cons s0 i rest :
  scale_all s0 (i :: rest) = scale_all (fst (scale s0 i)) rest.
Proof. reflexivity. Qed.


(** *** Bounds of the scale *)

Lemma toFixed4_one : toFixed 4 1 == 1.
Proof. exact (toFixed_whole 4 1). Qed.

Lemma toFixed4_ge_one x : 1 <= x -> 1 <= toFixed 4 x.
Proof.
  intro H. rewrite <- toFixed4_one at 1. now apply toFixed_mono.
Qed.

Lemma toFixed4_le_max pol x :
  toFixed 4 (maxScale pol) <= maxScale pol ->
  x <= maxScale pol -> toFixed 4 x <= maxScale pol.
Proof.
  intros R H. eapply Qle_trans; [apply toFixed_mono, H | exact R].
Qed.

Lemma scale_within_bounds s0 input :
  well_formed (policy s0) -> within_bounds s0 ->
  within_bounds (fst (scale s0 input)).
Proof.
  intros (M & R & Gr & De) (L & U). unfold within_bounds.
  rewrite scale_policy.
  scale_cases s0 input; cbn;
    rewrite ?updateStreaks_policy, ?updateStreaks_scale.
  - split.
    + apply toFixed4_ge_one, Q.min_glb; [nra | exact M].
    + apply toFixed4_le_max; [exact R | apply Q.le_min_r].
  - split.
    + apply toFixed4_ge_one, Q.le_max_r.
    + apply toFixed4_le_max; [exact R|].
      apply Q.max_lub; [nra | exact M].
  - split.
    + apply toFixed4_ge_one, Q.min_glb; [lra | exact M].
    + apply toFixed4_le_max; [exact R | apply Q.le_min_r].
  - now split.
Qed.


(** *** Values of the scale are printed values *)

Lemma scale_printed s0 input : printed s0 -> printed (fst (scale s0 input)).
Proof.
  intro P. unfold printed.
  scale_cases s0 input; cbn; try apply toFixed_idem.
  now rewrite updateStreaks_scale.
Qed.

Lemma scale_all_printed inputs : forall s0,
  printed s0 -> printed (scale_all s0 inputs).
Proof.
  induction inputs as [|i rest IH]; intros s0 P; [exact P|].
  rewrite scale_all_cons. apply IH. now apply scale_printed.
Qed.

Lemma constructor_printed p : printed (constructor p).
Proof. exact toFixed4_one. Qed.

(** *** The scale stays in its range *)


Lemma default_policy_well_formed : well_formed (policy (constructor noPolicy)).
Proof.
  repeat split; vm_compute; discriminate.
Qed.



(** The other conditions on the policy are needed as well.  A maximum with
    more than four decimals can be passed by the rounding: under a maximum
    of 1.00006 the boost at iteration 10 gives min(1.5, 1.00006), printed as
    1.0001.  A growth factor below 1 takes the scale below 1, a decay factor
    above 1 takes it above the maximum. *)
Example rounding_can_pass_the_maximum :
  let s := scale_all (constructor (policy_max (100006 # 100000)))
             [perfect_call 10] in
  maxScale (policy s) < _currentScale s.
Proof. vm_compute. reflexivity. Qed.

Example shrinking_growth_factor :
  let p := {| opt_growthFactor := Some (1 # 2); opt_maxScale := None;
              opt_minPassStreak := None; opt_decayOnFailure := None;
              opt_decayFactor := None |} in
  _currentScale (scale_all (constructor p) [streak_call]) < 1.
Proof. vm_compute. reflexivity. Qed.

Example growing_decay_factor :
  let p := {| opt_growthFactor := None; opt_maxScale := None;
              opt_minPassStreak := None; opt_decayOnFailure := None;
              opt_decayFactor := Some (2000 # 1) |} in
  let fails := {| in_score := 0; in_iteration := 7;
                  in_history := [iteration_with Failed; iteration_with Failed;
                                 iteration_with Failed] |} in
  let s := scale_all (constructor p) [streak_call; fails] in
  maxScale (policy s) < _currentScale s.
Proof. vm_compute. reflexivity. Qed.

(** *** The scale-up rule *)




(** *** The periodic boost at the maximum *)

(** C10 (as amended).  In a state reached from the initial one whose scale
    equals a non-negative configured maximum, a call at a positive multiple
    of ten with score at least 0.95, the decay rule not applying, reports
    [scaled = true] with the new scale equal to the previous one, both the
    maximum, and appends an entry to the event log. *)
Theorem boost_at_maximum (p : PartialScalePolicy) (inputs : list ScaleInput)
  (input : ScaleInput) :
  let s0 := scale_all (constructor p) inputs in
  let s := updateStreaks (in_history input) s0 in
  0 <= maxScale (policy s0) ->
  _currentScale s0 == maxScale (policy s0) ->
  (0 < in_iteration input)%Z ->
  Z.rem (in_iteration input) 10 = 0%Z ->
  19 # 20 <= in_score input ->
  decay_guard s = false ->
  let r := snd (scale s0 input) in
  let s' := fst (scale s0 input) in
  scaled r = true /\
  newScale r == previousScale r /\
  previousScale r == maxScale (policy s0) /\
  reason r = boost_reason input /\
  scaleHistory s' =
    push_bounded 50 (scaleHistory s0)
      {| ev_iteration := in_iteration input; ev_scale := newScale r;
         ev_reason := boost_reason input |}.
Proof.
  intros s0 s Mpos Hmax Hit Hrem Hscore Hdecay r s'.
  assert (G : up_guard s input = false).
  { unfold up_guard. subst s.
    rewrite updateStreaks_policy, updateStreaks_scale.
    assert (E : Qltb (_currentScale s0) (maxScale (policy s0)) = false).
    { apply Qltb_ge. rewrite Hmax. apply Qle_refl. }
    rewrite E. now rewrite andb_false_r. }
  assert (B : boost_guard input = true).
  { unfold boost_guard. apply Z.ltb_lt in Hit. apply Qleb_le in Hscore.
    rewrite Hit, Hrem, Hscore. reflexivity. }
  subst r s'. rewrite (scale_boost_eq s0 _ input eq_refl G Hdecay B). cbn.
  rewrite updateStreaks_policy, updateStreaks_scale, updateStreaks_log.
  assert (P : printed s0).
  { subst s0. apply scale_all_printed, constructor_printed. }
  assert (N : toFixed 4 (Qmin (_currentScale s0 * (3 # 2)) (maxScale (policy s0)))
              == _currentScale s0).
  { unfold printed in P.
    rewrite (toFixed_comp 4 _ (_currentScale s0)); [exact P|].
    rewrite Q.min_r; [now rewrite Hmax|]. rewrite Hmax. lra. }
  repeat split; try reflexivity; [exact N | exact Hmax].
Qed.

Lemma boost_at_maximum_witness :
  let s0 := scale_all (constructor (policy_max (3 # 2))) [perfect_call 10] in
  scaled (snd (scale s0 (perfect_call 20))) = true /\
  newScale (snd (scale s0 (perfect_call 20)))
  == previousScale (snd (scale s0 (perfect_call 20))).
Proof.
  assert (H := boost_at_maximum (policy_max (3 # 2)) [perfect_call 10]
                 (perfect_call 20)).
  cbv zeta in H.
  assert (A : 0 <= maxScale (policy (scale_all (constructor (policy_max (3 # 2)))
                                       [perfect_call 10])))
    by (vm_compute; discriminate).
  assert (B : _currentScale (scale_all (constructor (policy_max (3 # 2)))
                               [perfect_call 10])
              == maxScale (policy (scale_all (constructor (policy_max (3 # 2)))
                                     [perfect_call 10])))
    by (vm_compute; reflexivity).
  destruct (H A B ltac:(reflexivity) ltac:(reflexivity)
              ltac:(vm_compute; discriminate) ltac:(reflexivity))
    as (R1 & R2 & _).
  split; [exact R1 | exact R2].
Defined.

(** C10 as stated fails under a negative configured maximum: the first boost
    brings the scale to the maximum -2, the next one takes it to -3. *)
Lemma boost_below_negative_maximum :
  let s0 := scale_all (constructor (policy_max (- 2 # 1))) [perfect_call 10] in
  let s := updateStreaks (in_history (perfect_call 20)) s0 in
  (_currentScale s0 == maxScale (policy s0) /\
   (0 < in_iteration (perfect_call 20))%Z /\
   Z.rem (in_iteration (perfect_call 20)) 10 = 0%Z /\
   19 # 20 <= in_score (perfect_call 20) /\
   count (passStreak s) < minPassStreak (policy s0) /\
   decay_guard s = false) /\
  ~ newScale (snd (scale s0 (perfect_call 20)))
    == previousScale (snd (scale s0 (perfect_call 20))).
Proof.
  vm_compute. repeat split; try discriminate.
Qed.

End ScalingFacts.

(** ** The loop *)

Module RunnerFacts.
Import JS SLVSSRunner RunnerSpec.

Local Opaque VERI3FY.verify ScalingEngine.scale AutoGenerator.generate
  LearningCore.ingest buildPayload.

Section Rules.
Context {A B : Type}.

Lemma sat_bind (c : Try A) (k : A -> Try B) f (Q : Frame -> option B -> Prop) :
  sat c f (fun f' o => match o with
                       | Some x => sat (k x) f' Q
                       | None => Q f' None
                       end) ->
  sat (bind c k) f Q.
Proof.
  unfold sat, bind. destruct (c f) as [f' [x|]]; cbn; auto.
Qed.

Lemma sat_ret (x : A) f (Q : Frame -> option A -> Prop) :
  Q f (Some x) -> sat (ret x) f Q.
Proof. auto. Qed.

Lemma sat_throw f (Q : Frame -> option A -> Prop) :
  Q f None -> sat throw f Q.
Proof. auto. Qed.

End Rules.

Lemma sat_this f (Q : Frame -> option t -> Prop) :
  Q f (Some (self f)) -> sat this f Q.
Proof. auto. Qed.

Lemma sat_record f (Q : Frame -> option LoopIteration -> Prop) :
  Q f (Some (iterObj f)) -> sat record f Q.
Proof. auto. Qed.

Lemma sat_update g f (Q : Frame -> option unit -> Prop) :
  Q {| self := g (self f); iterObj := iterObj f |} (Some tt) ->
  sat (update g) f Q.
Proof. auto. Qed.

Lemma sat_update_record g f (Q : Frame -> option unit -> Prop) :
  Q {| self := self f; iterObj := g (iterObj f) |} (Some tt) ->
  sat (update_record g) f Q.
Proof. auto. Qed.

Lemma sat_listeners env l f (Q : Frame -> option unit -> Prop) :
  Q f (Some tt) -> Q f None -> sat (listeners env l) f Q.
Proof.
  intros H1 H2. unfold sat, listeners.
  destruct (fault env) as [l'|]; [destruct (Listener_eqb l l')|]; cbn; auto.
Qed.

Lemma sat_when b c f (Q : Frame -> option unit -> Prop) :
  (b = true -> sat c f Q) -> (b = false -> Q f (Some tt)) ->
  sat (when b c) f Q.
Proof.
  intros H1 H2. destruct b; [apply H1 | apply H2]; reflexivity.
Qed.

(** One step through a block. *)
Ltac wp_step :=
  cbv beta iota; cbn [self iterObj] in *;
  lazymatch goal with
  | |- sat (bind _ _) _ _ => apply sat_bind
  | |- sat (ret _) _ _ => apply sat_ret
  | |- sat throw _ _ => apply sat_throw
  | |- sat this _ _ => apply sat_this
  | |- sat record _ _ => apply sat_record
  | |- sat (update _) _ _ => apply sat_update
  | |- sat (update_record _) _ _ => apply sat_update_record
  | |- sat (listeners _ _) _ _ => apply sat_listeners
  | |- sat (when _ _) _ _ => apply sat_when; intros ?
  | |- sat (let '(_, _) := ?x in _) _ _ => destruct x eqn:?
  | |- sat (match ?x with _ => _ end) _ _ => destruct x eqn:?
  end.

Ltac wp := repeat wp_step; cbv beta iota; cbn [self iterObj] in *.

Section Tick.
Variable log2 : Q -> Q.

Lemma try_block_status env f0 :
  status (iterObj f0) = Running ->
  sat (try_block log2 env) f0
    (fun f o =>
       match o with
       | Some _ =>
           terminal
             (snd (VERI3FY.verify (veri3fy (self f0))
                     (buildPayload (self f0) (now_payload env))
                     (now_verify env)))
             (iterObj f)
       | None => True
       end).
Proof.
  intros R0.
  unfold try_block, on_failure, on_pass, learn.
  wp; try exact I.
  all: unfold terminal; cbn; rewrite ?R0; try exact I.
  all: destruct (passed v) eqn:P; try discriminate; auto.
  all: repeat match goal with
         | H : match status _ with _ => _ end = _ |- _ =>
             cbn in H; rewrite R0 in H; discriminate H
         end.
Qed.

Lemma try_block_same_loop env f0 :
  sat (try_block log2 env) f0 (fun f _ => same_loop (self f0) (self f)).
Proof.
  unfold try_block, on_failure, on_pass, learn.
  wp; unfold same_loop; cbn; auto.
Qed.

(** A tick that passes its guards, and whose [catch] clause can read
    what it receives, pushes a finished record. *)
Lemma tick_runs s env :
  running s = true -> exhausted s = false -> unreadable env = false ->
  exists s' rec, tick log2 s env = (s', Some rec).
Proof.
  intros R M N. unfold tick, finalize. rewrite R, M, N. cbn [negb].
  destruct (try_block log2 env _) as [f [u|]]; eauto.
Qed.

Lemma tick_terminal s env s' rec :
  tick log2 s env = (s', Some rec) -> terminal (gate s env) rec.
Proof.
  unfold tick, finalize.
  destruct (negb (running s)); [discriminate|].
  destruct (exhausted s); [discriminate|].
  pose proof (try_block_status env
                {| self := begun s;
                   iterObj := fresh_record (begun s) (now_start env) |}
                eq_refl) as T.
  unfold sat in T. cbn [self iterObj] in T.
  destruct (try_block log2 env _) as [f [u|]]; cbn [fst snd] in T;
    [|destruct (unreadable env); [discriminate|]];
    intro E; inversion E; subst; clear E.
  - unfold terminal in *. cbn. exact T.
  - unfold terminal. cbn. exact I.
Qed.

Lemma tick_history s env :
  history (fst (tick log2 s env)) =
  match snd (tick log2 s env) with
  | Some rec => push_bounded 100 (history s) rec
  | None => history s
  end.
Proof.
  unfold tick, finalize.
  destruct (negb (running s)); [reflexivity|].
  destruct (exhausted s); [reflexivity|].
  pose proof (try_block_same_loop env
                {| self := begun s;
                   iterObj := fresh_record (begun s) (now_start env) |}) as T.
  unfold sat, same_loop in T. cbn [self iterObj] in T.
  destruct (try_block log2 env _) as [f [u|]]; cbn [fst snd] in *;
    [|destruct (unreadable env)];
    destruct T as (H & _); cbn in H |- *; now rewrite H.
Qed.

End Tick.

Lemma push_bounded_length {A} (n : nat) (l : list A) (x : A) :
  (List.length l <= n)%nat -> (List.length (push_bounded n l x) <= n)%nat.
Proof.
  intro H. unfold push_bounded.
  destruct (Nat.ltb_spec n (List.length (l ++ [x]))) as [G|G]; [|exact G].
  rewrite length_app in G. cbn in G.
  destruct l as [|y l]; cbn in *; [lia|].
  rewrite length_app. cbn. lia.
Qed.

Lemma push_bounded_most_recent {A} (n : nat) (l : list A) (x : A) :
  (List.length l <= n)%nat ->
  push_bounded n l x = most_recent n (l ++ [x]).
Proof.
  intro H. unfold push_bounded, most_recent.
  destruct (Nat.ltb_spec n (List.length (l ++ [x]))) as [G|G].
  - rewrite length_app in *. cbn in *.
    replace (List.length l + 1 - n)%nat with 1%nat by lia.
    now destruct (l ++ [x])%list.
  - replace (List.length (l ++ [x]) - n)%nat with 0%nat by lia.
    reflexivity.
Qed.

(** *** The bounded history *)

Section History.
Variable log2 : Q -> Q.

Lemma tick_history_bound s env :
  (List.length (history s) <= 100)%nat ->
  (List.length (history (fst (tick log2 s env))) <= 100)%nat.
Proof.
  intro H. rewrite tick_history.
  destruct (snd (tick log2 s env)); [now apply push_bounded_length | exact H].
Qed.

Lemma step_history_bound s e :
  (List.length (history s) <= 100)%nat ->
  (List.length (history (step log2 s e)) <= 100)%nat.
Proof.
  intro H. destruct e as [now env| |env]; cbn [step].
  - unfold start. destruct (running s); [exact H|].
    now apply tick_history_bound.
  - exact H.
  - destruct (loopTimer s); [|exact H]. now apply tick_history_bound.
Qed.

Lemma run_history_bound events : forall s,
  (List.length (history s) <= 100)%nat ->
  (List.length (history (run log2 s events)) <= 100)%nat.
Proof.
  induction events as [|e rest IH]; intros s H; [exact H|].
  apply (IH (step log2 s e)). now apply step_history_bound.
Qed.

(** C6.  Whatever happens to a runner after its construction, its history
    holds at most 100 records.  A tick of a running loop that has not
    exhausted its iterations, and whose [catch] clause can read the
    message of what it is handed, does finish a record and appends it,
    keeping the most recent 100, so the oldest record is the one dropped;
    any other call of [tick] leaves the history as it is. *)
Theorem history_keeps_most_recent (c : PartialLoopConfig) (now : Z)
  (events : list Event) (env : TickEnv) :
  let s := run log2 (constructor c now) events in
  (List.length (history s) <= 100)%nat /\
  history (fst (tick log2 s env)) =
  match snd (tick log2 s env) with
  | Some rec => most_recent 100 (history s ++ [rec])
  | None => history s
  end /\
  (running s = true -> exhausted s = false -> unreadable env = false ->
   exists rec,
     snd (tick log2 s env) = Some rec /\
     history (fst (tick log2 s env)) = most_recent 100 (history s ++ [rec])).
Proof.
  intro s.
  assert (B : (List.length (history s) <= 100)%nat).
  { apply run_history_bound. cbn. lia. }
  assert (H : history (fst (tick log2 s env)) =
              match snd (tick log2 s env) with
              | Some rec => most_recent 100 (history s ++ [rec])
              | None => history s
              end).
  { rewrite tick_history.
    destruct (snd (tick log2 s env)); [|reflexivity].
    now apply push_bounded_most_recent. }
  split; [exact B|]. split; [exact H|].
  intros R M N.
  destruct (tick_runs log2 s env R M N) as (s' & rec & E).
  exists rec. rewrite E in H |- *. split; [reflexivity | exact H].
Qed.

(** *** The status of a finished record *)

(** C1.  A tick that runs pushes one finished record on the history; its
    status is passed, failed or scaled, never running, and it is scaled only
    if the verification gate returned [passed = true] on that tick. *)
Theorem tick_status (s : t) (env : TickEnv) (s' : t) (rec : LoopIteration) :
  tick log2 s env = (s', Some rec) ->
  history s' = push_bounded 100 (history s) rec /\
  (status rec = Passed \/ status rec = Failed \/ status rec = Scaled) /\
  (status rec = Scaled ->
   veri3fyResult rec = gate s env /\ passed (gate s env) = true).
Proof.
  intro E. split.
  - pose proof (tick_history log2 s env) as H. now rewrite E in H.
  - apply tick_terminal in E. unfold terminal in E.
    destruct (status rec); try contradiction; split; auto; discriminate.
Qed.

End History.

Lemma history_keeps_most_recent_witness :
  let s := run whole_log2 (constructor noConfig 0) (ticks 2) in
  let env := quiet_tick 16000 in
  exists rec,
    snd (tick whole_log2 s env) = Some rec /\
    history (fst (tick whole_log2 s env)) = most_recent 100 (history s ++ [rec]).
Proof.
  intros s env.
  destruct (history_keeps_most_recent whole_log2 noConfig 0 (ticks 2) env)
    as (_ & _ & H).
  apply H; vm_compute; reflexivity.
Defined.

Lemma tick_status_witness :
  let s := set_loop [] true 0 false (constructor noConfig 0) in
  exists rec,
    snd (tick whole_log2 s (quiet_tick 1000)) = Some rec /\
    history (fst (tick whole_log2 s (quiet_tick 1000)))
    = push_bounded 100 (history s) rec /\
    (status rec = Passed \/ status rec = Failed \/ status rec = Scaled) /\
    (status rec = Scaled ->
     veri3fyResult rec = gate s (quiet_tick 1000) /\
     passed (gate s (quiet_tick 1000)) = true).
Proof.
  intro s. eexists. split.
  - vm_compute. reflexivity.
  - eapply (tick_status whole_log2 s (quiet_tick 1000)
              (fst (tick whole_log2 s (quiet_tick 1000)))).
    vm_compute. reflexivity.
Defined.

(** *** The loop at work *)

(** The default runner passes its first three ticks and scales on the
    fourth. *)
Example first_ticks :
  map status (history (run whole_log2 (constructor noConfig 0) (ticks 3)))
  = [Passed; Passed; Passed; Scaled].
Proof. vm_compute. reflexivity. Qed.

(** A payload verified more than 60 s after it was built is stale: the
    tick fails. *)
Example stale_tick_fails :
  let s := set_loop [] true 0 false (constructor noConfig 0) in
  option_map status (snd (tick whole_log2 s (slow_tick 1000 60001)))
  = Some Failed.
Proof. vm_compute. reflexivity. Qed.

(** A listener of [slvss:iteration:passed] that throws turns a tick that
    passed verification into a failed one, counted on both sides. *)
Example thrown_tick_fails :
  let s := set_loop [] true 0 false (constructor noConfig 0) in
  let out := tick whole_log2 s (faulty_tick 1000 EmitPassed) in
  option_map status (snd out) = Some Failed /\
  option_map (fun r => passed (veri3fyResult r)) (snd out) = Some true /\
  totalPassed (fst out) = 1%Z /\ totalFailed (fst out) = 1%Z.
Proof. vm_compute. repeat split. Qed.

(** After 101 ticks the history holds the records 2 to 101. *)
Example oldest_record_evicted :
  let s := run whole_log2 (constructor noConfig 0) (ticks 100) in
  List.length (history s) = 100%nat /\
  map Types.id (firstn 2 (history s)) = [2%Z; 3%Z] /\
  iteration s = 101%Z.
Proof. vm_compute. repeat split. Qed.

End RunnerFacts.

(** ** The artifact generator *)

Module GeneratorFacts.
Import JS AutoGenerator GeneratorSpec.
Local Open Scope Q_scope.

Lemma templates_need_confidence (b : Bodies) :
  Forall (fun template => 85 # 100 <= minConfidence template) (templates b).
Proof.
  unfold templates. repeat constructor; cbn; unfold Qle; cbn; lia.
Qed.

(** C7.  At confidence 0.80 and scale 1 no template fires, every template
    asking for a confidence of 0.85 at least; the call returns the summary
    alone, under the summary type, when the iteration is a positive multiple
    of 5, and nothing otherwise. *)
Theorem low_confidence_summary_only (b : Bodies) (s : t) (iteration : Z)
  (history : list LoopIteration) :
  let input := low_confidence iteration history in
  let result := snd (generate b s input) in
  Forall (fun template => 85 # 100 <= minConfidence template) (templates b) /\
  gated b input = [] /\
  artifacts result =
    (if summary_due iteration then [genSovereigntySummary b input] else []) /\
  Types.type result =
    (if summary_due iteration then "sovereignty_summary" else "none") /\
  generated result = summary_due iteration /\
  artifactLog (fst (generate b s input)) =
    (if summary_due iteration
     then push_bounded 100 (artifactLog s)
            {| log_iteration := iteration;
               log_artifacts := [genSovereigntySummary b input];
               log_type := "sovereignty_summary" |}
     else artifactLog s).
Proof.
  intros input result.
  split; [apply templates_need_confidence|].
  split; [reflexivity|].
  subst result. unfold generate.
  change (fold_left (fire input) (templates b) ([], "none"))
    with (@nil string, "none").
  change ((0 <? AutoGenerator.iteration input)%Z
          && (Z.rem (AutoGenerator.iteration input) 5 =? 0)%Z)%bool
    with (summary_due iteration).
  destruct (summary_due iteration); cbn; repeat split; reflexivity.
Qed.

End GeneratorFacts.

(** ** The verification gate *)

Module GateFacts.
Import JS JSFacts VERI3FY GateSpec.
Local Open Scope Q_scope.

(** *** Stage 2 on absent fields *)

Lemma lt_lit_nan v q : ToNumber v = NaN -> lt_lit v q = false.
Proof. unfold lt_lit. now intros ->. Qed.

Lemma gt_lit_nan v q : ToNumber v = NaN -> gt_lit v q = false.
Proof. unfold gt_lit. now intros ->. Qed.

(** C9 (as amended).  Stage 2 appends no error and returns true for any
    payload in which successRate, avgConfidence and avgROI are absent or
    hold a value whose numeric coercion is NaN, the timestamp is a number
    at most 60 seconds older than the evaluation time or a value whose
    numeric coercion is NaN (an absent one among them), and iteration is
    not a negative number. *)
Theorem stage2_accepts_absent_fields (payload : Payload) (now : Z)
  (errors : list string) :
  ToNumber (get payload "successRate") = NaN ->
  ToNumber (get payload "avgConfidence") = NaN ->
  ToNumber (get payload "avgROI") = NaN ->
  ((exists t, get payload "timestamp" = VNumber (Fin t) /\
              inject_Z now - t <= 60000 # 1) \/
   ToNumber (get payload "timestamp") = NaN) ->
  (forall n, get payload "iteration" = VNumber n -> num_ltb n (Fin 0) = false) ->
  stage2_logic payload now errors = (true, errors).
Proof.
  intros S C R T I. unfold stage2_logic.
  rewrite (lt_lit_nan _ _ S), (gt_lit_nan _ _ S).
  rewrite (lt_lit_nan _ _ C), (gt_lit_nan _ _ C).
  rewrite (lt_lit_nan _ _ R). cbn [orb].
  assert (A : num_ltb (Fin (60000 # 1))
                (num_sub (Fin (inject_Z now))
                   (ToNumber (get payload "timestamp"))) = false).
  { destruct T as [(t & -> & Ht) | ->]; [|reflexivity].
    cbn. now apply Qltb_ge. }
  rewrite A.
  assert (B : is_number (get payload "iteration")
              && lt_lit (get payload "iteration") 0 = false).
  { destruct (get payload "iteration") eqn:E; try reflexivity.
    cbn. unfold lt_lit. cbn. now apply I. }
  now rewrite B.
Qed.

Lemma stage2_accepts_absent_fields_witness :
  stage2_logic [] some_time [] = (true, []).
Proof.
  apply (stage2_accepts_absent_fields [] some_time []);
    try reflexivity.
  - right. reflexivity.
  - intros n H. discriminate H.
Defined.

(** C9 as stated fails: a timestamp that is [null] is not a number, and
    stage 2 rejects it as stale, the other fields being absent. *)
Lemma stage2_rejects_null_timestamp :
  let payload := [("timestamp", VNull)] in
  (is_number (get payload "successRate") = false /\
   is_number (get payload "avgConfidence") = false /\
   is_number (get payload "avgROI") = false /\
   is_number (get payload "timestamp") = false /\
   is_number (get payload "iteration") = false) /\
  stage2_logic payload some_time [] =
  (false, ["STAGE2: Payload timestamp is stale (1700000000.0s old)"]).
Proof.
  vm_compute. repeat split.
Qed.

(** A numeric string is not of type number either, and is compared as the
    number it spells. *)
Example stage2_rejects_numeric_string :
  fst (stage2_logic [("successRate", VString "2")] some_time []) = false.
Proof. vm_compute. reflexivity. Qed.

(** *** The end-to-end scenario *)

Section Scenario.

Variables (payload : Payload) (now : Z) (node version : string) (ts : Q).
Hypothesis Hiteration : get payload "iteration" = VNumber (Fin 1).
Hypothesis Hscale : get payload "scale" = VNumber (Fin 1).
Hypothesis Hnode : get payload "ark95xNode" = VString node.
Hypothesis Hvalid : valid_node node = true.
Hypothesis Hconfidence : get payload "avgConfidence" = VNumber (Fin (9 # 10)).
Hypothesis Hrate : get payload "successRate" = VNumber (Fin 1).
Hypothesis Hroi : get payload "avgROI" = VNumber (Fin (10 # 1)).
Hypothesis Htimestamp : get payload "timestamp" = VNumber (Fin ts).
Hypothesis Hpositive : 0 < ts.
Hypothesis Hfresh : inject_Z now - ts <= 60000 # 1.
Hypothesis Hversion : get payload "learnerVersion" = VString version.
Hypothesis Hmatch : matches_version version = true.

Lemma scenario_stage1 : stage1_syntax payload [] = (true, []).
Proof.
  unfold valid_node in Hvalid. apply andb_prop in Hvalid as [M _].
  unfold stage1_syntax, required. cbn [fold_left].
  rewrite Hiteration, Hscale, Hnode, Htimestamp, Hversion.
  cbn [is_nullish is_number is_string negb orb ToString ToNumber].
  rewrite M.
  assert (P : num_leb (Fin ts) (Fin 0) = false).
  { cbn. apply negb_false_iff, Qltb_lt, Hpositive. }
  rewrite P. reflexivity.
Qed.

Lemma scenario_stage2 errors :
  stage2_logic payload now errors = (true, errors).
Proof.
  unfold stage2_logic.
  rewrite Hrate, Hconfidence, Hroi, Htimestamp, Hiteration.
  assert (A : num_ltb (Fin (60000 # 1))
                (num_sub (Fin (inject_Z now)) (ToNumber (VNumber (Fin ts))))
              = false).
  { cbn. now apply Qltb_ge. }
  rewrite A. reflexivity.
Qed.

Lemma scenario_stage3 errors :
  stage3_sovereignty payload errors = (true, errors).
Proof.
  unfold valid_node in Hvalid. apply andb_prop in Hvalid as [_ M].
  unfold stage3_sovereignty.
  rewrite Hnode, Hiteration, Hversion. cbn [ToString].
  rewrite M, Hmatch.
  assert (T : ToBoolean (VString version) = true).
  { destruct version; [discriminate Hmatch | reflexivity]. }
  rewrite T. reflexivity.
Qed.

Lemma scenario_verify :
  snd (verify strict_gate payload now) =
  {| Types.stage1_syntax := true; Types.stage2_logic := true;
     Types.stage3_sovereignty := true; passed := true;
     score := toFixed 4 ((35 # 100) + (30 # 100) + (35 # 100));
     errors := [] |}.
Proof.
  unfold verify, strict_gate. cbn [config constructor or_default stages
    opt_stages Z.ltb Z.compare Pos.compare Pos.compare_cont].
  rewrite scenario_stage1, scenario_stage2, scenario_stage3.
  reflexivity.
Qed.

End Scenario.

End GateFacts.

(** ** Sorting *)

Module SortFacts.
Import JS.

Section SortBy.

Context {A : Type} (le : A -> A -> bool).

Lemma insert_by_perm x l : Permutation (insert_by le x l) (x :: l).
Proof.
  induction l as [|y l IH]; cbn; [reflexivity|].
  destruct (le x y); [reflexivity|].
  rewrite IH. apply perm_swap.
Qed.

Lemma sort_by_perm l : Permutation (sort_by le l) l.
Proof.
  induction l as [|x l IH]; cbn; [reflexivity|].
  fold (sort_by le l). rewrite insert_by_perm. now constructor.
Qed.

Lemma sort_by_length l : List.length (sort_by le l) = List.length l.
Proof. apply Permutation_length, sort_by_perm. Qed.

Hypothesis le_total : forall x y, le x y = true \/ le y x = true.
Hypothesis le_trans :
  forall x y z, le x y = true -> le y z = true -> le x z = true.

Lemma insert_by_sorted x l :
  StronglySorted (fun a b => le a b = true) l ->
  StronglySorted (fun a b => le a b = true) (insert_by le x l).
Proof.
  induction 1 as [|y l S IH F]; cbn.
  - repeat constructor.
  - destruct (le x y) eqn:E.
    + constructor; [now constructor|].
      constructor; [exact E|].
      eapply Forall_impl; [|exact F]. intros z Hz. now apply le_trans with y.
    + constructor; [exact IH|].
      assert (Hyx : le y x = true) by (destruct (le_total x y); congruence).
      eapply Permutation_Forall; [symmetry; apply insert_by_perm|].
      now constructor.
Qed.

Lemma sort_by_sorted l :
  StronglySorted (fun a b => le a b = true) (sort_by le l).
Proof.
  induction l as [|x l IH]; cbn; [constructor|].
  now apply insert_by_sorted.
Qed.

Hypothesis le_antisym : forall x y, le x y = true -> le y x = true -> x = y.

Lemma sorted_unique l1 : forall l2,
  StronglySorted (fun a b => le a b = true) l1 ->
  StronglySorted (fun a b => le a b = true) l2 ->
  Permutation l1 l2 -> l1 = l2.
Proof.
  induction l1 as [|x l1 IH]; intros l2 S1 S2 P.
  - now apply Permutation_nil in P.
  - destruct l2 as [|y l2].
    { symmetry in P. now apply Permutation_nil in P. }
    apply StronglySorted_inv in S1 as [S1 F1].
    apply StronglySorted_inv in S2 as [S2 F2].
    assert (E : x = y).
    { assert (Ix : In x (y :: l2))
        by (eapply Permutation_in; [exact P | now left]).
      assert (Iy : In y (x :: l1))
        by (eapply Permutation_in; [symmetry; exact P | now left]).
      destruct Ix as [->|Ix]; [reflexivity|].
      destruct Iy as [->|Iy]; [reflexivity|].
      rewrite Forall_forall in F1, F2.
      apply le_antisym; [now apply F1 | now apply F2]. }
    subst y. f_equal. apply IH; try assumption.
    now apply Permutation_cons_inv in P.
Qed.

(** The result of the sort depends on the elements only, not on their
    order. *)
Lemma sort_by_invariant l1 l2 :
  Permutation l1 l2 -> sort_by le l1 = sort_by le l2.
Proof.
  intro P. apply sorted_unique; try apply sort_by_sorted.
  now rewrite !sort_by_perm.
Qed.

End SortBy.

Lemma string_leb_trans (s1 : string) : forall s2 s3,
  String.leb s1 s2 = true -> String.leb s2 s3 = true ->
  String.leb s1 s3 = true.
Proof.
  unfold String.leb.
  induction s1 as [|c1 s1 IH]; intros [|c2 s2] [|c3 s3]; cbn;
    try reflexivity; try discriminate.
  unfold Ascii.compare.
  destruct (N.compare_spec (N_of_ascii c1) (N_of_ascii c2)) as [E12|L12|G12];
    try discriminate;
    destruct (N.compare_spec (N_of_ascii c2) (N_of_ascii c3)) as [E23|L23|G23];
    try discriminate;
    destruct (N.compare_spec (N_of_ascii c1) (N_of_ascii c3)) as [E13|L13|G13];
    try reflexivity; try lia.
  apply IH.
Qed.

Lemma sort_strings_invariant l1 l2 :
  Permutation l1 l2 -> sort_strings l1 = sort_strings l2.
Proof.
  apply sort_by_invariant.
  - apply String.leb_total.
  - intros x y z. apply string_leb_trans.
  - apply String.leb_antisym.
Qed.

End SortFacts.

(** ** The learning core *)

Module LearningFacts.
Import JS JSFacts SortFacts LearningCore LearningSpec.
Local Open Scope Q_scope.

Lemma hashFeatures_invariant f1 f2 ty :
  Permutation f1 f2 -> hashFeatures f1 ty = hashFeatures f2 ty.
Proof.
  intro P. unfold hashFeatures. now rewrite (sort_strings_invariant f1 f2 P).
Qed.

(** The features of one observation are distinct: each descriptor has its
    own name before the colon. *)
Lemma extractFeatures_nodup data fs :
  extractFeatures data = Some fs -> NoDup fs.
Proof.
  unfold extractFeatures.
  destruct (error_features data) as [errors|] eqn:E; [|discriminate].
  intro H. injection H as <-.
  apply (NoDup_map_inv (before_first ":")).
  assert (S : map (before_first ":") (score_features data) = ["score_band"]
              \/ map (before_first ":") (score_features data) = []).
  { unfold score_features. destruct (get data "score"); auto. }
  assert (P : map (before_first ":") (phase_features data) = ["phase"]
              \/ map (before_first ":") (phase_features data) = []).
  { unfold phase_features. destruct (get data "iteration"); auto. }
  assert (R : map (before_first ":") errors = ["errors"; "error_types"]
              \/ map (before_first ":") errors = ["errors"]
              \/ map (before_first ":") errors = []).
  { unfold error_features in E.
    destruct (get data "errors"); try (injection E as <-; auto).
    destruct (0 <? _)%nat.
    - destruct (error_types _); [|discriminate]. injection E as <-. auto.
    - injection E as <-. auto. }
  assert (C : map (before_first ":") (scale_features data) = ["scale_log2"]
              \/ map (before_first ":") (scale_features data) = []).
  { unfold scale_features. destruct (get data "scale"); auto. }
  rewrite !map_cons, !map_app.
  destruct S as [-> | ->], P as [-> | ->], R as [-> | [-> | ->]],
    C as [-> | ->]; cbn;
    repeat (constructor; [cbn; intuition discriminate|]); constructor.
Qed.

Lemma Qfloor_below_one x : x < 1 -> (Qfloor x <= 0)%Z.
Proof.
  intro H.
  assert (L : (Qfloor x < 1)%Z).
  { rewrite Zlt_Qlt. eapply Qle_lt_trans; [apply Qfloor_le | exact H]. }
  lia.
Qed.

Lemma slice_to_nothing {A} (e : Z) (x : A) :
  (e <= 0)%Z -> slice_to e [x] = [].
Proof.
  intro H. unfold slice_to.
  destruct (Z.ltb_spec e 0) as [N|N]; cbn [List.length].
  - replace (Z.to_nat (Z.of_nat 1 + e)) with 0%nat by lia. reflexivity.
  - replace e with 0%Z by lia. reflexivity.
Qed.

(** Pruning a single entry under a capacity below 1 evicts nothing. *)
Lemma prune_singleton cfg k p :
  Qltb (memorySize cfg) 1 = true ->
  pruneWeakPatterns cfg [(k, p)] = [(k, p)].
Proof.
  intro H. apply Qltb_lt in H. unfold pruneWeakPatterns.
  cbn [sort_by fold_right insert_by].
  rewrite slice_to_nothing; [reflexivity|].
  apply Qfloor_below_one. lra.
Qed.

Local Opaque hashFeatures extractFeatures sort_strings toFixed
  pruneWeakPatterns modelVersionOf.

(** The first ingest of a fresh core stores the new pattern, alone. *)
Lemma ingest_fresh cfg input now fs :
  extractFeatures (in_data input) = Some fs ->
  patterns (fst (ingest (constructor cfg) input now)) =
  [(hashFeatures fs (in_type input),
    {| id := hashFeatures fs (in_type input);
       type := in_type input;
       features := sort_strings fs;
       weight := match in_type input with
                 | success => 6 # 10
                 | failure => 4 # 10
                 end;
       seenCount := 1;
       lastSeen := now |})] /\
  config (fst (ingest (constructor cfg) input now)) = config (constructor cfg) /\
  snd (ingest (constructor cfg) input now) =
  Some {| learned := true; Types.patterns := 1;
          improvementDelta :=
            toFixed 6 (match in_type input with
                       | success => 6 # 10
                       | failure => 4 # 10
                       end);
          Types.modelVersion := modelVersionOf 1 |}.
Proof.
  intro H. unfold ingest. rewrite H.
  cbn [patterns constructor decayPatterns map lookup app List.length
       config Z.of_nat].
  destruct (Qltb _ (inject_Z _)) eqn:G.
  - rewrite prune_singleton by exact G. cbn. repeat split.
  - cbn. repeat split.
Qed.

(** An ingest that finds its pattern, the only one stored, counts it once
    more. *)
Lemma ingest_known s input now fs p :
  extractFeatures (in_data input) = Some fs ->
  patterns s = [(hashFeatures fs (in_type input), p)] ->
  exists p',
    patterns (fst (ingest s input now)) =
      [(hashFeatures fs (in_type input), p')] /\
    seenCount p' = S (seenCount p) /\ id p' = id p /\ type p' = type p.
Proof.
  intros H P. unfold ingest. rewrite H, P.
  cbn [decayPatterns map lookup fst snd].
  rewrite String.eqb_refl.
  cbn [replace]. rewrite String.eqb_refl.
  eexists. cbn [fst patterns]. split; [reflexivity|].
  cbn. repeat split.
Qed.

(** C5.  Two observations of the same class that have the same set of
    extracted features derive the same identifier, and a fresh core that
    ingests both holds exactly one pattern, with occurrence count 2. *)
Theorem same_features_one_pattern (cfg : PartialConfig) (ty : OutcomeType)
  (d1 d2 : list (string * value)) (i1 i2 t1 t2 : Z) (f1 f2 : list string) :
  extractFeatures d1 = Some f1 ->
  extractFeatures d2 = Some f2 ->
  (forall feature, In feature f1 <-> In feature f2) ->
  let s :=
    ingest_all (constructor cfg)
      [({| in_type := ty; in_data := d1; in_iteration := i1 |}, t1);
       ({| in_type := ty; in_data := d2; in_iteration := i2 |}, t2)] in
  hashFeatures f1 ty = hashFeatures f2 ty /\
  exists p,
    patterns s = [(hashFeatures f1 ty, p)] /\
    id p = hashFeatures f1 ty /\ type p = ty /\ seenCount p = 2%nat.
Proof.
  intros E1 E2 Same s.
  assert (P : Permutation f1 f2).
  { apply NoDup_Permutation; [| |exact Same].
    - exact (extractFeatures_nodup d1 f1 E1).
    - exact (extractFeatures_nodup d2 f2 E2). }
  pose proof (hashFeatures_invariant f1 f2 ty P) as Hid.
  split; [exact Hid|].
  subst s. unfold ingest_all. cbn [fold_left fst snd].
  destruct (ingest_fresh cfg
              {| in_type := ty; in_data := d1; in_iteration := i1 |} t1 f1 E1)
    as (P1 & _ & _).
  cbn [in_type] in P1. rewrite Hid in P1.
  destruct (ingest_known _ {| in_type := ty; in_data := d2; in_iteration := i2 |}
              t2 f2 _ E2 P1)
    as (p' & P2 & C & I & T).
  cbn [in_type] in P2.
  exists p'. rewrite Hid. repeat split; assumption.
Qed.

Lemma same_features_one_pattern_witness :
  let d1 := [("score", VNumber (Fin 1)); ("errors", VArray [])] in
  let d2 := [("errors", VArray []); ("score", VNumber (Fin 1))] in
  let fs := ["keys:2"; "type_sig:errors|score"; "score_band:high"; "errors:0"] in
  let s :=
    ingest_all (constructor noConfig)
      [({| in_type := success; in_data := d1; in_iteration := 1 |}, 0%Z);
       ({| in_type := success; in_data := d2; in_iteration := 2 |}, 5000%Z)] in
  exists p, patterns s = [(hashFeatures fs success, p)] /\ seenCount p = 2%nat.
Proof.
  intros d1 d2 fs s.
  assert (E1 : extractFeatures d1 = Some fs) by (vm_compute; reflexivity).
  assert (E2 : extractFeatures d2 = Some fs) by (vm_compute; reflexivity).
  destruct (same_features_one_pattern noConfig success d1 d2 1 2 0 5000 fs fs
              E1 E2 (fun feature => iff_refl (In feature fs)))
    as (_ & p & H1 & _ & _ & H2).
  exists p. split; assumption.
Defined.

(** *** The capacity *)

Local Transparent pruneWeakPatterns.

Lemma keys_decay cfg m : map fst (decayPatterns cfg m) = map fst m.
Proof.
  unfold decayPatterns. rewrite map_map. reflexivity.
Qed.

Lemma decay_length cfg m : List.length (decayPatterns cfg m) = List.length m.
Proof. unfold decayPatterns. apply length_map. Qed.

Lemma lookup_none k m : lookup k m = None -> ~ In k (map fst m).
Proof.
  induction m as [|[k' p] m IH]; cbn; [tauto|].
  destruct (String.eqb_spec k' k); [discriminate|].
  intros H [E|I]; [congruence | now apply IH].
Qed.

Lemma replace_keys k p m : map fst (replace k p m) = map fst m.
Proof.
  induction m as [|[k' q] m IH]; cbn; [reflexivity|].
  destruct (String.eqb k' k); cbn; [reflexivity | now rewrite IH].
Qed.

Lemma replace_length k p m : List.length (replace k p m) = List.length m.
Proof.
  rewrite <- (length_map fst), replace_keys. apply length_map.
Qed.

Lemma delete_keys k k' m :
  In k' (map fst (delete k m)) <-> In k' (map fst m) /\ k' <> k.
Proof.
  unfold delete. induction m as [|[j p] m IH]; cbn; [tauto|].
  destruct (String.eqb_spec j k); cbn; rewrite IH; intuition congruence.
Qed.

Lemma delete_nodup k m : NoDup (map fst m) -> NoDup (map fst (delete k m)).
Proof.
  induction m as [|[j p] m IH]; cbn; [auto|].
  intro N. inversion N as [|? ? NI N']; subst.
  destruct (String.eqb_spec j k); cbn; [now apply IH|].
  constructor; [|now apply IH].
  intro I. apply (delete_keys k j m) in I. tauto.
Qed.

Lemma delete_absent k m : ~ In k (map fst m) -> delete k m = m.
Proof.
  unfold delete. induction m as [|[j p] m IH]; cbn; [reflexivity|].
  intro N. destruct (String.eqb_spec j k); cbn; [tauto|].
  rewrite IH; tauto.
Qed.

Lemma delete_length k m :
  NoDup (map fst m) -> In k (map fst m) ->
  S (List.length (delete k m)) = List.length m.
Proof.
  induction m as [|[j p] m IH]; cbn; [tauto|].
  intros N I. inversion N as [|? ? NI N']; subst.
  destruct (String.eqb_spec j k); cbn.
  - subst j. fold (delete k m). now rewrite delete_absent.
  - fold (delete k m). destruct I as [E|I]; [congruence|].
    now rewrite IH.
Qed.

Lemma delete_all_length rem : forall m,
  NoDup (map fst rem) -> NoDup (map fst m) ->
  incl (map fst rem) (map fst m) ->
  (List.length (fold_left (fun acc (e : string * LearnedPattern) => delete (fst e) acc)
                  rem m)
   + List.length rem = List.length m)%nat.
Proof.
  induction rem as [|[k p] rem IH]; intros m Nr Nm I; cbn; [lia|].
  inversion Nr as [|? ? NI Nr']; subst.
  rewrite <- (delete_length k m Nm) by (apply I; now left).
  rewrite <- (IH (delete k m)); [lia | exact Nr' | now apply delete_nodup |].
  intros j Hj. apply delete_keys. split.
  - apply I. now right.
  - intro E. subst j. contradiction.
Qed.

Lemma delete_all_nodup rem : forall m,
  NoDup (map fst m) ->
  NoDup (map fst (fold_left (fun acc (e : string * LearnedPattern) => delete (fst e) acc)
                  rem m)).
Proof.
  induction rem as [|e rem IH]; intros m N; cbn; [exact N|].
  apply IH. now apply delete_nodup.
Qed.

Lemma firstn_In {A} n (l : list A) x : In x (firstn n l) -> In x l.
Proof.
  revert n. induction l as [|y l IH]; intros [|n]; cbn; try tauto.
  intros [E|I]; [now left | right; now apply (IH n)].
Qed.

Lemma firstn_keys_nodup {A B} n (l : list (A * B)) :
  NoDup (map fst l) -> NoDup (map fst (firstn n l)).
Proof.
  revert n. induction l as [|x l IH]; intros [|n] N; cbn; try constructor.
  - inversion N as [|? ? NI N']; subst. intro I. apply NI.
    rewrite in_map_iff in *. destruct I as (y & E & I).
    exists y. split; [exact E | now apply (firstn_In n)].
  - inversion N; subst. now apply IH.
Qed.

Lemma slice_to_keys_nodup e (l : list (string * LearnedPattern)) :
  NoDup (map fst l) -> NoDup (map fst (slice_to e l)).
Proof.
  unfold slice_to. destruct (e <? 0)%Z; apply firstn_keys_nodup.
Qed.

Lemma slice_to_In {A} e (l : list A) x : In x (slice_to e l) -> In x l.
Proof.
  unfold slice_to. destruct (e <? 0)%Z; apply firstn_In.
Qed.

Lemma slice_to_length {A} e (l : list A) :
  (1 <= e)%Z -> (1 <= List.length l)%nat ->
  (1 <= List.length (slice_to e l))%nat.
Proof.
  intros He Hl. unfold slice_to.
  destruct (Z.ltb_spec e 0); [lia|].
  rewrite length_firstn. lia.
Qed.

(** Pruning keeps the keys distinct, and under a capacity of 10 or more it
    evicts at least one pattern. *)
Lemma prune_nodup cfg m :
  NoDup (map fst m) -> NoDup (map fst (pruneWeakPatterns cfg m)).
Proof.
  intro N. unfold pruneWeakPatterns. now apply delete_all_nodup.
Qed.

Lemma prune_evicts cfg m :
  10 <= memorySize cfg -> NoDup (map fst m) -> (1 <= List.length m)%nat ->
  (S (List.length (pruneWeakPatterns cfg m)) <= List.length m)%nat.
Proof.
  intros C N L. unfold pruneWeakPatterns.
  set (sorted := sort_by _ m).
  set (toRemove := slice_to _ sorted).
  assert (P : Permutation sorted m) by apply sort_by_perm.
  assert (Ns : NoDup (map fst sorted)).
  { eapply Permutation_NoDup; [|exact N].
    apply Permutation_map. now symmetry. }
  assert (E : (1 <= Qfloor (memorySize cfg * (1 # 10)))%Z).
  { rewrite <- (Qfloor_Z 1) at 1. apply Qfloor_resp_le.
    change (inject_Z 1) with 1. lra. }
  assert (R : (1 <= List.length toRemove)%nat).
  { apply slice_to_length; [exact E|].
    subst sorted. now rewrite sort_by_length. }
  pose proof (delete_all_length toRemove m
                (slice_to_keys_nodup _ sorted Ns) N) as D.
  cbv zeta in D. rewrite <- D; [lia|].
  intros k Hk. apply in_map_iff in Hk as (x & <- & Hx).
  apply in_map. eapply Permutation_in; [exact P|].
  subst toRemove. eapply slice_to_In, Hx.
Qed.

Local Opaque pruneWeakPatterns.

Lemma ingest_config s input now :
  config (fst (ingest s input now)) = config s.
Proof.
  unfold ingest. destruct (extractFeatures _); [|reflexivity].
  destruct (lookup _ _); reflexivity.
Qed.

Lemma ingest_keys_distinct s input now :
  keys_distinct s -> keys_distinct (fst (ingest s input now)).
Proof.
  unfold keys_distinct, ingest. intro N.
  destruct (extractFeatures _) as [fs|]; [|exact N].
  destruct (lookup _ _) as [p|] eqn:L; cbn [fst patterns].
  - now rewrite replace_keys, keys_decay.
  - assert (A : NoDup (map fst (decayPatterns (config s) (patterns s)
                                ++ [(hashFeatures fs (in_type input),
                                     {| id := hashFeatures fs (in_type input);
                                        type := in_type input;
                                        features := sort_strings fs;
                                        weight := match in_type input with
                                                  | success => 6 # 10
                                                  | failure => 4 # 10
                                                  end;
                                        seenCount := 1; lastSeen := now |})]))).
    { rewrite map_app. cbn [map fst].
      apply NoDup_app; [now rewrite keys_decay | repeat constructor; auto |].
      intros k Hk [<-|[]]. now apply lookup_none in L. }
    destruct (Qltb _ _); [now apply prune_nodup | exact A].
Qed.

Lemma ingest_within_capacity s input now :
  10 <= memorySize (config s) -> keys_distinct s ->
  within_capacity s -> within_capacity (fst (ingest s input now)).
Proof.
  unfold within_capacity, size, keys_distinct. intros C N W.
  rewrite ingest_config. unfold ingest.
  destruct (extractFeatures _) as [fs|]; [|exact W].
  destruct (lookup _ _) as [p|] eqn:L; cbn [fst patterns].
  - now rewrite replace_length, decay_length.
  - set (added := (decayPatterns (config s) (patterns s) ++ _)%list).
    assert (La : List.length added = S (List.length (patterns s))).
    { subst added. rewrite length_app, decay_length. cbn. lia. }
    assert (Na : NoDup (map fst added)).
    { subst added. rewrite map_app. cbn [map fst].
      apply NoDup_app; [now rewrite keys_decay | repeat constructor; auto |].
      intros k Hk [<-|[]]. now apply lookup_none in L. }
    destruct (Qltb _ _) eqn:G.
    + pose proof (prune_evicts (config s) added C Na ltac:(lia)) as E.
      eapply Qle_trans; [|exact W].
      rewrite <- Zle_Qle. lia.
    + now apply Qltb_ge in G.
Qed.

Lemma ingest_all_within_capacity inputs : forall s,
  10 <= memorySize (config s) -> keys_distinct s ->
  within_capacity s -> within_capacity (ingest_all s inputs).
Proof.
  induction inputs as [|[i now] rest IH]; intros s C N W; [exact W|].
  change (ingest_all s ((i, now) :: rest))
    with (ingest_all (fst (ingest s i now)) rest).
  apply IH.
  - now rewrite ingest_config.
  - now apply ingest_keys_distinct.
  - now apply ingest_within_capacity.
Qed.

(** From a capacity of 10 on, a core never holds more patterns than its
    capacity, whatever it ingests. *)
Lemma capacity_respected_from_ten (cfg : PartialConfig)
  (inputs : list (IngestInput * Z)) :
  10 <= memorySize (config (constructor cfg)) ->
  within_capacity (ingest_all (constructor cfg) inputs).
Proof.
  intro C. apply ingest_all_within_capacity; [exact C | constructor |].
  unfold within_capacity, size. cbn [patterns constructor List.length].
  change (inject_Z (Z.of_nat 0)) with 0. lra.
Qed.

(** C4 fails on the code for a capacity below 10.  With capacity 5, the
    sixth of six ingests of distinct patterns finds 6 patterns stored, more
    than the capacity, and prunes: the pruning evicts floor(5 * 0.1) = 0
    patterns, and the core is left with 6. *)
Theorem capacity_five_overflows :
  let s5 := ingest_all (constructor (capacity (5 # 1)))
              (firstn 5 six_observations) in
  let s6 := ingest_all (constructor (capacity (5 # 1))) six_observations in
  size s5 = 5%nat /\
  size s6 = 6%nat /\
  memorySize (config s6) < inject_Z (Z.of_nat (size s6)) /\
  pruneWeakPatterns (config s6) (patterns s6) = patterns s6.
Proof.
  vm_compute. repeat split.
Qed.

End LearningFacts.

(** ** The end-to-end scenario *)

Module ScenarioFacts.
Import JS JSFacts GateSpec GateFacts ScalingSpec ScalingFacts LearningFacts.
Local Open Scope Q_scope.

(** A fresh scaling engine does nothing at iteration 1 while the pass
    streak is below 3. *)
Lemma fresh_engine_no_event (score : Q) (history : list LoopIteration) :
  let e := ScalingEngine.constructor ScalingEngine.noPolicy in
  let input :=
    {| ScalingEngine.in_score := score; ScalingEngine.in_iteration := 1;
       ScalingEngine.in_history := history |} in
  ScalingEngine.count
    (ScalingEngine.passStreak (ScalingEngine.updateStreaks history e)) < 3 ->
  ScalingEngine.scale e input =
  (ScalingEngine.updateStreaks history e,
   {| scaled := false; previousScale := 1; newScale := 1;
      reason := "No scaling event" |}).
Proof.
  intros e input H.
  assert (G : up_guard (ScalingEngine.updateStreaks
                          (ScalingEngine.in_history input) e) input = false).
  { unfold up_guard. rewrite updateStreaks_policy. cbn [ScalingEngine.in_history input].
    apply Qleb_gt in H. cbn in H |- *. now rewrite H. }
  assert (D : decay_guard (ScalingEngine.updateStreaks
                             (ScalingEngine.in_history input) e) = false).
  { unfold decay_guard. rewrite updateStreaks_scale. cbn.
    now rewrite andb_false_r. }
  rewrite (scale_none_eq e _ input eq_refl G D eq_refl).
  now rewrite updateStreaks_scale.
Qed.

(** C8 (as amended).  With threshold 0.85, three stages and strict mode, a
    snapshot with iteration 1, scale 1, a valid node id, avgConfidence 0.9,
    successRate 1.0, avgROI 10, a fresh timestamp and a learner version of
    the form digits.digits passes the three stages with score 1.0; a fresh
    scaling engine then reports no event while the pass streak is below 3;
    and a fresh learning core that ingests a success stores exactly one
    pattern, a success pattern of weight 0.6. *)
Theorem end_to_end_scenario (payload : VERI3FY.Payload) (now : Z)
  (node version : string) (ts : Q) :
  get payload "iteration" = VNumber (Fin 1) ->
  get payload "scale" = VNumber (Fin 1) ->
  get payload "ark95xNode" = VString node ->
  valid_node node = true ->
  get payload "avgConfidence" = VNumber (Fin (9 # 10)) ->
  get payload "successRate" = VNumber (Fin 1) ->
  get payload "avgROI" = VNumber (Fin (10 # 1)) ->
  get payload "timestamp" = VNumber (Fin ts) ->
  0 < ts ->
  inject_Z now - ts <= 60000 # 1 ->
  get payload "learnerVersion" = VString version ->
  matches_version version = true ->
  let r := snd (VERI3FY.verify strict_gate payload now) in
  (stage1_syntax r = true /\ stage2_logic r = true /\
   stage3_sovereignty r = true /\ score r == 1 /\ passed r = true /\
   errors r = []) /\
  (forall history,
     ScalingEngine.count
       (ScalingEngine.passStreak
          (ScalingEngine.updateStreaks history
             (ScalingEngine.constructor ScalingEngine.noPolicy))) < 3 ->
     let sr :=
       snd (ScalingEngine.scale
              (ScalingEngine.constructor ScalingEngine.noPolicy)
              {| ScalingEngine.in_score := score r;
                 ScalingEngine.in_iteration := 1;
                 ScalingEngine.in_history := history |}) in
     scaled sr = false /\ reason sr = "No scaling event" /\
     newScale sr = previousScale sr) /\
  (forall data t fs,
     LearningCore.extractFeatures data = Some fs ->
     let out :=
       LearningCore.ingest (LearningCore.constructor LearningCore.noConfig)
         {| LearningCore.in_type := LearningCore.success;
            LearningCore.in_data := data;
            LearningCore.in_iteration := 1 |} t in
     exists p,
       LearningCore.patterns (fst out) =
         [(LearningCore.hashFeatures fs LearningCore.success, p)] /\
       LearningCore.type p = LearningCore.success /\
       LearningCore.weight p == 6 # 10 /\
       LearningCore.seenCount p = 1%nat /\
       exists lr, snd out = Some lr /\ patterns lr = 1%nat /\
                  improvementDelta lr == 6 # 10).
Proof.
  intros Hi Hs Hn Hv Hc Hr Ho Ht Hp Hf Hl Hm r.
  assert (R := scenario_verify payload now node version ts
                 Hi Hs Hn Hv Hc Hr Ho Ht Hp Hf Hl Hm).
  fold r in R. rewrite R. cbn [stage1_syntax stage2_logic stage3_sovereignty
                               score passed errors].
  split; [|split].
  - repeat split.
  - intros history H.
    rewrite (fresh_engine_no_event _ history H). cbn. repeat split.
  - intros data t fs E.
    destruct (ingest_fresh LearningCore.noConfig
                {| LearningCore.in_type := LearningCore.success;
                   LearningCore.in_data := data;
                   LearningCore.in_iteration := 1 |} t fs E)
      as (P & _ & L).
    eexists. split; [exact P|]. cbn. repeat split.
    eexists. split; [exact L|]. cbn. split; [reflexivity|].
    vm_compute. reflexivity.
Qed.

Lemma end_to_end_scenario_witness :
  let r := snd (VERI3FY.verify strict_gate (full_snapshot some_time) some_time) in
  (stage1_syntax r = true /\ stage2_logic r = true /\
   stage3_sovereignty r = true /\ score r == 1 /\ passed r = true) /\
  scaled (snd (ScalingEngine.scale
                 (ScalingEngine.constructor ScalingEngine.noPolicy)
                 {| ScalingEngine.in_score := score r;
                    ScalingEngine.in_iteration := 1;
                    ScalingEngine.in_history := [iteration_with Passed] |}))
  = false.
Proof.
  intro r.
  destruct (end_to_end_scenario (full_snapshot some_time) some_time
              "SLVSS-ARK95X-v2" "1.0" (inject_Z some_time))
    as ((S1 & S2 & S3 & Sc & Pa & _) & Hscale & _);
    try reflexivity.
  - vm_compute. discriminate.
  - split; [repeat split; assumption|].
    apply (Hscale [iteration_with Passed]). vm_compute. reflexivity.
Defined.

(** C8 as stated fails: the snapshot that holds the listed fields and no
    more lacks the learner version, and stages 1 and 3 reject it. *)
Lemma scenario_needs_learner_version :
  let payload := listed_snapshot some_time in
  let r := snd (VERI3FY.verify strict_gate payload some_time) in
  (get payload "iteration" = VNumber (Fin 1) /\
   get payload "scale" = VNumber (Fin 1) /\
   get payload "ark95xNode" = VString "SLVSS-ARK95X-v2" /\
   valid_node "SLVSS-ARK95X-v2" = true /\
   get payload "avgConfidence" = VNumber (Fin (9 # 10)) /\
   get payload "successRate" = VNumber (Fin 1) /\
   get payload "avgROI" = VNumber (Fin (10 # 1)) /\
   get payload "timestamp" = VNumber (Fin (inject_Z some_time))) /\
  stage1_syntax r = false /\ stage2_logic r = true /\
  stage3_sovereignty r = false /\ passed r = false /\
  errors r = ["STAGE1: Missing required field: learnerVersion";
              "STAGE3: Invalid learner version: undefined"].
Proof.
  vm_compute. repeat split.
Qed.

End ScenarioFacts.

(** ** Bounded logs *)

Module BoundedFacts.

Lemma push_bounded_last {A} n (l : list A) x d :
  (0 < n)%nat -> last (push_bounded n l x) d = x.
Proof.
  intro N. unfold push_bounded.
  destruct (n <? List.length (l ++ [x]))%nat eqn:E.
  - destruct l as [|y l]; cbn [app tl].
    + apply Nat.ltb_lt in E. cbn in E. lia.
    + apply last_last.
  - apply last_last.
Qed.

End BoundedFacts.

(** ** The stages of the gate *)

Module StageFacts.
Import JS JSFacts ToFixedFacts VERI3FY GateSpec StageSpec.
Local Open Scope Q_scope.

(** *** One check of a stage *)

Lemma rejected_now msg st : rejected msg (reject msg st).
Proof.
  split; [reflexivity|]. cbn. apply in_or_app. right. now left.
Qed.

Lemma rejected_check (c : bool) msg msg' st :
  rejected msg st -> rejected msg (if c then reject msg' st else st).
Proof.
  intros [F I]. destruct c; [|now split].
  split; [reflexivity|]. cbn. apply in_or_app. now left.
Qed.

Lemma rejected_warn (c : bool) msg msg' st :
  rejected msg st -> rejected msg (if c then warn msg' st else st).
Proof.
  intros [F I]. destruct c; [|now split].
  split; [exact F|]. cbn. apply in_or_app. now left.
Qed.

Lemma check_true (c : bool) msg st :
  fst (if c then reject msg st else st) = true <-> c = false /\ fst st = true.
Proof.
  destruct c; cbn; split; try tauto; try easy.
Qed.






(** *** Stage 1 *)

Lemma missing_in_loop payload field fields st :
  rejected (missing field) st \/
  (In field fields /\ is_nullish (get payload field) = true) ->
  rejected (missing field)
    (fold_left
       (fun st field =>
          if is_nullish (get payload field)
          then reject ("STAGE1: Missing required field: " ++ field) st
          else st)
       fields st).
Proof.
  revert st. induction fields as [|f fields IH]; intros st H; cbn [fold_left].
  - destruct H as [H | [[] _]]. exact H.
  - apply IH. destruct H as [H | [[-> | I] N]].
    + left. now apply rejected_check.
    + left. rewrite N. apply rejected_now.
    + right. now split.
Qed.

(** X1.  Stage 1 fails on a payload in which one of the five required
    fields (iteration, scale, learnerVersion, timestamp, ark95xNode) is
    absent, [undefined] or [null], and the errors it returns hold the
    message that names the field. *)
Theorem stage1_reports_missing_field (payload : Payload)
  (errors : list string) (field : string) :
  In field required ->
  is_nullish (get payload field) = true ->
  rejected (missing field) (stage1_syntax payload errors).
Proof.
  intros I N. unfold stage1_syntax. cbv zeta.
  do 4 apply rejected_check.
  apply missing_in_loop. right. now split.
Qed.

Lemma stage1_reports_missing_field_witness :
  rejected "STAGE1: Missing required field: scale"
    (stage1_syntax [("iteration", VNumber (Fin 1))] []).
Proof.
  apply (stage1_reports_missing_field [("iteration", VNumber (Fin 1))] []
           "scale").
  - cbn. tauto.
  - reflexivity.
Defined.

Lemma stage1_accepts payload errors :
  well_typed payload -> fst (stage1_syntax payload errors) = true.
Proof.
  unfold stage1_syntax, required, well_typed. cbv zeta. cbn [fold_left].
  intros (i & sc & ts & node & -> & Hi & -> & Hs & -> & Hn & -> & Ht & Hv).
  rewrite Hv. unfold lt_lit.
  cbn [is_nullish is_number is_string negb orb ToString ToNumber].
  now rewrite Hi, Hs, Hn, Ht.
Qed.

(** X2.  Stage 1 succeeds exactly on the payloads in which iteration is a
    number that is not below 0, scale a number that is not below 1,
    ark95xNode a string that contains ARK95X, timestamp a number that is
    not at or below 0, and learnerVersion is neither [undefined] nor
    [null]; the comparisons are those of JavaScript, which a [NaN] passes. *)
Theorem stage1_accepts_well_typed (payload : Payload) (errors : list string) :
  fst (stage1_syntax payload errors) = true <-> well_typed payload.
Proof.
  split; [|apply stage1_accepts].
  unfold stage1_syntax, required, well_typed. cbv zeta. cbn [fold_left].
  intro H.
  repeat (apply check_true in H; destruct H as [? H]).
  repeat match goal with
         | C : (_ || _)%bool = false |- _ =>
             apply orb_false_elim in C; destruct C
         | C : negb _ = false |- _ => apply negb_false_iff in C
         end.
  destruct (get payload "iteration") as [| | |i| | |] eqn:Ei;
    try discriminate.
  destruct (get payload "scale") as [| | |sc| | |] eqn:Es;
    try discriminate.
  destruct (get payload "timestamp") as [| | |ts| | |] eqn:Et;
    try discriminate.
  destruct (get payload "ark95xNode") as [| | | |node| |] eqn:En;
    try discriminate.
  exists i, sc, ts, node. repeat split; assumption.
Qed.

(** A payload whose iteration and timestamp are [NaN] passes stage 1. *)
Example stage1_accepts_nan :
  stage1_syntax nan_snapshot [] = (true, []).
Proof. vm_compute. reflexivity. Qed.

(** *** The errors of a stage *)





(** *** Stage 2 *)



(** A payload verified 61 seconds after its timestamp. *)
Example stale_by_a_second :
  rejected "STAGE2: Payload timestamp is stale (61.0s old)"
    (stage2_logic [("timestamp", VString "1000")] 62000 []).
Proof. vm_compute. split; [reflexivity | now left]. Qed.

(** *** The verdict *)

Lemma verify_score_bounds s payload now :
  0 <= score (snd (verify s payload now)) <= 1.
Proof.
  unfold verify.
  destruct (stage1_syntax payload []) as [s1 e1].
  destruct (stages (config s) <? 2)%Z.
  { cbn. destruct s1; vm_compute; split; discriminate. }
  destruct (stage2_logic payload now e1) as [s2 e2].
  destruct (stages (config s) <? 3)%Z.
  { cbn. destruct s1, s2; vm_compute; split; discriminate. }
  destruct (stage3_sovereignty payload e2) as [s3 e3].
  cbn. destruct s1, s2, s3; vm_compute; split; discriminate.
Qed.


(** X6.  With a threshold of at most 1, a verification of depth 1, or a
    strict one of depth 3, passes exactly when its score is the whole
    weight that its depth can reach, 0.35 and 1; with a threshold of at
    most 0.99 a verification of depth 2 passes exactly when both its
    stages have. *)
Theorem verify_passes_on_full_weight (s : t) (payload : Payload) (now : Z) :
  let r := snd (verify s payload now) in
  (threshold (config s) <= 1 ->
   (stages (config s) < 2)%Z \/
   (3 <= stages (config s))%Z /\ strictMode (config s) = true ->
   (passed r = true <-> score r == available (stages (config s)))) /\
  (threshold (config s) <= 99 # 100 ->
   (2 <= stages (config s) < 3)%Z ->
   (passed r = true <->
    Types.stage1_syntax r = true /\ Types.stage2_logic r = true)).
Proof.
  intro r. subst r. split.
  - intros T M. unfold verify, available.
    assert (A : forall w, 0 <= w -> Qleb (threshold (config s) * w) w = true).
    { intros w W. apply Qleb_le. rewrite <- (Qmult_1_l w) at 2.
      now apply Qmult_le_compat_r. }
    assert (B : Qleb (threshold (config s))
                  (toFixed 4 ((35 # 100) + (30 # 100) + (35 # 100))) = true).
    { apply Qleb_le. apply Qle_trans with 1; [exact T|].
      vm_compute. discriminate. }
    destruct (stage1_syntax payload []) as [s1 e1].
    destruct (stages (config s) <? 2)%Z eqn:D2.
    { cbn. destruct s1; cbn.
      - rewrite A by discriminate. split; reflexivity.
      - split; discriminate. }
    apply Z.ltb_ge in D2.
    destruct M as [M | [M S]]; [lia|].
    destruct (stage2_logic payload now e1) as [s2 e2].
    replace (stages (config s) <? 3)%Z with false
      by (symmetry; now apply Z.ltb_ge).
    destruct (stage3_sovereignty payload e2) as [s3 e3].
    cbn [snd passed score]. rewrite S.
    destruct s1, s2, s3; cbn [andb];
      try (split; [discriminate | intro H; vm_compute in H; discriminate H]).
    rewrite B. split; [intros _; vm_compute|]; reflexivity.
  - intros T [D2 D3]. unfold verify.
    assert (A2 : Qleb (threshold (config s) * (65 # 100))
                   ((35 # 100) + (30 # 100)) = true).
    { apply Qleb_le. apply Qle_trans with (1 * (65 # 100)).
      - apply Qmult_le_compat_r; [|discriminate].
        apply Qle_trans with (99 # 100); [exact T | discriminate].
      - vm_compute. discriminate. }
    destruct (stage1_syntax payload []) as [s1 e1].
    replace (stages (config s) <? 2)%Z with false
      by (symmetry; now apply Z.ltb_ge).
    destruct (stage2_logic payload now e1) as [s2 e2].
    replace (stages (config s) <? 3)%Z with true
      by (symmetry; now apply Z.ltb_lt).
    cbn. destruct s1, s2; cbn;
      try (split; [discriminate | intros [? ?]; discriminate]).
    rewrite A2. repeat split.
Qed.

Lemma verify_passes_on_full_weight_witness :
  passed (snd (verify strict_gate (full_snapshot some_time) some_time)) = true
  <-> score (snd (verify strict_gate (full_snapshot some_time) some_time))
      == available (stages (config strict_gate)).
Proof.
  apply (verify_passes_on_full_weight strict_gate (full_snapshot some_time)
           some_time).
  - vm_compute. discriminate.
  - right. split; [vm_compute; discriminate | reflexivity].
Defined.

(** *** The counters *)

Lemma verify_counted s payload now :
  fst (verify s payload now) =
  counted s (passed (snd (verify s payload now))).
Proof.
  unfold verify.
  destruct (stage1_syntax payload []) as [s1 e1].
  destruct (stages (config s) <? 2)%Z; [reflexivity|].
  destruct (stage2_logic payload now e1) as [s2 e2].
  destruct (stages (config s) <? 3)%Z; [reflexivity|].
  destruct (stage3_sovereignty payload e2) as [s3 e3]. reflexivity.
Qed.

Lemma verify_all_counts s calls :
  (passCount s <= verifyCount s)%nat ->
  verifyCount (verify_all s calls) = (verifyCount s + List.length calls)%nat /\
  (passCount (verify_all s calls) <= verifyCount (verify_all s calls))%nat.
Proof.
  unfold verify_all. revert s.
  induction calls as [|c calls IH]; intros s H; cbn [fold_left List.length].
  - split; [lia | exact H].
  - destruct (IH (fst (verify s (fst c) (snd c)))) as [E L].
    + rewrite verify_counted. unfold counted. cbn.
      destruct (passed _); lia.
    + split; [|exact L]. rewrite E, verify_counted. cbn. lia.
Qed.

(** X7.  After any sequence of verifications a gate has counted every
    call, has counted no more passes than calls, and reports a pass rate
    between 0 and 1. *)
Theorem verify_all_pass_rate (c : PartialConfig) (calls : list (Payload * Z)) :
  let s := verify_all (constructor c) calls in
  verifyCount s = List.length calls /\
  (passCount s <= verifyCount s)%nat /\
  0 <= passRate s <= 1.
Proof.
  destruct (verify_all_counts (constructor c) calls) as [E L]; [cbn; lia|].
  cbv zeta. split; [exact E|]. split; [exact L|].
  unfold passRate. destruct (0 <? verifyCount _)%nat eqn:P.
  - apply Nat.ltb_lt in P.
    assert (V : 0 < inject_Z (Z.of_nat (verifyCount (verify_all (constructor c) calls)))).
    { rewrite <- (Zlt_Qlt 0). lia. }
    split.
    + apply Qle_shift_div_l; [exact V|]. rewrite Qmult_0_l.
      rewrite <- (Zle_Qle 0). lia.
    + apply Qle_shift_div_r; [exact V|]. rewrite Qmult_1_l.
      rewrite <- Zle_Qle. lia.
  - split; discriminate.
Qed.

End StageFacts.

(** ** Streaks and events of the scaling engine *)

Module StreakFacts.
Import JS JSFacts ToFixedFacts ScalingEngine ScalingSpec ScalingFacts StreakSpec.
Local Open Scope Q_scope.

(** *** The streaks *)

Lemma countStreaks_passing l : forall p,
  countStreaks l (S p) 0 = (S p + run_length is_pass l, 0)%nat.
Proof.
  induction l as [|x l IH]; intro p; cbn [countStreaks run_length].
  - now rewrite Nat.add_0_r.
  - unfold is_pass. destruct (status x); cbn [Nat.eqb];
      rewrite ?IH, ?Nat.add_0_r, ?Nat.add_succ_r; reflexivity.
Qed.

Lemma countStreaks_failing l : forall f,
  countStreaks l 0 (S f) = (0, S f + run_length is_fail l)%nat.
Proof.
  induction l as [|x l IH]; intro f; cbn [countStreaks run_length].
  - now rewrite Nat.add_0_r.
  - unfold is_fail. destruct (status x); cbn [Nat.eqb];
      rewrite ?IH, ?Nat.add_0_r, ?Nat.add_succ_r; reflexivity.
Qed.

Lemma countStreaks_runs l :
  countStreaks l 0 0 = (run_length is_pass l, run_length is_fail l).
Proof.
  destruct l as [|x l]; [reflexivity|].
  cbn [countStreaks run_length]. unfold is_pass, is_fail.
  destruct (status x); cbn [Nat.eqb];
    rewrite ?countStreaks_passing, ?countStreaks_failing; reflexivity.
Qed.

Lemma run_length_firstn {A} (p : A -> bool) n : forall l,
  run_length p (firstn n l) = Nat.min n (run_length p l).
Proof.
  induction n as [|n IH]; intros [|x l]; try reflexivity.
  cbn [firstn run_length]. destruct (p x); [|reflexivity].
  now rewrite IH.
Qed.

Lemma run_length_exclusive (l : list LoopIteration) :
  run_length is_pass l = 0%nat \/ run_length is_fail l = 0%nat.
Proof.
  destruct l as [|x l]; [now left|].
  cbn. unfold is_pass, is_fail. destruct (status x); tauto.
Qed.

Lemma rev_slice_last {A} n (l : list A) :
  rev (slice_last n l) = firstn n (rev l).
Proof.
  unfold slice_last. now rewrite firstn_rev.
Qed.

(** X8.  On a history that is not empty the streak analysis sets the pass
    streak to the number of passed or scaled iterations that end the
    history and the fail streak to the number of failed iterations that
    end it, each counted up to ten; one of the two is 0. *)
Theorem streaks_are_trailing_runs (history : list LoopIteration) (s : t) :
  history <> [] ->
  let s' := updateStreaks history s in
  passStreak s' = Nat.min 10 (trailing is_pass history) /\
  failStreak s' = Nat.min 10 (trailing is_fail history) /\
  (passStreak s' = 0%nat \/ failStreak s' = 0%nat).
Proof.
  intro N. unfold updateStreaks, trailing.
  destruct history as [|x h]; [congruence|].
  rewrite countStreaks_runs, rev_slice_last, !run_length_firstn.
  cbn [passStreak failStreak]. repeat split.
  destruct (run_length_exclusive (rev (x :: h))) as [-> | ->];
    rewrite Nat.min_0_r; tauto.
Qed.

Lemma streaks_are_trailing_runs_witness :
  let s' := updateStreaks (iteration_with Failed :: three_passes)
              (constructor noPolicy) in
  passStreak s' = Nat.min 10 (trailing is_pass
                                (iteration_with Failed :: three_passes)) /\
  failStreak s' = Nat.min 10 (trailing is_fail
                                (iteration_with Failed :: three_passes)) /\
  (passStreak s' = 0%nat \/ failStreak s' = 0%nat).
Proof.
  apply (streaks_are_trailing_runs (iteration_with Failed :: three_passes)
           (constructor noPolicy)).
  discriminate.
Defined.

(** *** The event log *)

Lemma scale_log_length s0 input :
  (List.length (scaleHistory s0) <= 50)%nat ->
  (List.length (scaleHistory (fst (scale s0 input))) <= 50)%nat.
Proof.
  intro H.
  scale_cases s0 input; cbn [fst with_scale scaleHistory];
    try (apply RunnerFacts.push_bounded_length);
    now rewrite updateStreaks_log.
Qed.

(** X9.  After any sequence of calls from the initial state, under any
    policy, the event log of the engine holds at most 50 events. *)
Theorem scale_log_bounded (p : PartialScalePolicy) (inputs : list ScaleInput) :
  (List.length (scaleHistory (scale_all (constructor p) inputs)) <= 50)%nat.
Proof.
  assert (G : forall s0,
             (List.length (scaleHistory s0) <= 50)%nat ->
             (List.length (scaleHistory (scale_all s0 inputs)) <= 50)%nat).
  { induction inputs as [|i rest IH]; intros s0 H; [exact H|].
    rewrite scale_all_cons. now apply IH, scale_log_length. }
  apply G. cbn. lia.
Qed.

(** X10.  The result of a call reports the scale before the call and the
    scale after it.  A call that reports no scaling leaves the scale and
    the event log as they were; a call that reports one has put the
    iteration, the new scale and the reason at the end of the log. *)
Theorem scale_result_matches_state (s0 : t) (input : ScaleInput) :
  let s' := fst (scale s0 input) in
  let r := snd (scale s0 input) in
  previousScale r = _currentScale s0 /\
  newScale r = _currentScale s' /\
  (if scaled r
   then forall d, last (scaleHistory s') d = recorded input r
   else _currentScale s' = _currentScale s0 /\
        scaleHistory s' = scaleHistory s0).
Proof.
  scale_cases s0 input;
    cbn [fst snd scaled previousScale newScale with_scale _currentScale
         scaleHistory];
    repeat split;
    try (intro d; apply BoundedFacts.push_bounded_last; lia).
  - apply updateStreaks_scale.
  - apply updateStreaks_log.
Qed.

(** *** The direction of a scaling event *)




(** The call of the witness is one in which the decay rule fires. *)
Example decay_after_three_failures :
  let s0 := scale_all (constructor noPolicy) [streak_call; streak_call] in
  decay_fires (updateStreaks (in_history failing_call) s0) failing_call = true
  /\ newScale (snd (scale s0 failing_call)) < _currentScale s0.
Proof. vm_compute. split; reflexivity. Qed.

End StreakFacts.

(** ** The stored patterns *)

Module PatternFacts.
Import JS JSFacts ToFixedFacts SortFacts LearningCore LearningSpec
  LearningFacts PatternSpec.
Local Open Scope Q_scope.

(** *** Pruning *)

Lemma delete_all_In (e : string * LearnedPattern) rem : forall m,
  In e (fold_left (fun acc (r : string * LearnedPattern) => delete (fst r) acc)
          rem m)
  <-> In e m /\ ~ In (fst e) (map fst rem).
Proof.
  induction rem as [|r rem IH]; intro m; cbn [fold_left map In].
  - tauto.
  - rewrite IH. unfold delete. rewrite filter_In, negb_true_iff, String.eqb_neq.
    intuition congruence.
Qed.








(** The pruning of the witness evicts the pattern of weight 0.2. *)
Example prune_three_weights :
  map fst (pruneWeakPatterns (config (constructor (capacity (10 # 1))))
             three_weights) = ["a"; "c"].
Proof. vm_compute. reflexivity. Qed.

(** *** What an ingest keeps true of every stored pattern *)

Lemma extracted_structural data fs :
  extractFeatures data = Some fs -> (2 <= List.length fs)%nat.
Proof.
  unfold extractFeatures. destruct (error_features data); [|discriminate].
  intro H. injection H as <-. cbn [List.length app]. lia.
Qed.

Lemma replace_Forall (P : string * LearnedPattern -> Prop) k p p' m :
  lookup k m = Some p -> (P (k, p) -> P (k, p')) ->
  Forall P m -> Forall P (replace k p' m).
Proof.
  intros L H F. induction F as [|[k0 p0] m H0 F IH]; cbn in *; [constructor|].
  destruct (String.eqb k0 k) eqn:E.
  - apply String.eqb_eq in E. subst k0. injection L as ->.
    constructor; [now apply H | exact F].
  - constructor; [exact H0 | now apply IH].
Qed.

Lemma prune_incl cfg m : incl (pruneWeakPatterns cfg m) m.
Proof.
  intros e He. unfold pruneWeakPatterns in He. now apply delete_all_In in He.
Qed.

Lemma sort_strings_perm l : Permutation (sort_strings l) l.
Proof. apply sort_by_perm. Qed.

Local Opaque hashFeatures extractFeatures sort_strings toFixed
  pruneWeakPatterns modelVersionOf.

Section Preserved.

Variable P : string * LearnedPattern -> Prop.
Variables (s : t) (input : IngestInput) (now : Z).

Hypothesis decays : forall e,
  P e ->
  P (fst e,
     with_weight (snd e) (toFixed 6 (weight (snd e) * decayRate (config s)))).

Hypothesis boosts : forall k p,
  P (k, p) ->
  P (k, {| id := id p; type := type p; features := features p;
           weight :=
             toFixed 6
               (Qmin (weight p
                      + match in_type input with
                        | success => successBoost (config s)
                        | failure => failurePenalty (config s)
                        end) 1);
           seenCount := S (seenCount p); lastSeen := now |}).

Hypothesis fresh : forall fs,
  extractFeatures (in_data input) = Some fs ->
  P (hashFeatures fs (in_type input),
     {| id := hashFeatures fs (in_type input); type := in_type input;
        features := sort_strings fs;
        weight := match in_type input with
                  | success => 6 # 10
                  | failure => 4 # 10
                  end;
        seenCount := 1; lastSeen := now |}).

Lemma ingest_preserves :
  Forall P (patterns s) -> Forall P (patterns (fst (ingest s input now))).
Proof.
  intro F. unfold ingest.
  destruct (extractFeatures (in_data input)) as [fs|] eqn:E; [|exact F].
  assert (D : Forall P (decayPatterns (config s) (patterns s))).
  { unfold decayPatterns. apply Forall_map.
    eapply Forall_impl; [|exact F]. intros e He. now apply decays. }
  destruct (lookup _ _) as [p|] eqn:L; cbn [fst patterns].
  - eapply replace_Forall; [exact L | apply boosts | exact D].
  - assert (A : Forall P
                  (decayPatterns (config s) (patterns s)
                   ++ [(hashFeatures fs (in_type input),
                        {| id := hashFeatures fs (in_type input);
                           type := in_type input;
                           features := sort_strings fs;
                           weight := match in_type input with
                                     | success => 6 # 10
                                     | failure => 4 # 10
                                     end;
                           seenCount := 1; lastSeen := now |})])%list).
    { apply Forall_app. split; [exact D|]. constructor; [|constructor].
      now apply fresh. }
    destruct (Qltb _ _); [|exact A].
    apply Forall_forall. intros e He. apply prune_incl in He.
    revert e He. now apply Forall_forall.
Qed.

End Preserved.

Lemma ingest_all_step s call rest :
  ingest_all s (call :: rest) =
  ingest_all (fst (ingest s (fst call) (snd call))) rest.
Proof. reflexivity. Qed.

Lemma ingest_all_config inputs : forall s,
  config (ingest_all s inputs) = config s.
Proof.
  induction inputs as [|i rest IH]; intro s; [reflexivity|].
  rewrite ingest_all_step, IH. apply ingest_config.
Qed.

Lemma ingest_filed s input now :
  Forall filed (patterns s) ->
  Forall filed (patterns (fst (ingest s input now))).
Proof.
  apply ingest_preserves.
  - intros [k p] H. exact H.
  - intros k p H. exact H.
  - intros fs E. unfold filed. cbn [fst snd id type features].
    split; [reflexivity|]. split.
    + apply hashFeatures_invariant. symmetry. apply sort_strings_perm.
    + rewrite (Permutation_length (sort_strings_perm fs)).
      now apply extracted_structural in E.
Qed.


Lemma toFixed6_proportion x : 0 <= x -> x <= 1 -> 0 <= toFixed 6 x <= 1.
Proof.
  intros L U. split; [now apply toFixed_nonneg|].
  rewrite <- (toFixed_whole 6 1). now apply toFixed_mono.
Qed.

Lemma ingest_unit_weights s input now :
  sane (config s) ->
  Forall unit_weight (patterns s) ->
  Forall unit_weight (patterns (fst (ingest s input now))).
Proof.
  intros (D0 & D1 & B0 & B1). apply ingest_preserves.
  - intros [k p] [L U]. unfold unit_weight in *. cbn [fst snd weight with_weight] in *.
    apply and_comm, and_comm, toFixed6_proportion; nra.
  - intros k p [L U]. unfold unit_weight in *. cbn [fst snd weight] in *.
    apply toFixed6_proportion.
    + apply Q.min_glb; [|lra]. destruct (in_type input); lra.
    + apply Q.le_min_r.
  - intros fs _. unfold unit_weight. cbn [snd weight].
    destruct (in_type input); split; discriminate.
Qed.

(** X14.  Under a configuration whose decay rate lies between 0 and 1
    and whose success boost and failure penalty are not negative (the
    default one is such), the weight of every stored pattern lies between
    0 and 1 after any sequence of ingests from the initial state. *)
Theorem weights_stay_proportions (c : PartialConfig)
  (inputs : list (IngestInput * Z)) :
  sane (config (constructor c)) ->
  Forall unit_weight (patterns (ingest_all (constructor c) inputs)).
Proof.
  intro S.
  assert (G : forall s, sane (config s) -> Forall unit_weight (patterns s) ->
              Forall unit_weight (patterns (ingest_all s inputs))).
  { induction inputs as [|i rest IH]; intros s C H; [exact H|].
    rewrite ingest_all_step. apply IH.
    - now rewrite ingest_config.
    - now apply ingest_unit_weights. }
  apply G; [exact S | constructor].
Qed.

Lemma weights_stay_proportions_witness :
  Forall unit_weight
    (patterns (ingest_all (constructor noConfig)
                 [scored success 1; scored failure (1 # 2);
                  scored success 1])).
Proof.
  apply (weights_stay_proportions noConfig
           [scored success 1; scored failure (1 # 2); scored success 1]).
  repeat split; vm_compute; discriminate.
Defined.

(** *** The capacity *)

(** X15.  Under a capacity of at least 10 a core never holds more
    patterns than its capacity, whatever it has ingested since its
    construction. *)
Theorem capacity_is_respected (c : PartialConfig)
  (inputs : list (IngestInput * Z)) :
  10 <= memorySize (config (constructor c)) ->
  within_capacity (ingest_all (constructor c) inputs).
Proof.
  intro C. apply ingest_all_within_capacity; [exact C | constructor |].
  unfold within_capacity, size. cbn [patterns constructor List.length].
  change (inject_Z (Z.of_nat 0)) with 0. lra.
Qed.

Lemma capacity_is_respected_witness :
  within_capacity
    (ingest_all (constructor (capacity (10 # 1)))
       (map observation
          ["a"; "b"; "c"; "d"; "e"; "f"; "g"; "h"; "i"; "j"; "k"; "l"])).
Proof.
  apply (capacity_is_respected (capacity (10 # 1))
           (map observation
              ["a"; "b"; "c"; "d"; "e"; "f"; "g"; "h"; "i"; "j"; "k"; "l"])).
  vm_compute. discriminate.
Defined.

(** Twelve distinct patterns under a capacity of 10: the eleventh is
    stored and one is evicted, the twelfth then fits. *)
Example capacity_ten_evicts :
  size (ingest_all (constructor (capacity (10 # 1)))
          (map observation
             ["a"; "b"; "c"; "d"; "e"; "f"; "g"; "h"; "i"; "j"; "k"]))
  = 10%nat.
Proof. vm_compute. reflexivity. Qed.

(** *** The counters *)

Lemma ingest_counts s input now :
  let s' := fst (ingest s input now) in
  ingestCount s' = S (ingestCount s) /\
  successCount s' =
    (successCount s + if learns success (input, now) then 1 else 0)%nat /\
  failureCount s' =
    (failureCount s + if learns failure (input, now) then 1 else 0)%nat.
Proof.
  unfold ingest, learns. cbn [fst in_data in_type].
  destruct (extractFeatures (in_data input)) as [fs|].
  - destruct (lookup _ _); [|destruct (Qltb _ _)];
      cbn [fst ingestCount successCount failureCount];
      destruct (in_type input); repeat split; lia.
  - cbn. repeat split; lia.
Qed.

(** X16.  After any sequence of ingests from the initial state the core
    has counted every call, and has counted as successes and as failures
    the calls of either class whose features could be extracted; the two
    classes together never exceed the calls. *)
Theorem ingest_counters (c : PartialConfig)
  (inputs : list (IngestInput * Z)) :
  let s := ingest_all (constructor c) inputs in
  ingestCount s = List.length inputs /\
  successCount s = List.length (filter (learns success) inputs) /\
  failureCount s = List.length (filter (learns failure) inputs) /\
  (successCount s + failureCount s <= ingestCount s)%nat.
Proof.
  cbv zeta.
  assert (G : forall s,
    ingestCount (ingest_all s inputs)
      = (ingestCount s + List.length inputs)%nat /\
    successCount (ingest_all s inputs)
      = (successCount s
         + List.length (filter (learns success) inputs))%nat /\
    failureCount (ingest_all s inputs)
      = (failureCount s
         + List.length (filter (learns failure) inputs))%nat).
  { induction inputs as [|[i now] rest IH]; intro s.
    - cbn. repeat split; lia.
    - rewrite ingest_all_step. cbn [fst snd].
      destruct (IH (fst (ingest s i now))) as (A & B & C).
      destruct (ingest_counts s i now) as (A' & B' & C').
      cbv zeta in A', B', C'.
      rewrite A, B, C, A', B', C'. cbn [filter List.length].
      destruct (learns success (i, now)), (learns failure (i, now));
        cbn [List.length]; repeat split; lia. }
  destruct (G (constructor c)) as (A & B & C).
  cbn [constructor ingestCount successCount failureCount] in A, B, C.
  rewrite A, B, C. repeat split.
  assert (E : forall l : list (IngestInput * Z),
    (List.length (filter (learns success) l)
     + List.length (filter (learns failure) l) <= List.length l)%nat).
  { induction l as [|x l IHl]; [cbn; lia|].
    cbn [filter List.length].
    assert (X : learns success x && learns failure x = false).
    { unfold learns.
      now destruct (extractFeatures (in_data (fst x))), (in_type (fst x)). }
    destruct (learns success x), (learns failure x);
      try discriminate X; cbn [List.length]; lia. }
  exact (E inputs).
Qed.

(** *** Feature extraction *)

Local Transparent extractFeatures.

Lemma error_types_none errs :
  error_types errs = None <-> Exists (fun v => is_string v = false) errs.
Proof.
  induction errs as [|v errs IH]; cbn [error_types].
  - split; [discriminate | intro H; inversion H].
  - destruct v; try (split; [intros _; now left | reflexivity]).
    destruct (error_types errs).
    + split; [discriminate|]. intro H. inversion H as [? ? S | ? ? S]; subst.
      * discriminate S.
      * now apply IH in S.
    + split; [|reflexivity]. intros _. right. now apply IH.
Qed.

(** X17.  Feature extraction throws exactly on the data whose errors
    field is an array that holds an element other than a string; on any
    other data it returns its features. *)
Theorem extraction_throws_on_odd_errors (data : list (string * value)) :
  extractFeatures data = None <->
  exists errs, get data "errors" = VArray errs /\
               Exists (fun v => is_string v = false) errs.
Proof.
  unfold extractFeatures, error_features.
  destruct (get data "errors") as [| | | | |errs|] eqn:G;
    try (split; [discriminate | intros (errs & E & _); discriminate E]).
  destruct (0 <? List.length errs)%nat eqn:L.
  - destruct (error_types errs) eqn:T.
    + split; [discriminate|]. intros (errs' & E & X).
      injection E as <-. apply error_types_none in X. congruence.
    + split; [|reflexivity]. intros _. exists errs. split; [reflexivity|].
      now apply error_types_none.
  - split; [discriminate|]. intros (errs' & E & X). injection E as <-.
    destruct errs; [inversion X | discriminate L].
Qed.

Lemma get_present (d : list (string * value)) k v :
  NoDup (map fst d) -> In (k, v) d -> get d k = v.
Proof.
  induction d as [|[k0 v0] d IH]; intros N I; [destruct I|].
  cbn in N. apply NoDup_cons_iff in N as [N0 N]. cbn [get].
  destruct I as [E | I].
  - injection E as -> ->. now rewrite String.eqb_refl.
  - destruct (String.eqb k0 k) eqn:E.
    + apply String.eqb_eq in E. subst k0. exfalso. apply N0.
      change k with (fst (k, v)). now apply in_map.
    + now apply IH.
Qed.

Lemma get_absent (d : list (string * value)) k :
  ~ In k (map fst d) -> get d k = VUndefined.
Proof.
  induction d as [|[k0 v0] d IH]; intro N; [reflexivity|].
  cbn [get]. cbn in N. destruct (String.eqb k0 k) eqn:E.
  - apply String.eqb_eq in E. tauto.
  - apply IH. tauto.
Qed.

Lemma get_permuted (d d' : list (string * value)) k :
  NoDup (map fst d) -> Permutation d d' -> get d k = get d' k.
Proof.
  intros N P.
  assert (N' : NoDup (map fst d')).
  { eapply Permutation_NoDup; [|exact N]. now apply Permutation_map. }
  destruct (in_dec String.string_dec k (map fst d)) as [I | I].
  - apply in_map_iff in I as ([k0 v] & E & I). cbn in E. subst k0.
    rewrite (get_present d k v N I). symmetry. apply get_present; [exact N'|].
    eapply Permutation_in; [exact P | exact I].
  - rewrite (get_absent d k I). symmetry. apply get_absent.
    intro I'. apply I. eapply Permutation_in; [|exact I'].
    symmetry. now apply Permutation_map.
Qed.

(** X18.  Two objects that hold the same properties with the same
    values, listed in different orders, have the same features. *)
Theorem features_ignore_property_order (d d' : list (string * value)) :
  NoDup (map fst d) -> Permutation d d' ->
  extractFeatures d = extractFeatures d'.
Proof.
  intros N P.
  unfold extractFeatures, error_features, score_features, phase_features,
    scale_features.
  rewrite !(get_permuted d d' _ N P).
  rewrite (Permutation_length (Permutation_map fst P)).
  rewrite (sort_strings_invariant _ _ (Permutation_map fst P)).
  reflexivity.
Qed.

Lemma features_ignore_property_order_witness :
  extractFeatures [("score", VNumber (Fin 1)); ("errors", VArray [])] =
  extractFeatures [("errors", VArray []); ("score", VNumber (Fin 1))].
Proof.
  apply (features_ignore_property_order
           [("score", VNumber (Fin 1)); ("errors", VArray [])]
           [("errors", VArray []); ("score", VNumber (Fin 1))]).
  - repeat constructor; cbn; intuition discriminate.
  - apply perm_swap.
Defined.

Local Opaque extractFeatures.

(** *** Prediction *)

Lemma weigh_finite query ps : forall total m,
  Forall (fun p => (2 <= List.length (features p))%nat) ps ->
  exists total' m',
    fold_left (weigh query) ps (total, Fin m) = (total', Fin m').
Proof.
  induction ps as [|p ps IH]; intros total m F; cbn [fold_left].
  - now exists total, m.
  - apply Forall_cons_iff in F as [Hp F].
    unfold weigh at 2, similarity.
    destruct (Nat.max (List.length (features p)) (List.length query)) eqn:E;
      [lia|].
    destruct (type p); now apply IH.
Qed.

Lemma clamped_proportion x :
  0 <= toFixed 4 (Qmax 0 (Qmin 1 x)) /\ toFixed 4 (Qmax 0 (Qmin 1 x)) <= 1.
Proof.
  split.
  - apply toFixed_nonneg, Q.le_max_l.
  - apply Qle_trans with (toFixed 4 1).
    + apply toFixed_mono, Q.max_lub; [discriminate | apply Q.le_min_l].
    + apply Qle_lteq. right. exact (toFixed_whole 4 1).
Qed.

Lemma predict_finite s query :
  Forall filed (patterns s) -> proportion (predict s query).
Proof.
  intro F. unfold predict.
  destruct (patterns s) as [|e m] eqn:E.
  { exists (1 # 2). repeat split; discriminate. }
  destruct (weigh_finite query (map snd (e :: m)) 0 0) as (total & w & W).
  { apply Forall_map. eapply Forall_impl; [|exact F].
    intros x (_ & _ & L). exact L. }
  rewrite W.
  destruct (Qltb 0 total); cbn [num_div num_add_lit clamp];
    eexists; (split; [reflexivity | apply clamped_proportion]).
Qed.

(** X19.  Under a configuration whose decay rate lies between 0 and 1
    and whose success boost and failure penalty are not negative (the
    default one is such), in any core reached by ingests from the initial
    state, the prediction for any list of features is a number between 0
    and 1. *)
Theorem prediction_is_a_proportion (c : PartialConfig)
  (inputs : list (IngestInput * Z)) (query : list string) :
  sane (config (constructor c)) ->
  proportion (predict (ingest_all (constructor c) inputs) query).
Proof.
  intros _.
  apply predict_finite.
  assert (G : forall s, Forall filed (patterns s) ->
              Forall filed (patterns (ingest_all s inputs))).
  { induction inputs as [|i rest IH]; intros s H; [exact H|].
    rewrite ingest_all_step. now apply IH, ingest_filed. }
  apply G. constructor.
Qed.

Lemma prediction_is_a_proportion_witness :
  proportion
    (predict (ingest_all (constructor noConfig)
                [scored success 1; scored failure (1 # 2)])
       ["score_high"]).
Proof.
  apply (prediction_is_a_proportion noConfig
           [scored success 1; scored failure (1 # 2)] ["score_high"]).
  repeat split; vm_compute; discriminate.
Defined.

(** A stored pattern without features and a query without features give
    0 / 0: the prediction is [NaN]. *)
Example prediction_without_features :
  predict {| config := config (constructor noConfig);
             patterns := [weighing "a" (6 # 10)];
             ingestCount := 1; successCount := 1; failureCount := 0;
             _modelVersion := "1.0"; totalImprovementDelta := 0 |} [] = NaN.
Proof. reflexivity. Qed.

(** *** The heaviest patterns *)



End PatternFacts.

(** ** The artifacts *)

Module ArtifactFacts.
Import JS JSFacts AutoGenerator GeneratorSpec ArtifactSpec.
Local Open Scope Q_scope.

(** *** The loop over the templates *)

Lemma fire_typed input ts : forall acc,
  Forall (fun template => type template <> "none") ts ->
  (fst acc = [] <-> snd acc = "none") ->
  let out := fold_left (fire input) ts acc in
  (fst out = [] <-> snd out = "none") /\
  (List.length (fst out) <= List.length (fst acc) + List.length ts)%nat.
Proof.
  induction ts as [|template ts IH]; intros acc F H; cbn [fold_left].
  - split; [exact H | cbn; lia].
  - apply Forall_cons_iff in F as [T F].
    destruct (IH (fire input acc template) F) as [A B].
    + unfold fire. destruct (_ && _)%bool; [|exact H]. cbn [fst snd].
      split; [|congruence]. intro E. now destruct (fst acc).
    + split; [exact A|]. cbv zeta in B. cbn [List.length].
      assert (L : (List.length (fst (fire input acc template))
                   <= S (List.length (fst acc)))%nat).
      { unfold fire. destruct (_ && _)%bool; cbn [fst]; [|lia].
        rewrite length_app. cbn. lia. }
      lia.
Qed.

Lemma templates_typed b :
  Forall (fun template => type template <> "none") (templates b).
Proof. repeat constructor; discriminate. Qed.

(** X21.  A call reports [generated] exactly when it returns at least one
    artifact, and then its type is not none; it returns at most seven
    artifacts.  A call that has generated puts its iteration, artifacts
    and type at the end of the artifact log; a call that has not leaves
    the log as it was and reports the type none. *)
Theorem generate_result_matches_log (b : Bodies) (s : t)
  (input : GenerateInput) :
  let s' := fst (generate b s input) in
  let r := snd (generate b s input) in
  generationCount s' = S (generationCount s) /\
  (List.length (artifacts r) <= 7)%nat /\
  (if generated r
   then artifacts r <> [] /\ Types.type r <> "none" /\
        forall d, last (artifactLog s') d = logged input r
   else artifacts r = [] /\ Types.type r = "none" /\
        artifactLog s' = artifactLog s).
Proof.
  unfold generate, logged.
  destruct (fire_typed input (templates b) ([], "none") (templates_typed b))
    as [T L]; [tauto|]. cbv zeta in T, L.
  destruct (fold_left (fire input) (templates b) ([], "none"))
    as [gated highest].
  cbn [fst snd List.length templates] in T, L.
  destruct (_ && _)%bool.
  - cbn [fst snd generationCount artifacts generated Types.type artifactLog].
    rewrite length_app. cbn [List.length].
    replace (0 <? List.length gated + 1)%nat with true
      by (symmetry; apply Nat.ltb_lt; lia).
    repeat split; try lia; try discriminate.
    + now destruct gated.
    + intro d. apply BoundedFacts.push_bounded_last. lia.
  - cbn [fst snd generationCount artifacts generated Types.type artifactLog].
    destruct gated as [|a gated]; cbn [List.length Nat.ltb Nat.leb] in L |- *.
    + repeat split; try lia. now apply T.
    + repeat split; try lia; try discriminate.
      * intro E. now apply T in E.
      * intro d. apply BoundedFacts.push_bounded_last. lia.
Qed.

(** *** The gates of the templates *)

Lemma fire_monotone input input' template acc acc' :
  confidence input <= confidence input' ->
  scale input <= scale input' ->
  (List.length (fst acc) <= List.length (fst acc'))%nat ->
  (List.length (fst (fire input acc template))
   <= List.length (fst (fire input' acc' template)))%nat.
Proof.
  intros C S L. unfold fire.
  destruct (Qleb (minConfidence template) (confidence input)
            && Qleb (minScale template) (scale input))%bool eqn:E.
  - apply andb_prop in E as [E1 E2]. apply Qleb_le in E1, E2.
    replace (Qleb (minConfidence template) (confidence input')) with true
      by (symmetry; apply Qleb_le; now apply Qle_trans with (confidence input)).
    replace (Qleb (minScale template) (scale input')) with true
      by (symmetry; apply Qleb_le; now apply Qle_trans with (scale input)).
    cbn [andb fst]. rewrite !length_app. cbn. lia.
  - destruct (Qleb (minConfidence template) (confidence input')
              && Qleb (minScale template) (scale input'))%bool;
      cbn [fst]; [|exact L].
    rewrite length_app. lia.
Qed.

Lemma gated_monotone input input' ts : forall acc acc',
  confidence input <= confidence input' ->
  scale input <= scale input' ->
  (List.length (fst acc) <= List.length (fst acc'))%nat ->
  (List.length (fst (fold_left (fire input) ts acc))
   <= List.length (fst (fold_left (fire input') ts acc')))%nat.
Proof.
  induction ts as [|template ts IH]; intros acc acc' C S L; cbn [fold_left].
  - exact L.
  - apply IH; try assumption. now apply fire_monotone.
Qed.

(** X22.  A call at a confidence and a scale that are at least those of
    another call of the same iteration returns at least as many
    artifacts. *)
Theorem more_confidence_more_artifacts (b : Bodies) (s s' : t)
  (input : GenerateInput) (confidence' scale' : Q) :
  confidence input <= confidence' ->
  scale input <= scale' ->
  (List.length (artifacts (snd (generate b s input)))
   <= List.length
        (artifacts (snd (generate b s' (at_level input confidence' scale')))))%nat.
Proof.
  intros C S. unfold generate.
  pose proof (gated_monotone input (at_level input confidence' scale')
                (templates b) ([], "none") ([], "none") C S (le_n _)) as G.
  destruct (fold_left (fire input) (templates b) ([], "none")) as [g h].
  destruct (fold_left (fire (at_level input confidence' scale')) (templates b)
              ([], "none")) as [g' h'].
  cbn [fst] in G. cbn [iteration at_level].
  destruct (_ && _)%bool; cbn [snd artifacts]; rewrite ?length_app;
    cbn [List.length]; lia.
Qed.

Lemma more_confidence_more_artifacts_witness :
  (List.length
     (artifacts (snd (generate RunnerSpec.plain_bodies constructor
                        (low_confidence 3 []))))
   <= List.length
        (artifacts
           (snd (generate RunnerSpec.plain_bodies constructor
                   (at_level (low_confidence 3 []) (9 # 10) (2 # 1))))))%nat.
Proof.
  apply (more_confidence_more_artifacts RunnerSpec.plain_bodies constructor
           constructor (low_confidence 3 []) (9 # 10) (2 # 1));
    vm_compute; discriminate.
Defined.

(** *** The artifact log *)

Lemma generate_counts b s input :
  generationCount (fst (generate b s input)) = S (generationCount s).
Proof.
  unfold generate.
  destruct (fold_left (fire input) (templates b) ([], "none")) as [g h].
  now destruct (_ && _)%bool.
Qed.

Lemma generate_log_length b s input :
  (List.length (artifactLog s) <= 100)%nat ->
  (List.length (artifactLog (fst (generate b s input))) <= 100)%nat.
Proof.
  intro H. unfold generate.
  destruct (fold_left (fire input) (templates b) ([], "none")) as [g h].
  destruct (_ && _)%bool; cbn [fst artifactLog];
    destruct (0 <? _)%nat; try exact H;
    now apply RunnerFacts.push_bounded_length.
Qed.

(** X23.  After any sequence of calls from the initial state the
    generator has counted every call and its artifact log holds at most
    100 entries. *)
Theorem artifact_log_bounded (calls : list (Bodies * GenerateInput)) :
  let s := generate_all constructor calls in
  generationCount s = List.length calls /\
  (List.length (artifactLog s) <= 100)%nat.
Proof.
  cbv zeta.
  assert (G : forall s,
    (List.length (artifactLog s) <= 100)%nat ->
    generationCount (generate_all s calls)
      = (generationCount s + List.length calls)%nat /\
    (List.length (artifactLog (generate_all s calls)) <= 100)%nat).
  { unfold generate_all.
    induction calls as [|c calls IH]; intros s H; cbn [fold_left List.length].
    - split; [lia | exact H].
    - destruct (IH (fst (generate (fst c) s (snd c)))) as [A B].
      + now apply generate_log_length.
      + split; [|exact B]. rewrite A.
        rewrite generate_counts. lia. }
  apply (G constructor). cbn. lia.
Qed.

End ArtifactFacts.

(** ** The loop *)

(** The loop is the one of [SLVSSRunner.run]: a tick runs from its guards
    to the push of its record without another event in between, and a
    listener throws inside the [try] block or not at all. *)

Module LoopFacts.
Import JS JSFacts ToFixedFacts SLVSSRunner RunnerSpec RunnerFacts LoopSpec.
Local Open Scope Q_scope.

(** *** The learner never throws on what the runner hands it *)

Lemma error_types_of_strings errs :
  LearningCore.error_types (map VString errs)
  = Some (map (before_first ":") errs).
Proof.
  induction errs as [|e errs IH]; [reflexivity|].
  cbn [map LearningCore.error_types]. now rewrite IH.
Qed.

Lemma extract_result_object v :
  LearningCore.extractFeatures (result_object v) <> None.
Proof.
  unfold LearningCore.extractFeatures, LearningCore.error_features.
  cbn [get result_object String.eqb Ascii.eqb Bool.eqb].
  rewrite error_types_of_strings, length_map.
  now destruct (0 <? List.length (errors v))%nat.
Qed.

Lemma extract_success_data v scale :
  LearningCore.extractFeatures
    [("vResult", VObject (result_object v)); ("scale", VNumber (Fin scale))]
  <> None.
Proof. discriminate. Qed.

Lemma ingest_returns s input now :
  LearningCore.extractFeatures (LearningCore.in_data input) <> None ->
  snd (LearningCore.ingest s input now) <> None.
Proof.
  intro H. unfold LearningCore.ingest.
  destruct (LearningCore.extractFeatures _); [|congruence].
  destruct (LearningCore.lookup _ _); discriminate.
Qed.

(** *** The version of the model *)

Lemma uint_digits d :
  Forall (fun a => is_digit a = true)
    (list_ascii_of_string (DecimalString.NilEmpty.string_of_uint d)).
Proof.
  induction d; cbn [DecimalString.NilEmpty.string_of_uint list_ascii_of_string];
    constructor; try reflexivity; assumption.
Qed.

Lemma string_of_nat_digits n :
  string_of_nat n <> EmptyString /\
  Forall (fun a => is_digit a = true) (list_ascii_of_string (string_of_nat n)).
Proof.
  unfold string_of_nat, string_of_Z.
  destruct (Z.of_nat n) as [|p|p] eqn:E; [| |lia].
  - split; [discriminate|]. repeat constructor.
  - cbn [Z.to_int DecimalString.NilZero.string_of_int
         DecimalString.NilZero.string_of_uint].
    pose proof (uint_digits (Pos.to_uint p)) as D.
    destruct (Pos.to_uint p); try (split; [discriminate | exact D]).
    split; [discriminate|]. repeat constructor.
Qed.

Lemma matches_version_dotted a b :
  a <> EmptyString ->
  Forall (fun c => is_digit c = true) (list_ascii_of_string a) ->
  b <> EmptyString ->
  Forall (fun c => is_digit c = true) (list_ascii_of_string b) ->
  matches_version (a ++ "." ++ b) = true.
Proof.
  intros Na Da Nb Db. induction a as [|x a IH]; [congruence|].
  cbn [list_ascii_of_string] in Da. apply Forall_cons_iff in Da as [Dx Da].
  destruct a as [|y a].
  - destruct b as [|c b]; [congruence|].
    cbn [list_ascii_of_string] in Db. apply Forall_cons_iff in Db as [Dc _].
    cbn [append matches_version]. now rewrite Dx, Dc.
  - change (matches_version (String x (String y a ++ "." ++ b)) = true).
    cbn [matches_version]. fold (String y a ++ "." ++ b).
    rewrite IH; [apply orb_true_r | discriminate | exact Da].
Qed.

Lemma modelVersionOf_matches n :
  matches_version (LearningCore.modelVersionOf n) = true.
Proof.
  unfold LearningCore.modelVersionOf.
  apply matches_version_dotted; apply string_of_nat_digits.
Qed.

Lemma ingest_versioned s input now :
  matches_version (LearningCore._modelVersion s) = true ->
  matches_version
    (LearningCore._modelVersion (fst (LearningCore.ingest s input now)))
  = true.
Proof.
  intro H. unfold LearningCore.ingest.
  destruct (LearningCore.extractFeatures _); [|exact H].
  destruct (LearningCore.lookup _ _); cbn [fst LearningCore._modelVersion];
    apply modelVersionOf_matches.
Qed.

Local Opaque VERI3FY.verify ScalingEngine.scale AutoGenerator.generate
  LearningCore.ingest buildPayload.

(** *** The [try] block *)

Lemma sat_listeners_fault env l f (Q : Frame -> option unit -> Prop) :
  Q f (Some tt) -> (fault env <> None -> Q f None) ->
  sat (listeners env l) f Q.
Proof.
  intros H1 H2. unfold sat, listeners.
  destruct (fault env) as [l'|]; [destruct (Listener_eqb l l')|]; cbn; auto.
  apply H2. discriminate.
Qed.

Ltac step_fault :=
  cbv beta iota; cbn [self iterObj] in *;
  lazymatch goal with
  | |- sat (bind _ _) _ _ => apply sat_bind
  | |- sat (ret _) _ _ => apply sat_ret
  | |- sat throw _ _ => apply sat_throw
  | |- sat this _ _ => apply sat_this
  | |- sat record _ _ => apply sat_record
  | |- sat (update _) _ _ => apply sat_update
  | |- sat (update_record _) _ _ => apply sat_update_record
  | |- sat (listeners _ _) _ _ => apply sat_listeners_fault; [|intros ?]
  | |- sat (when _ _) _ _ => apply sat_when; intros ?
  | |- sat (let '(_, _) := ?x in _) _ _ => destruct x eqn:?
  | |- sat (match ?x with _ => _ end) _ _ => destruct x eqn:?
  end.

Ltac walk := repeat step_fault; cbv beta iota; cbn [self iterObj] in *.

(** A call of the learner that has thrown. *)
Ltac learner_threw :=
  match goal with
  | H : LearningCore.ingest ?s ?i ?n = (_, None) |- _ =>
      exfalso; apply (ingest_returns s i n);
      [ first [apply extract_result_object | apply extract_success_data]
      | now rewrite H ]
  end.

Section Block.
Variable log2 : Q -> Q.

Lemma try_block_record env f0 :
  sat (try_block log2 env) f0
    (fun f _ => Types.id (iterObj f) = Types.id (iterObj f0)).
Proof.
  unfold try_block, on_failure, on_pass, learn.
  walk; reflexivity.
Qed.

Lemma try_block_timer env f0 :
  sat (try_block log2 env) f0
    (fun f _ => loopTimer (self f) = loopTimer (self f0)).
Proof.
  unfold try_block, on_failure, on_pass, learn.
  walk; reflexivity.
Qed.

Lemma try_block_engines env f0 :
  sat (try_block log2 env) f0 (fun f _ => engines_step (self f0) (self f)).
Proof.
  unfold try_block, on_failure, on_pass, learn.
  walk; unfold engines_step; cbn;
    repeat match goal with
           | H : _ = (_, _) |- _ => cbn in H; apply (f_equal fst) in H; cbn in H
           end;
    repeat split; eauto.
Qed.

Lemma try_block_counts env f0 :
  sat (try_block log2 env) f0
    (fun f o =>
       block_counts env (self f0) (self f)
         (match o with Some _ => false | None => true end)).
Proof.
  unfold try_block, on_failure, on_pass, learn.
  walk; try learner_threw;
    try match goal with
        | H : VERI3FY.verify ?g ?p ?n = (_, _) |- _ =>
            let B := fresh "B" in
            pose proof (StageFacts.verify_score_bounds g p n) as B;
            rewrite H in B; cbn [snd] in B; destruct B as (? & ?)
        end;
    unfold block_counts;
    cbn [confidenceSum totalPassed totalFailed set_veri3fy add_confidence
         add_failed add_passed set_scaling set_generator add_generated
         set_learner set_counters];
    repeat split; try assumption; try lia; try lra.
Qed.

(** *** The tick *)

Lemma tick_ticked s env s' rec :
  tick log2 s env = (s', Some rec) -> ticked env s s' rec.
Proof.
  unfold tick, finalize.
  destruct (running s) eqn:R; [|discriminate]. cbn [negb].
  destruct (exhausted s) eqn:M; [discriminate|].
  set (start := {| self := begun s;
                   iterObj := fresh_record (begun s) (now_start env) |}).
  pose proof (try_block_same_loop log2 env start) as L.
  pose proof (try_block_record env start) as I.
  pose proof (try_block_engines env start) as E.
  pose proof (try_block_counts env start) as C.
  unfold sat, same_loop, block_counts in L, I, E, C.
  destruct (try_block log2 env start) as [f o].
  cbn [fst snd self iterObj start] in L, I, E, C.
  destruct L as (Lh & Lr & Ls & Lc & Li).
  destruct C as (C0 & C1 & Cp & Cf & C).
  destruct o as [u|]; [|destruct (unreadable env); [discriminate|]];
    intro H; injection H as <- <-; unfold ticked;
    cbn [config iteration running loopTimer startTime history totalPassed
         totalFailed confidenceSum set_loop add_failed set_counters self
         iterObj completed with_status Types.id veri3fy scaling generator
         learner engines_step] in *;
    rewrite ?Lh, ?Lr, ?Ls, ?Lc, ?Li, ?I;
    cbn [begun set_counters config iteration running startTime history
         fresh_record Types.id totalPassed totalFailed confidenceSum] in *.
  - repeat split; try assumption; try reflexivity; try lia; try apply E.
  - destruct C as [Cq C].
    repeat split; try assumption; try reflexivity; try lia; try apply E.
    intro Q. congruence.
Qed.

(** A call of [tick] that pushes no record has met one of its guards, or
    its [catch] clause has thrown. *)
Lemma tick_idle s env s' :
  tick log2 s env = (s', None) ->
  s' = s \/ s' = stop s \/ aborted env s s'.
Proof.
  unfold tick, finalize.
  destruct (running s) eqn:R; cbn [negb];
    [|intro H; injection H as <-; now left].
  destruct (exhausted s) eqn:M; [intro H; injection H as <-; right; now left|].
  set (start := {| self := begun s;
                   iterObj := fresh_record (begun s) (now_start env) |}).
  pose proof (try_block_same_loop log2 env start) as L.
  pose proof (try_block_timer env start) as Lt.
  pose proof (try_block_engines env start) as E.
  pose proof (try_block_counts env start) as C.
  unfold sat, same_loop, block_counts in L, Lt, E, C.
  destruct (try_block log2 env start) as [f o].
  cbn [fst snd self iterObj start] in L, Lt, E, C.
  destruct L as (Lh & Lr & Ls & Lc & Li).
  destruct C as (C0 & C1 & Cp & Cf & C).
  destruct o as [u|]; [discriminate|].
  destruct (unreadable env) eqn:N; [|discriminate].
  destruct C as [Cq C].
  intro H; injection H as <-. right; right. unfold aborted.
  cbn [config iteration running loopTimer startTime history totalPassed
       totalFailed confidenceSum add_failed set_counters self
       veri3fy scaling generator learner engines_step] in *.
  rewrite ?Lh, ?Lr, ?Ls, ?Lc, ?Li, ?Lt.
  cbn [begun set_counters config iteration running startTime history
       loopTimer totalPassed totalFailed confidenceSum] in *.
  repeat split; try assumption; try reflexivity; try lia; try apply E.
Qed.

(** *** Invariants of the loop *)

Section Invariant.

Variable I : t -> Prop.
Variable allowed : TickEnv -> Prop.

Hypothesis loop_fields : forall s r st timer,
  I s -> I (set_loop (history s) r st timer s).

Hypothesis ticks : forall env s s' rec,
  allowed env -> ticked env s s' rec -> I s -> I s'.

Hypothesis aborts : forall env s s',
  allowed env -> aborted env s s' -> I s -> I s'.

Lemma tick_invariant s env :
  allowed env -> I s -> I (fst (tick log2 s env)).
Proof.
  intros A H. destruct (tick log2 s env) as [s' [rec|]] eqn:T; cbn [fst].
  - apply tick_ticked in T. eapply ticks; eassumption.
  - apply tick_idle in T as [-> | [-> | T]]; [exact H | |].
    + now apply loop_fields.
    + eapply aborts; eassumption.
Qed.

Lemma step_invariant s e :
  Forall allowed (tick_envs [e]) -> I s -> I (step log2 s e).
Proof.
  intros A H. destruct e as [now env| |env]; cbn [step].
  - unfold start. destruct (running s); [exact H|].
    apply tick_invariant; [now inversion A | now apply loop_fields].
  - now apply loop_fields.
  - destruct (loopTimer s); [|exact H].
    apply tick_invariant; [now inversion A | now apply loop_fields].
Qed.

Lemma run_invariant events : forall s,
  Forall allowed (tick_envs events) -> I s -> I (run log2 s events).
Proof.
  induction events as [|e rest IH]; intros s A H; [exact H|].
  change (run log2 s (e :: rest)) with (run log2 (step log2 s e) rest).
  unfold tick_envs in A. cbn [flat_map] in A. apply Forall_app in A as [A1 A2].
  apply IH; [exact A2|]. apply step_invariant; [|exact H].
  unfold tick_envs. cbn [flat_map]. now rewrite app_nil_r.
Qed.

End Invariant.

Lemma always_allowed events : Forall (fun _ => True) (tick_envs events).
Proof. apply Forall_forall. intros. exact Logic.I. Qed.

(** *** The bound on the iterations *)

Lemma exhausted_false s m :
  exhausted s = false -> maxIterations (config s) = Fin m -> 0 < m ->
  inject_Z (iteration s) < m.
Proof.
  unfold exhausted. intros E Hm P. rewrite Hm in E.
  cbn [num_ltb num_leb] in E.
  apply Qltb_lt in P. rewrite P in E. cbn [andb] in E.
  apply negb_false_iff in E. now apply Qltb_lt in E.
Qed.

Lemma begun_bounded cfg s s' :
  config s' = config s -> exhausted s = false ->
  iteration s' = (iteration s + 1)%Z ->
  config s = cfg /\ bounded s -> config s' = cfg /\ bounded s'.
Proof.
  unfold bounded. intros C G It (E & N & M).
  split; [congruence|]. rewrite C, It. split; [lia|]. intros m Hm P.
  pose proof (exhausted_false s m G Hm P) as L.
  rewrite inject_Z_plus. change (inject_Z 1) with 1. lra.
Qed.

(** X24.  Whatever happens to a runner after its construction, its
    configuration is the one it was constructed with, and under a positive
    maxIterations, whole or not, its iteration counter stays below
    maxIterations + 1; under a whole one it never passes that bound. *)
Theorem iteration_respects_bound (c : PartialLoopConfig) (now : Z)
  (events : list Event) :
  let s := run log2 (constructor c now) events in
  config s = config (constructor c now) /\ bounded s /\
  forall m n, maxIterations (config s) = Fin m -> m == inject_Z n ->
    (0 < n)%Z -> (iteration s <= n)%Z.
Proof.
  intro s.
  assert (H : config s = config (constructor c now) /\ bounded s).
  { apply (run_invariant
             (fun s => config s = config (constructor c now) /\ bounded s)
             (fun _ => True)).
    - intros s0 r st timer H. exact H.
    - intros env s0 s' rec _ (C & G & It & _) H.
      exact (begun_bounded _ s0 s' C G It H).
    - intros env s0 s' _ (C & G & It & _) H.
      exact (begun_bounded _ s0 s' C G It H).
    - apply always_allowed.
    - split; [reflexivity|]. unfold bounded.
      cbn [constructor iteration config]. split; [lia|].
      intros m _ P. change (inject_Z 0) with 0. lra. }
  destruct H as (C & B). repeat split; try assumption; try apply B.
  intros m n Hm E P. destruct B as (_ & B).
  assert (Pm : 0 < m). { rewrite E, <- (Zlt_Qlt 0). exact P. }
  specialize (B m Hm Pm). rewrite E in B.
  change 1 with (inject_Z 1) in B.
  rewrite <- inject_Z_plus, <- Zlt_Qlt in B. lia.
Qed.

(** *** The counters *)

Lemma ticked_counters env s s' rec :
  ticked env s s' rec -> counters_sound s -> counters_sound s'.
Proof.
  unfold ticked, counters_sound.
  intros (_ & _ & It & _ & _ & _ & _ & _ & _ & C0 & C1 & Dp & Df & D & _).
  intros (P & F & PF & S0 & S1).
  rewrite It, inject_Z_plus. change (inject_Z 1) with 1.
  repeat split; try lia; lra.
Qed.

Lemma aborted_counters env s s' :
  aborted env s s' -> counters_sound s -> counters_sound s'.
Proof.
  unfold aborted, counters_sound.
  intros (_ & _ & It & _ & _ & _ & _ & _ & _ & _ & C0 & C1 & Dp & Df & D).
  intros (P & F & PF & S0 & S1).
  rewrite It, inject_Z_plus. change (inject_Z 1) with 1.
  repeat split; try lia; lra.
Qed.

Lemma ticked_exact env s s' rec :
  quiet env -> ticked env s s' rec ->
  (totalPassed s + totalFailed s = iteration s)%Z ->
  (totalPassed s' + totalFailed s' = iteration s')%Z.
Proof.
  unfold ticked, quiet.
  intros Q (_ & _ & It & _ & _ & _ & _ & _ & _ & _ & _ & _ & _ & _ & D) E.
  specialize (D Q). lia.
Qed.

Lemma constructor_counters c now : counters_sound (constructor c now).
Proof.
  unfold counters_sound. cbn. repeat split; try lia; discriminate.
Qed.

(** X25.  Whatever happens to a runner after its construction, it has
    counted at most one pass for each tick, at least one and at most two
    verdicts for each tick, and the sum of its scores is at most the
    number of its ticks. *)
Theorem counters_follow_ticks (c : PartialLoopConfig) (now : Z)
  (events : list Event) :
  counters_sound (run log2 (constructor c now) events).
Proof.
  apply (run_invariant counters_sound (fun _ => True)).
  - intros s r st timer H. exact H.
  - intros env s s' rec _ T H. exact (ticked_counters env s s' rec T H).
  - intros env s s' _ T H. exact (aborted_counters env s s' T H).
  - apply always_allowed.
  - apply constructor_counters.
Qed.

(** X26.  As long as no listener throws, the passes and the failures
    that the runner has counted add up to the number of its ticks. *)
Theorem quiet_ticks_count_once (c : PartialLoopConfig) (now : Z)
  (events : list Event) :
  Forall quiet (tick_envs events) ->
  let s := run log2 (constructor c now) events in
  (totalPassed s + totalFailed s = iteration s)%Z.
Proof.
  intro Q.
  apply (run_invariant
           (fun s => (totalPassed s + totalFailed s = iteration s)%Z) quiet).
  - intros s r st timer H. exact H.
  - intros env s s' rec A T H. exact (ticked_exact env s s' rec A T H).
  - intros env s s' A (_ & _ & _ & _ & _ & _ & _ & F & _) _.
    contradiction.
  - exact Q.
  - reflexivity.
Qed.

(** *** The numbers of the records *)

Lemma ids_upto_snoc n len :
  (ids_upto n len ++ [(n + 1)%Z])%list = ids_upto (n + 1) (S len).
Proof.
  unfold ids_upto. rewrite seq_S, map_app. cbn [map Nat.add]. f_equal.
  - apply map_ext. intro k. lia.
  - f_equal. lia.
Qed.

Lemma ids_upto_tl n len : tl (ids_upto n (S len)) = ids_upto n len.
Proof.
  unfold ids_upto. cbn [seq map tl]. rewrite <- seq_shift, map_map.
  apply map_ext. intro k. lia.
Qed.

Lemma ticked_numbered env s s' rec :
  ticked env s s' rec -> numbered s -> numbered s'.
Proof.
  unfold ticked, numbered.
  intros (_ & _ & It & _ & _ & _ & H & Id & _) (P & L & N).
  rewrite H, It. split; [lia|].
  assert (E : map Types.id (history s ++ [rec])
              = ids_upto (iteration s + 1) (S (List.length (history s)))).
  { rewrite map_app, N. cbn [map]. rewrite Id. apply ids_upto_snoc. }
  assert (A : List.length (history s ++ [rec]) = S (List.length (history s))).
  { rewrite length_app. cbn. lia. }
  unfold push_bounded.
  destruct (100 <? List.length (history s ++ [rec]))%nat eqn:B.
  - apply Nat.ltb_lt in B.
    assert (T : List.length (tl (history s ++ [rec]))
                = List.length (history s)).
    { destruct (history s) as [|x h]; cbn [app tl List.length]; [reflexivity|].
      rewrite length_app. cbn. lia. }
    split; [lia|].
    replace (map Types.id (tl (history s ++ [rec])))
      with (tl (map Types.id (history s ++ [rec])))
      by now destruct (history s ++ [rec])%list.
    now rewrite E, ids_upto_tl, T.
  - apply Nat.ltb_ge in B. split; [lia|]. now rewrite E, A.
Qed.

Lemma constructor_numbered c now : numbered (constructor c now).
Proof. repeat split. cbn. lia. Qed.

Lemma readable_not_aborted env s s' : readable env -> ~ aborted env s s'.
Proof.
  unfold readable, aborted.
  intros R (_ & _ & _ & _ & _ & _ & _ & _ & N & _). congruence.
Qed.

(** X27.  As long as the [catch] clause can read the message of what a
    listener throws (it cannot of [null] and [undefined]), whatever else
    happens to a runner after its construction, listeners that throw
    errors included, its history holds one record for each of its latest
    iterations, up to 100 of them; their numbers increase by one from each
    record to the next, and the last one is the iteration counter. *)
Theorem history_is_numbered (c : PartialLoopConfig) (now : Z)
  (events : list Event) :
  Forall readable (tick_envs events) ->
  numbered (run log2 (constructor c now) events).
Proof.
  intro R.
  apply (run_invariant numbered readable).
  - intros s r st timer H. exact H.
  - intros env s s' rec _ T H. exact (ticked_numbered env s s' rec T H).
  - intros env s s' A T _. now apply readable_not_aborted in T.
  - exact R.
  - apply constructor_numbered.
Qed.

(** *** The engines *)

Lemma engines_step_sound s s' :
  engines_step s s' -> engines_sound s -> engines_sound s'.
Proof.
  unfold engines_sound.
  intros (Ev & Es & Eg & El).
  intros (Sp & Sb & Sr & Sl & Lc & Lk & Lw & Lv & Gl).
  assert (W : ScalingSpec.well_formed (ScalingEngine.policy (scaling s))).
  { rewrite Sp. apply ScalingFacts.default_policy_well_formed. }
  assert (M : 10 <= LearningCore.memorySize (LearningCore.config (learner s))).
  { rewrite Lc. discriminate. }
  repeat split.
  - destruct Es as [-> | (i & ->)]; [exact Sp|].
    now rewrite ScalingFacts.scale_policy.
  - destruct Es as [-> | (i & ->)]; [apply Sb|].
    now apply ScalingFacts.scale_within_bounds.
  - destruct Es as [-> | (i & ->)]; [apply Sb|].
    now apply ScalingFacts.scale_within_bounds.
  - destruct Es as [-> | (i & ->)]; [exact Sr|].
    now apply ScalingFacts.scale_printed.
  - destruct Es as [-> | (i & ->)]; [exact Sl|].
    now apply StreakFacts.scale_log_length.
  - destruct El as [-> | (i & now & ->)]; [exact Lc|].
    now rewrite LearningFacts.ingest_config.
  - destruct El as [-> | (i & now & ->)]; [exact Lk|].
    now apply LearningFacts.ingest_keys_distinct.
  - destruct El as [-> | (i & now & ->)]; [exact Lw|].
    now apply LearningFacts.ingest_within_capacity.
  - destruct El as [-> | (i & now & ->)]; [exact Lv|].
    now apply ingest_versioned.
  - destruct Eg as [-> | (b & i & ->)]; [exact Gl|].
    now apply ArtifactFacts.generate_log_length.
Qed.

Lemma ticked_engines env s s' rec :
  ticked env s s' rec -> engines_sound s -> engines_sound s'.
Proof.
  intros (_ & _ & _ & _ & _ & _ & _ & _ & E & _). now apply engines_step_sound.
Qed.

Lemma aborted_engines env s s' :
  aborted env s s' -> engines_sound s -> engines_sound s'.
Proof.
  intros (_ & _ & _ & _ & _ & _ & _ & _ & _ & E & _).
  now apply engines_step_sound.
Qed.

Lemma constructor_engines c now : engines_sound (constructor c now).
Proof.
  unfold engines_sound. cbn [constructor scaling learner generator].
  repeat split; try reflexivity; try (cbn; lia); try discriminate;
    try apply ScalingFacts.constructor_printed.
  constructor.
Qed.

(** X28.  Whatever happens to a runner after its construction, its
    scaling engine keeps the default policy, a scale between 1 and 1024
    and at most 50 events, its learner keeps the default configuration, at
    most 500 patterns under distinct identifiers and a version of the form
    digits, dot, digits, and its generator keeps at most 100 log
    entries. *)
Theorem engines_stay_sound (c : PartialLoopConfig) (now : Z)
  (events : list Event) :
  engines_sound (run log2 (constructor c now) events).
Proof.
  apply (run_invariant engines_sound (fun _ => True)).
  - intros s r st timer H. exact H.
  - intros env s s' rec _ T H. exact (ticked_engines env s s' rec T H).
  - intros env s s' _ T H. exact (aborted_engines env s s' T H).
  - apply always_allowed.
  - apply constructor_engines.
Qed.

(** The invariants together, for the properties that rest on more than
    one of them. *)
Lemma run_sound c now events :
  let s := run log2 (constructor c now) events in
  counters_sound s /\ engines_sound s.
Proof.
  apply (run_invariant
           (fun s => counters_sound s /\ engines_sound s)
           (fun _ => True)).
  - intros s r st timer H. exact H.
  - intros env s s' rec _ T (C & E). split.
    + exact (ticked_counters env s s' rec T C).
    + exact (ticked_engines env s s' rec T E).
  - intros env s s' _ T (C & E). split.
    + exact (aborted_counters env s s' T C).
    + exact (aborted_engines env s s' T E).
  - apply always_allowed.
  - split; [apply constructor_counters | apply constructor_engines].
Qed.

Lemma run_readable_sound c now events :
  Forall readable (tick_envs events) ->
  let s := run log2 (constructor c now) events in
  counters_sound s /\ numbered s /\ engines_sound s.
Proof.
  intro R.
  apply (run_invariant
           (fun s => counters_sound s /\ numbered s /\ engines_sound s)
           readable).
  - intros s r st timer H. exact H.
  - intros env s s' rec _ T (C & N & E). split; [|split].
    + exact (ticked_counters env s s' rec T C).
    + exact (ticked_numbered env s s' rec T N).
    + exact (ticked_engines env s s' rec T E).
  - intros env s s' A T _. now apply readable_not_aborted in T.
  - exact R.
  - split; [apply constructor_counters|].
    split; [apply constructor_numbered | apply constructor_engines].
Qed.

End Block.

Lemma history_is_numbered_witness :
  numbered (run whole_log2 (constructor noConfig 0) rough_run).
Proof.
  apply (history_is_numbered whole_log2 noConfig 0 rough_run).
  repeat constructor.
Defined.

(** A listener of [slvss:log] that throws [null] in the first tick: the
    [catch] clause fails on the message, the iteration and the failure are
    counted, no record is pushed and no timer is set, so that a later
    firing does nothing. *)
Example null_throw_leaves_no_record :
  let s := run whole_log2 (constructor noConfig 0)
             [Start 0 (null_tick 1000 LogVerify); Timer (quiet_tick 6000)] in
  iteration s = 1%Z /\ totalFailed s = 1%Z /\ history s = [] /\
  running s = true /\ loopTimer s = false.
Proof. vm_compute. repeat split. Qed.

(** Under maxIterations = 2.5 three ticks run, and no more. *)
Example fractional_bound :
  let c := {| opt_maxIterations := Some (Fin (5 # 2)); opt_intervalMs := None;
              opt_confidenceThreshold := None; opt_autoScale := None;
              opt_autoGenerate := None; opt_learnFromFailures := None;
              opt_debugMode := None; opt_veri3fyStages := None |} in
  let s := run whole_log2 (constructor c 0) (ticks 5) in
  iteration s = 3%Z /\ running s = false.
Proof. vm_compute. repeat split. Qed.

Lemma quiet_ticks_count_once_witness :
  let s := run whole_log2 (constructor noConfig 0) (ticks 2) in
  (totalPassed s + totalFailed s = iteration s)%Z.
Proof.
  apply (quiet_ticks_count_once whole_log2 noConfig 0 (ticks 2)).
  repeat constructor.
Defined.

(** A listener that throws after the verdict makes the tick count
    twice. *)
Example rough_ticks_count_twice :
  let s := run whole_log2 (constructor noConfig 0) rough_run in
  iteration s = 4%Z /\ totalPassed s = 3%Z /\ totalFailed s = 2%Z.
Proof. vm_compute. repeat split. Qed.

(** *** The snapshot that the runner hands to its gate *)

Local Transparent buildPayload.

Lemma ratio_proportion n iteration :
  (0 < iteration)%Z -> 0 <= n -> n <= inject_Z iteration ->
  0 <= ratio n iteration /\ ratio n iteration <= 1.
Proof.
  intros P L U. unfold ratio.
  replace (0 <? iteration)%Z with true by (symmetry; now apply Z.ltb_lt).
  assert (D : 0 < inject_Z iteration).
  { rewrite <- (Zlt_Qlt 0). exact P. }
  split.
  - apply Qle_shift_div_l; [exact D|]. now rewrite Qmult_0_l.
  - apply Qle_shift_div_r; [exact D|]. now rewrite Qmult_1_l.
Qed.

Lemma snapshot_stage1 s now errors :
  counters_sound s -> engines_sound s -> (0 < now)%Z ->
  fst (VERI3FY.stage1_syntax (buildPayload (begun s) now) errors) = true.
Proof.
  intros (P & _) (_ & (B & _) & _) N.
  apply StageFacts.stage1_accepts.
  exists (Fin (inject_Z (iteration s + 1))),
    (Fin (ScalingEngine.currentScale (scaling s))),
    (Fin (inject_Z now)), "SLVSS-ARK95X-v2".
  repeat split.
  - cbn. apply Qltb_ge. rewrite <- (Zle_Qle 0). lia.
  - cbn. apply Qltb_ge. exact B.
  - cbn. apply negb_false_iff, Qltb_lt. rewrite <- (Zlt_Qlt 0). exact N.
Qed.

Lemma snapshot_stage2 s now now' errors :
  counters_sound s ->
  fst (VERI3FY.stage2_logic (buildPayload (begun s) now) now' errors)
  = (now' - now <=? 60000)%Z.
Proof.
  intros (P & F & PF & C0 & C1).
  assert (It : (0 < iteration s + 1)%Z) by lia.
  destruct (ratio_proportion (inject_Z (totalPassed s)) (iteration s + 1) It)
    as [R0 R1].
  { rewrite <- (Zle_Qle 0). lia. }
  { rewrite <- Zle_Qle. lia. }
  destruct (ratio_proportion (confidenceSum s) (iteration s + 1) It)
    as [A0 A1]; [exact C0 | |].
  { rewrite inject_Z_plus. change (inject_Z 1) with 1. lra. }
  set (payload := buildPayload (begun s) now).
  assert (Gs : get payload "successRate"
               = VNumber (Fin (ratio (inject_Z (totalPassed s))
                                 (iteration s + 1)))) by reflexivity.
  assert (Gc : get payload "avgConfidence"
               = VNumber (Fin (ratio (confidenceSum s) (iteration s + 1))))
    by reflexivity.
  assert (Gt : get payload "timestamp" = VNumber (Fin (inject_Z now)))
    by reflexivity.
  assert (Gi : get payload "iteration"
               = VNumber (Fin (inject_Z (iteration s + 1)))) by reflexivity.
  unfold VERI3FY.stage2_logic. cbv zeta. rewrite Gs, Gc, Gt, Gi.
  unfold lt_lit, gt_lit.
  cbn [ToNumber num_ltb num_sub is_number andb].
  apply Qltb_ge in R0, A0. rewrite R0, A0.
  replace (Qltb 1 (ratio (inject_Z (totalPassed s)) (iteration s + 1)))
    with false by (symmetry; now apply Qltb_ge).
  replace (Qltb 1 (ratio (confidenceSum s) (iteration s + 1)))
    with false by (symmetry; now apply Qltb_ge).
  replace (Qltb (inject_Z (iteration s + 1)) 0) with false
    by (symmetry; apply Qltb_ge; rewrite <- (Zle_Qle 0); lia).
  cbn [orb].
  assert (W : forall c msg st,
            fst (if c : bool then VERI3FY.warn msg st else st) = fst st).
  { intros c msg st. now destruct c. }
  destruct (Qltb (60000 # 1) (inject_Z now' - inject_Z now)) eqn:S.
  - cbn [fst VERI3FY.reject]. symmetry. apply Z.leb_gt.
    apply Qltb_lt in S. unfold Qminus in S.
    rewrite <- inject_Z_opp, <- inject_Z_plus in S.
    change (60000 # 1) with (inject_Z 60000) in S.
    rewrite <- Zlt_Qlt in S. lia.
  - rewrite W. cbn [fst]. symmetry. apply Z.leb_le.
    apply Qltb_ge in S. unfold Qminus in S.
    rewrite <- inject_Z_opp, <- inject_Z_plus in S.
    change (60000 # 1) with (inject_Z 60000) in S.
    rewrite <- Zle_Qle in S. lia.
Qed.

Lemma snapshot_stage3 s now errors :
  counters_sound s -> engines_sound s ->
  fst (VERI3FY.stage3_sovereignty (buildPayload (begun s) now) errors)
  = negb ((5 <? iteration s + 1)%Z && Qltb (next_confidence s) (7 # 10)).
Proof.
  intros (P & _) (_ & (B & _) & _ & _ & _ & _ & _ & V & _).
  set (payload := buildPayload (begun s) now).
  assert (Gn : get payload "ark95xNode" = VString "SLVSS-ARK95X-v2")
    by reflexivity.
  assert (Gc : get payload "avgConfidence" = VNumber (Fin (next_confidence s)))
    by reflexivity.
  assert (Gs : get payload "scale"
               = VNumber (Fin (ScalingEngine.currentScale (scaling s))))
    by reflexivity.
  assert (Gi : get payload "iteration"
               = VNumber (Fin (inject_Z (iteration s + 1)))) by reflexivity.
  assert (Gv : get payload "learnerVersion"
               = VString (LearningCore.modelVersion (learner s)))
    by reflexivity.
  unfold VERI3FY.stage3_sovereignty. cbv zeta. rewrite Gn, Gc, Gs, Gi, Gv.
  unfold lt_lit, gt_lit. cbn [ToNumber ToString num_ltb].
  replace (existsb _ VERI3FY.validNodes) with true by reflexivity.
  replace (Qltb (ScalingEngine.currentScale (scaling s)) 1) with false
    by (symmetry; now apply Qltb_ge).
  rewrite V.
  replace (ToBoolean (VString (LearningCore.modelVersion (learner s))))
    with true.
  2:{ cbn. destruct (LearningCore.modelVersion (learner s));
        [discriminate V | reflexivity]. }
  rewrite andb_false_r. cbn [negb orb].
  replace (Qltb (5 # 1) (inject_Z (iteration s + 1)))
    with (5 <? iteration s + 1)%Z.
  2:{ destruct (5 <? iteration s + 1)%Z eqn:E; symmetry.
      - apply Qltb_lt. change (5 # 1) with (inject_Z 5).
        rewrite <- Zlt_Qlt. now apply Z.ltb_lt.
      - apply Qltb_ge. change (5 # 1) with (inject_Z 5).
        rewrite <- Zle_Qle. now apply Z.ltb_ge. }
  now destruct (_ && _)%bool.
Qed.

Section Snapshot.
Variable log2 : Q -> Q.

(** X29.  On the snapshot that a runner builds for its next tick at a
    positive time, whatever has happened to the runner since its
    construction: stage 1 succeeds; stage 2 succeeds exactly when it runs
    at most 60 seconds after the snapshot was built; stage 3 succeeds when
    at most five iterations have begun or the average confidence is at
    least 0.701, and fails when more than five have begun and the average
    is at most 0.699.  (Between the two the verdict turns on the last
    digits of a floating-point quotient.) *)
Theorem snapshot_verdicts (c : PartialLoopConfig) (now0 : Z)
  (events : list Event) (now now' : Z) (errors : list string) :
  (0 < now)%Z ->
  let s := run log2 (constructor c now0) events in
  let payload := buildPayload (begun s) now in
  fst (VERI3FY.stage1_syntax payload errors) = true /\
  fst (VERI3FY.stage2_logic payload now' errors)
    = (now' - now <=? 60000)%Z /\
  ((iteration s + 1 <= 5)%Z \/ 701 # 1000 <= next_confidence s ->
   fst (VERI3FY.stage3_sovereignty payload errors) = true) /\
  ((5 < iteration s + 1)%Z -> next_confidence s <= 699 # 1000 ->
   fst (VERI3FY.stage3_sovereignty payload errors) = false).
Proof.
  intros N s payload.
  destruct (run_sound log2 c now0 events) as (C & E).
  split; [now apply snapshot_stage1|].
  split; [now apply snapshot_stage2|].
  subst payload. rewrite (snapshot_stage3 s now errors C E). split.
  - intros [L | L].
    + replace (5 <? iteration s + 1)%Z with false
        by (symmetry; apply Z.ltb_ge; exact L).
      reflexivity.
    + replace (Qltb (next_confidence s) (7 # 10)) with false.
      * now rewrite andb_false_r.
      * symmetry. apply Qltb_ge.
        apply Qle_trans with (701 # 1000); [discriminate | exact L].
  - intros L U.
    replace (5 <? iteration s + 1)%Z with true
      by (symmetry; apply Z.ltb_lt; exact L).
    replace (Qltb (next_confidence s) (7 # 10)) with true; [reflexivity|].
    symmetry. apply Qltb_lt.
    apply Qle_lt_trans with (699 # 1000); [exact U | reflexivity].
Qed.

Lemma ids_upto_skipn n k : forall len,
  skipn k (ids_upto n len) = ids_upto n (len - k).
Proof.
  induction k as [|k IH]; intro len.
  - now rewrite Nat.sub_0_r.
  - destruct len as [|len]; [reflexivity|].
    change (skipn (S k) (ids_upto n (S len)))
      with (skipn k (tl (ids_upto n (S len)))).
    rewrite ids_upto_tl. apply IH.
Qed.

Lemma toFixed4_proportion x : 0 <= x -> x <= 1 -> 0 <= toFixed 4 x <= 1.
Proof.
  intros L U. split; [now apply toFixed_nonneg|].
  apply Qle_trans with (toFixed 4 1); [now apply toFixed_mono|].
  apply Qle_lteq. right. exact (toFixed_whole 4 1).
Qed.

(** X30.  As long as the [catch] clause can read the message of what a
    listener throws (it cannot of [null] and [undefined]), whatever else
    has happened to a runner since its construction, [getState]
    reports a success rate and an average confidence between 0 and 1, a
    scale between 1 and 1024, and the records of the latest iterations, up
    to 10 of them, numbered up to the iteration counter. *)
Theorem state_is_well_reported (c : PartialLoopConfig) (now0 : Z)
  (events : list Event) (now : Z) :
  Forall readable (tick_envs events) ->
  well_reported (getState (run log2 (constructor c now0) events) now).
Proof.
  intro Rd.
  set (s := run log2 (constructor c now0) events).
  destruct (run_readable_sound log2 c now0 events Rd)
    as ((P & F & PF & C0 & C1) & (I0 & L & N) & (Sp & (B0 & B1) & _)).
  fold s in P, F, PF, C0, C1, Sp, B0, B1, I0, L, N.
  unfold well_reported, getState.
  cbn [st_successRate st_avgConfidence st_currentScale st_history
       st_iteration].
  assert (R : 0 <= (if (0 <? iteration s)%Z
                    then toFixed 4 (inject_Z (totalPassed s)
                                    / inject_Z (iteration s))
                    else 0) <= 1).
  { destruct (0 <? iteration s)%Z eqn:E; [|split; discriminate].
    apply Z.ltb_lt in E.
    destruct (ratio_proportion (inject_Z (totalPassed s)) (iteration s) E)
      as [R0 R1].
    - rewrite <- (Zle_Qle 0). lia.
    - rewrite <- Zle_Qle. lia.
    - unfold ratio in R0, R1.
      replace (0 <? iteration s)%Z with true in R0, R1
        by (symmetry; now apply Z.ltb_lt).
      now apply toFixed4_proportion. }
  assert (A : 0 <= (if (0 <? iteration s)%Z
                    then toFixed 4 (confidenceSum s / inject_Z (iteration s))
                    else 0) <= 1).
  { destruct (0 <? iteration s)%Z eqn:E; [|split; discriminate].
    apply Z.ltb_lt in E.
    destruct (ratio_proportion (confidenceSum s) (iteration s) E C0 C1)
      as [R0 R1].
    unfold ratio in R0, R1.
    replace (0 <? iteration s)%Z with true in R0, R1
      by (symmetry; now apply Z.ltb_lt).
    now apply toFixed4_proportion. }
  rewrite Sp in B1.
  repeat split; try apply R; try apply A; try assumption.
  unfold slice_last. rewrite <- skipn_map, N, ids_upto_skipn. f_equal. lia.
Qed.

End Snapshot.

Lemma snapshot_verdicts_witness :
  let s := run whole_log2 (constructor noConfig 0) (ticks 2) in
  let payload := buildPayload (begun s) 11000 in
  fst (VERI3FY.stage1_syntax payload []) = true /\
  fst (VERI3FY.stage2_logic payload 71001 []) = false /\
  fst (VERI3FY.stage3_sovereignty payload []) = true.
Proof.
  intros s payload.
  destruct (snapshot_verdicts whole_log2 noConfig 0 (ticks 2) 11000 71001 [])
    as (S1 & S2 & S3 & _); [lia|].
  split; [exact S1|]. split; [exact S2|].
  apply S3. left. vm_compute. discriminate.
Defined.

Lemma state_is_well_reported_witness :
  well_reported
    (getState (run whole_log2 (constructor noConfig 0) rough_run) 30000).
Proof.
  apply (state_is_well_reported whole_log2 noConfig 0 rough_run 30000).
  repeat constructor.
Defined.

End LoopFacts.
